(** * btajne/voicebot: the text-understanding pipeline of [ai_server.py]

    A shallow embedding of the Flask voice-bot server: the math path
    ([words_to_numbers], [words_to_operators], [safe_eval], [try_math]),
    the canned-answer table ([normalize_intent], [local_answer]), the
    generative fallback ([ollama_reply]) and the request handler ([ask]).
    The variant file [ai_server_2.py] is embedded in [Module AiServer2]
    where it differs.

    Modelling conventions.
    - A Python [str] is a [string] whose characters are the code points
      U+0000..U+00FF; the classes [\d], [\s], [\w], [str.lower] and
      [str.strip] are Python's Unicode classes on that range.
    - A Python exception is a value of [exn]; a computation that may raise
      has type [Exc A].
    - [int] is [Z]; [float] is an IEEE-754 binary64 value of [spec_float].
    - Library calls the program makes outside its own text ([ast.parse],
      [repr] of a float, [datetime.now().strftime], [ollama.chat]) are the
      variables of the sections below; [ast_parse] further down is a
      concrete model of [ast.parse] on the alphabet the math path lets
      through.
    - [AiServer] and [AiServer2] describe the servers on an interpreter
      without resource limits and a console that prints every text;
      [Bounded] and [Bounded2] describe them with CPython's limits on
      integer conversion and recursion and a console that may refuse a
      text. *)

From Stdlib Require Import String Ascii List ZArith NArith Bool Lia Arith.
From Stdlib Require Import DecimalString SpecFloat.
Import ListNotations.

#[local] Set Warnings "-register-all".

Local Open Scope string_scope.
Local Open Scope bool_scope.

(* ================================================================== *)
(** * Characters and strings *)
(* ================================================================== *)

Module Text.

Definition code (c : ascii) : N := N_of_ascii c.

Definition between (lo hi : N) (c : ascii) : bool :=
  (lo <=? code c)%N && (code c <=? hi)%N.

(** [\d] *)
Definition is_digit (c : ascii) : bool := between 48 57 c.

(** [\s] and [str.isspace] *)
Definition is_space (c : ascii) : bool :=
  between 9 13 c || between 28 32 c || (code c =? 133)%N || (code c =? 160)%N.

(** [str.isalnum], the alphanumerics behind [\w] *)
Definition is_alnum (c : ascii) : bool :=
  between 48 57 c || between 65 90 c || between 97 122 c
  || (code c =? 170)%N || between 178 179 c || (code c =? 181)%N
  || between 185 186 c || between 188 190 c
  || between 192 214 c || between 216 246 c || between 248 255 c.

(** [\w] *)
Definition is_word (c : ascii) : bool := is_alnum c || (code c =? 95)%N.

Definition lower_char (c : ascii) : ascii :=
  if between 65 90 c || between 192 214 c || between 216 222 c
  then ascii_of_N (code c + 32) else c.

(** [str.lower] *)
Fixpoint lower (s : string) : string :=
  match s with
  | EmptyString => EmptyString
  | String c s' => String (lower_char c) (lower s')
  end.

Fixpoint lstrip (s : string) : string :=
  match s with
  | EmptyString => EmptyString
  | String c s' => if is_space c then lstrip s' else s
  end.

Fixpoint rstrip (s : string) : string :=
  match s with
  | EmptyString => EmptyString
  | String c s' =>
      match rstrip s' with
      | EmptyString => if is_space c then EmptyString else String c EmptyString
      | r => String c r
      end
  end.

(** [str.strip] *)
Definition strip (s : string) : string := rstrip (lstrip s).

Fixpoint forall_chars (p : ascii -> bool) (s : string) : bool :=
  match s with
  | EmptyString => true
  | String c s' => p c && forall_chars p s'
  end.

Fixpoint filter_chars (p : ascii -> bool) (s : string) : string :=
  match s with
  | EmptyString => EmptyString
  | String c s' => if p c then String c (filter_chars p s') else filter_chars p s'
  end.

(** [strip_prefix w s] is [Some rest] when [s = w ++ rest]. *)
Fixpoint strip_prefix (w s : string) : option string :=
  match w with
  | EmptyString => Some s
  | String a w' =>
      match s with
      | EmptyString => None
      | String b s' => if Ascii.eqb a b then strip_prefix w' s' else None
      end
  end.

Fixpoint last_char (w : string) (d : option ascii) : option ascii :=
  match w with
  | EmptyString => d
  | String c w' => last_char w' (Some c)
  end.

(** [str.replace(old, new)]: every non-overlapping occurrence, leftmost
    first.  [skip] counts the characters of an occurrence still to drop. *)
Fixpoint replace_from (old new : string) (skip : nat) (s : string) : string :=
  match s with
  | EmptyString => EmptyString
  | String c s' =>
      match skip with
      | S n => replace_from old new n s'
      | O =>
          match strip_prefix old s with
          | Some _ => new ++ replace_from old new (String.length old - 1) s'
          | None => String c (replace_from old new 0 s')
          end
      end
  end.

Definition replace (old new s : string) : string := replace_from old new 0 s.

(** [str(n)] for an [int] *)
Definition str_of_int (n : Z) : string := NilEmpty.string_of_int (Z.to_int n).

End Text.

(* ================================================================== *)
(** * The regular expressions the program uses *)
(* ================================================================== *)

Module Re.
Import Text.

Inductive regex : Type :=
| Lit (w : string)             (* literal text *)
| Cls (p : ascii -> bool)      (* one character of a class *)
| WordB                        (* \b *)
| Seq (r1 r2 : regex)
| Alt (r1 r2 : regex)          (* r1|r2, r1 tried first *)
| Star (r : regex)             (* r*, greedy *)
| Opt (r : regex).             (* r?, greedy *)

Definition Nothing : regex := Cls (fun _ => false).

Fixpoint alts (rs : list regex) : regex :=
  match rs with
  | [] => Nothing
  | [r] => r
  | r :: rs' => Alt r (alts rs')
  end.

Fixpoint seqs (rs : list regex) : regex :=
  match rs with
  | [] => Lit ""
  | [r] => r
  | r :: rs' => Seq r (seqs rs')
  end.

Definition words (ws : list string) : regex := alts (map Lit ws).

Definition word_before (prev : option ascii) : bool :=
  match prev with Some c => is_word c | None => false end.

Definition word_after (s : string) : bool :=
  match s with String c _ => is_word c | EmptyString => false end.

(** [\b]: exactly one side of the position is a word character. *)
Definition at_boundary (prev : option ascii) (s : string) : bool :=
  xorb (word_before prev) (word_after s).

(** Backtracking matcher in continuation-passing style.  [prev] is the
    character before the current position, [s] the text from it on; [k]
    receives the state after the match and decides whether the rest of the
    pattern succeeds.  Alternatives are explored in the engine's priority
    order, so the first [Some] is the match [re] reports. *)
Fixpoint exec {A : Type} (r : regex) (prev : option ascii) (s : string)
         (k : option ascii -> string -> option A) {struct r} : option A :=
  match r with
  | Lit w =>
      match strip_prefix w s with
      | Some s' => k (last_char w prev) s'
      | None => None
      end
  | Cls p =>
      match s with
      | String c s' => if p c then k (Some c) s' else None
      | EmptyString => None
      end
  | WordB => if at_boundary prev s then k prev s else None
  | Seq r1 r2 => exec r1 prev s (fun prev' s' => exec r2 prev' s' k)
  | Alt r1 r2 =>
      match exec r1 prev s k with
      | Some a => Some a
      | None => exec r2 prev s k
      end
  | Opt r1 =>
      match exec r1 prev s k with
      | Some a => Some a
      | None => k prev s
      end
  | Star r1 =>
      (fix loop (fuel : nat) (prev : option ascii) (s : string) : option A :=
         match fuel with
         | O => k prev s
         | S fuel' =>
             match exec r1 prev s
                     (fun prev' s' =>
                        if Nat.ltb (String.length s') (String.length s)
                        then loop fuel' prev' s' else None) with
             | Some a => Some a
             | None => k prev s
             end
         end) (String.length s) prev s
  end.

Definition matches_here (r : regex) (prev : option ascii) (s : string) : option string :=
  exec r prev s (fun _ rest => Some rest).

Fixpoint search_from (r : regex) (prev : option ascii) (s : string) : bool :=
  match matches_here r prev s with
  | Some _ => true
  | None =>
      match s with
      | EmptyString => false
      | String c s' => search_from r (Some c) s'
      end
  end.

(** [re.search(r, t)] as a truth value *)
Definition search (r : regex) (t : string) : bool := search_from r None t.

(** [re.fullmatch(r, t)] as a truth value *)
Definition fullmatch (r : regex) (t : string) : bool :=
  match exec r None t
          (fun _ rest => match rest with EmptyString => Some tt | _ => None end) with
  | Some _ => true
  | None => false
  end.

(** [re.sub(r, repl, t)]: leftmost non-overlapping matches are replaced by
    [repl] of the matched text.  [skip] counts the characters of the
    current match still to pass over. *)
Fixpoint sub_from (r : regex) (repl : string -> string) (skip : nat)
         (prev : option ascii) (s : string) : string :=
  match skip with
  | S n =>
      match s with
      | EmptyString => EmptyString
      | String c s' => sub_from r repl n (Some c) s'
      end
  | O =>
      match matches_here r prev s with
      | Some rest =>
          let n := String.length s - String.length rest in
          repl (substring 0 n s) ++
          match s with
          | EmptyString => EmptyString
          | String c s' =>
              match n with
              | O => String c (sub_from r repl 0 (Some c) s')
              | S n' => sub_from r repl n' (Some c) s'
              end
          end
      | None =>
          match s with
          | EmptyString => EmptyString
          | String c s' => String c (sub_from r repl 0 (Some c) s')
          end
      end
  end.

Definition sub (r : regex) (repl : string -> string) (t : string) : string :=
  sub_from r repl 0 None t.

End Re.

(* ================================================================== *)
(** * Python values, exceptions and numbers *)
(* ================================================================== *)

Module Py.

Inductive exn : Type :=
| SyntaxError
| ValueError (msg : string)
| ZeroDivisionError
| OverflowError
| AttributeError
| KeyError
| TypeError
| RecursionError
| UnicodeEncodeError
| LibraryError (what : string).     (* whatever a library call raises *)

Inductive Exc (A : Type) : Type :=
| Ok (a : A)
| Raise (e : exn).
Arguments Ok {A} a.
Arguments Raise {A} e.

Definition bind {A B : Type} (m : Exc A) (k : A -> Exc B) : Exc B :=
  match m with
  | Ok a => k a
  | Raise e => Raise e
  end.

Definition is_ok {A : Type} (m : Exc A) : bool :=
  match m with Ok _ => true | Raise _ => false end.

(** ** Floats: IEEE-754 binary64 *)

Definition prec : Z := 53.
Definition emax : Z := 1024.
Definition float : Type := spec_float.

Definition fadd : float -> float -> float := SFadd prec emax.
Definition fsub : float -> float -> float := SFsub prec emax.
Definition fmul : float -> float -> float := SFmul prec emax.
Definition fdiv : float -> float -> float := SFdiv prec emax.
Definition fzero : float := S754_zero false.

Definition float_is_zero (f : float) : bool :=
  match f with S754_zero _ => true | _ => false end.

(** The quotient of two integers rounded once, to nearest-even; an
    infinity when it is out of range. *)
Definition float_of_quotient (a b : Z) : float :=
  let s := xorb (a <? 0)%Z (b <? 0)%Z in
  match Z.abs a, Z.abs b with
  | Zpos p, Zpos q => SFdiv prec emax (S754_finite s p 0) (S754_finite false q 0)
  | _, _ => S754_zero s
  end.

Definition finite_or_overflow (f : float) : Exc float :=
  match f with
  | S754_infinity _ => Raise OverflowError
  | _ => Ok f
  end.

(** [float(n)] of an [int] *)
Definition float_of_int (n : Z) : Exc float :=
  finite_or_overflow (float_of_quotient n 1).

(** [float.is_integer] and [int(f)] on such a float *)
Definition float_integral (f : float) : option Z :=
  match f with
  | S754_zero _ => Some 0%Z
  | S754_finite s m e =>
      let v := if s then Z.neg m else Z.pos m in
      if (0 <=? e)%Z then Some (v * 2 ^ e)%Z
      else if (Z.pos m mod 2 ^ (- e) =? 0)%Z then Some (v / 2 ^ (- e))%Z
      else None
  | _ => None
  end.

(** ** Numbers: [int], [float], [complex] *)

Inductive number : Type :=
| PyInt (n : Z)
| PyFloat (f : float)
| PyComplex (re im : float).

Definition to_float (x : number) : Exc float :=
  match x with
  | PyInt n => float_of_int n
  | PyFloat f => Ok f
  | PyComplex _ _ => Raise TypeError
  end.

Definition to_complex (x : number) : Exc (float * float) :=
  match x with
  | PyComplex re im => Ok (re, im)
  | _ => bind (to_float x) (fun f => Ok (f, fzero))
  end.

Definition is_complex (x : number) : bool :=
  match x with PyComplex _ _ => true | _ => false end.

(** The shape of a binary arithmetic operator: exact on two ints, on
    complex numbers when either side is complex, on floats otherwise. *)
Definition arith
    (on_int : Z -> Z -> Exc number)
    (on_float : float -> float -> Exc number)
    (on_complex : float * float -> float * float -> Exc number)
    (x y : number) : Exc number :=
  match x, y with
  | PyInt a, PyInt b => on_int a b
  | _, _ =>
      if is_complex x || is_complex y
      then bind (to_complex x) (fun a => bind (to_complex y) (fun b => on_complex a b))
      else bind (to_float x) (fun a => bind (to_float y) (fun b => on_float a b))
  end.

(** [operator.add] *)
Definition py_add : number -> number -> Exc number :=
  arith (fun a b => Ok (PyInt (a + b)))
        (fun a b => Ok (PyFloat (fadd a b)))
        (fun a b => Ok (PyComplex (fadd (fst a) (fst b)) (fadd (snd a) (snd b)))).

(** [operator.sub] *)
Definition py_sub : number -> number -> Exc number :=
  arith (fun a b => Ok (PyInt (a - b)))
        (fun a b => Ok (PyFloat (fsub a b)))
        (fun a b => Ok (PyComplex (fsub (fst a) (fst b)) (fsub (snd a) (snd b)))).

(** [operator.mul] *)
Definition py_mul : number -> number -> Exc number :=
  arith (fun a b => Ok (PyInt (a * b)))
        (fun a b => Ok (PyFloat (fmul a b)))
        (fun a b =>
           let '(ar, ai) := a in
           let '(br, bi) := b in
           Ok (PyComplex (fsub (fmul ar br) (fmul ai bi))
                         (fadd (fmul ar bi) (fmul ai br)))).

(** Quotient of two complex numbers, scaled by the larger component of
    the divisor; [None] when the divisor is zero. *)
Definition complex_quot (a b : float * float) : option (float * float) :=
  let '(ar, ai) := a in
  let '(br, bi) := b in
  let abs_breal := SFabs br in
  let abs_bimag := SFabs bi in
  if SFleb abs_bimag abs_breal then
    if float_is_zero abs_breal then None
    else
      let ratio := fdiv bi br in
      let denom := fadd br (fmul bi ratio) in
      Some (fdiv (fadd ar (fmul ai ratio)) denom,
            fdiv (fsub ai (fmul ar ratio)) denom)
  else if SFleb abs_breal abs_bimag then
    let ratio := fdiv br bi in
    let denom := fadd (fmul br ratio) bi in
    Some (fdiv (fadd (fmul ar ratio) ai) denom,
          fdiv (fsub (fmul ai ratio) ar) denom)
  else Some (S754_nan, S754_nan).

(** [operator.truediv] *)
Definition py_truediv : number -> number -> Exc number :=
  arith (fun a b =>
           if (b =? 0)%Z then Raise ZeroDivisionError
           else bind (finite_or_overflow (float_of_quotient a b))
                     (fun f => Ok (PyFloat f)))
        (fun a b =>
           if float_is_zero b then Raise ZeroDivisionError
           else Ok (PyFloat (fdiv a b)))
        (fun a b =>
           match complex_quot a b with
           | None => Raise ZeroDivisionError
           | Some (re, im) => Ok (PyComplex re im)
           end).


End Py.

Declare Scope exc_scope.
Delimit Scope exc_scope with exc.
Notation "x <- m ;; k" := (Py.bind m (fun x => k))
  (at level 61, m at next level, right associativity) : exc_scope.
Local Open Scope exc_scope.

(* ================================================================== *)
(** * The [ast] nodes of an expression *)
(* ================================================================== *)

Module Ast.
Import Py.

Inductive operator : Type :=
| Add | Sub | Mult | MatMult | Div | Mod | Pow
| LShift | RShift | BitOr | BitXor | BitAnd | FloorDiv.

Inductive unaryop : Type := Invert | Not | UAdd | USub.

Inductive constant : Type :=
| CInt (n : Z)
| CFloat (f : float)
| CComplex (re im : float)
| CStr (s : string)
| CBytes (s : string)
| CBool (b : bool)
| CNone
| CEllipsis.

Inductive expr : Type :=
| Constant (value : constant)
| BinOp (left : expr) (op : operator) (right : expr)
| UnaryOp (op : unaryop) (operand : expr)
| Name (id : string)
| Attribute (value : expr) (attr : string)
| Call (func : expr) (args : list expr) (keywords : list (option string * expr))
| Starred (value : expr)
| Tuple (elts : list expr)
| OtherExpr (cls : string).   (* BoolOp, Compare, Lambda, IfExp, Subscript, ... *)

End Ast.

(* ================================================================== *)
(** * [ast.parse(text, mode="eval")] on arithmetic text *)
(* ================================================================== *)

(** A model of CPython's tokenizer and expression grammar (3.9 to 3.13)
    on text over the alphabet [0-9 + - * / . ( )] and the space: the
    characters that survive the filter of [try_math], and parentheses.
    Text with any other character lies outside this model; [try_math]
    never passes such text on.  The limits the interpreter puts on
    recursion and on the digits of an [int] are left out here; [Bounded]
    below adds them. *)

Module Parser.
Import Text Py Ast.

Inductive token : Type :=
| TNum (c : constant)
| TPlus | TMinus | TStar | TSlash
| TDoubleStar | TDoubleSlash
| TDot | TEllipsis
| TLPar | TRPar.

Definition digit_value (c : ascii) : Z := Z.of_N (code c) - 48.

(** The value of a string of decimal digits, most significant first. *)
Fixpoint digits_value (acc : Z) (ds : string) : Z :=
  match ds with
  | EmptyString => acc
  | String c ds' => digits_value (10 * acc + digit_value c) ds'
  end.

Definition is_zero_digit (c : ascii) : bool := (code c =? 48)%N.

(** An integer literal: a run of digits that either has no leading zero
    or consists of zeros only. *)
Definition int_literal (ds : string) : Exc token :=
  match ds with
  | String c (String _ _ as ds') =>
      if is_zero_digit c && negb (forall_chars is_zero_digit ds')
      then Raise SyntaxError
      else Ok (TNum (CInt (digits_value 0 ds)))
  | _ => Ok (TNum (CInt (digits_value 0 ds)))
  end.

(** A point-float literal [ip.fp]: the decimal value rounded once. *)
Definition float_literal (ip fp : string) : token :=
  TNum (CFloat (float_of_quotient (digits_value 0 (ip ++ fp))
                                  (10 ^ Z.of_nat (String.length fp)))).

(** What the tokenizer has read of a token that is not finished yet. *)
Inductive lex_state : Type :=
| Idle
| InInt (ds : string)            (* digits of an integer part *)
| InFrac (ip fp : string)        (* integer part, a point, fraction digits *)
| AfterStar                      (* one star *)
| AfterSlash                     (* one slash *)
| AfterDot                       (* one point, not in a number *)
| AfterDot2.                     (* two such points *)

(** The tokens a pending state stands for when no character extends it. *)
Definition flush (st : lex_state) : Exc (list token) :=
  match st with
  | Idle => Ok []
  | InInt ds => t <- int_literal ds ;; Ok [t]
  | InFrac ip fp => Ok [float_literal ip fp]
  | AfterStar => Ok [TStar]
  | AfterSlash => Ok [TSlash]
  | AfterDot => Ok [TDot]
  | AfterDot2 => Ok [TDot; TDot]
  end.

Definition append1 (s : string) (c : ascii) : string := s ++ String c EmptyString.

(** A character read with nothing pending. *)
Definition step_idle (c : ascii) : Exc (list token * lex_state) :=
  if is_digit c then Ok ([], InInt (String c EmptyString))
  else if Ascii.eqb c " " then Ok ([], Idle)
  else if Ascii.eqb c "+" then Ok ([TPlus], Idle)
  else if Ascii.eqb c "-" then Ok ([TMinus], Idle)
  else if Ascii.eqb c "*" then Ok ([], AfterStar)
  else if Ascii.eqb c "/" then Ok ([], AfterSlash)
  else if Ascii.eqb c "." then Ok ([], AfterDot)
  else if Ascii.eqb c "(" then Ok ([TLPar], Idle)
  else if Ascii.eqb c ")" then Ok ([TRPar], Idle)
  else Raise SyntaxError.

Definition flush_then_idle (st : lex_state) (c : ascii) : Exc (list token * lex_state) :=
  ts <- flush st ;;
  r <- step_idle c ;;
  Ok ((ts ++ fst r)%list, snd r).

(** One character: the tokens it completes and the new pending state. *)
Definition step (st : lex_state) (c : ascii) : Exc (list token * lex_state) :=
  match st with
  | Idle => step_idle c
  | InInt ds =>
      if is_digit c then Ok ([], InInt (append1 ds c))
      else if Ascii.eqb c "." then Ok ([], InFrac ds EmptyString)
      else flush_then_idle st c
  | InFrac ip fp =>
      if is_digit c then Ok ([], InFrac ip (append1 fp c))
      else flush_then_idle st c
  | AfterStar =>
      if Ascii.eqb c "*" then Ok ([TDoubleStar], Idle)
      else flush_then_idle st c
  | AfterSlash =>
      if Ascii.eqb c "/" then Ok ([TDoubleSlash], Idle)
      else flush_then_idle st c
  | AfterDot =>
      if is_digit c then Ok ([], InFrac EmptyString (String c EmptyString))
      else if Ascii.eqb c "." then Ok ([], AfterDot2)
      else flush_then_idle st c
  | AfterDot2 =>
      if Ascii.eqb c "." then Ok ([TEllipsis], Idle)
      else if is_digit c then Ok ([TDot], InFrac EmptyString (String c EmptyString))
      else flush_then_idle st c
  end.

Fixpoint lex (st : lex_state) (s : string) : Exc (list token) :=
  match s with
  | EmptyString => flush st
  | String c s' =>
      r <- step st c ;;
      ts <- lex (snd r) s' ;;
      Ok (fst r ++ ts)%list
  end.

(** A first line that starts with a space is indented: an
    [IndentationError], which is a [SyntaxError]. *)
Definition tokenize (s : string) : Exc (list token) :=
  match s with
  | String " " _ => Raise SyntaxError
  | _ => lex Idle s
  end.

Definition parsed : Type := Exc (expr * list token).

Definition expect_rpar (e : expr) (ts : list token) : parsed :=
  match ts with
  | TRPar :: ts' => Ok (e, ts')
  | _ => Raise SyntaxError
  end.

(** The grammar rules [sum], [term], [factor], [power], [primary] and
    [atom] of [python.gram], restricted to the tokens above.  [None] is
    returned when [fuel] runs out. *)
Fixpoint p_sum (fuel : nat) (ts : list token) : option parsed :=
  match fuel with
  | O => None
  | S n =>
      match p_term n ts with
      | Some (Ok (l, ts')) => p_sum_rest n l ts'
      | r => r
      end
  end
with p_sum_rest (fuel : nat) (l : expr) (ts : list token) : option parsed :=
  match fuel with
  | O => None
  | S n =>
      match ts with
      | TPlus :: ts' =>
          match p_term n ts' with
          | Some (Ok (r, ts'')) => p_sum_rest n (BinOp l Add r) ts''
          | r => r
          end
      | TMinus :: ts' =>
          match p_term n ts' with
          | Some (Ok (r, ts'')) => p_sum_rest n (BinOp l Sub r) ts''
          | r => r
          end
      | _ => Some (Ok (l, ts))
      end
  end
with p_term (fuel : nat) (ts : list token) : option parsed :=
  match fuel with
  | O => None
  | S n =>
      match p_factor n ts with
      | Some (Ok (l, ts')) => p_term_rest n l ts'
      | r => r
      end
  end
with p_term_rest (fuel : nat) (l : expr) (ts : list token) : option parsed :=
  match fuel with
  | O => None
  | S n =>
      match ts with
      | TStar :: ts' =>
          match p_factor n ts' with
          | Some (Ok (r, ts'')) => p_term_rest n (BinOp l Mult r) ts''
          | r => r
          end
      | TSlash :: ts' =>
          match p_factor n ts' with
          | Some (Ok (r, ts'')) => p_term_rest n (BinOp l Div r) ts''
          | r => r
          end
      | TDoubleSlash :: ts' =>
          match p_factor n ts' with
          | Some (Ok (r, ts'')) => p_term_rest n (BinOp l FloorDiv r) ts''
          | r => r
          end
      | _ => Some (Ok (l, ts))
      end
  end
with p_factor (fuel : nat) (ts : list token) : option parsed :=
  match fuel with
  | O => None
  | S n =>
      match ts with
      | TPlus :: ts' =>
          match p_factor n ts' with
          | Some (Ok (e, ts'')) => Some (Ok (UnaryOp UAdd e, ts''))
          | r => r
          end
      | TMinus :: ts' =>
          match p_factor n ts' with
          | Some (Ok (e, ts'')) => Some (Ok (UnaryOp USub e, ts''))
          | r => r
          end
      | _ => p_power n ts
      end
  end
with p_power (fuel : nat) (ts : list token) : option parsed :=
  match fuel with
  | O => None
  | S n =>
      match p_primary n ts with
      | Some (Ok (l, TDoubleStar :: ts')) =>
          match p_factor n ts' with
          | Some (Ok (r, ts'')) => Some (Ok (BinOp l Pow r, ts''))
          | r => r
          end
      | r => r
      end
  end
with p_primary (fuel : nat) (ts : list token) : option parsed :=
  match fuel with
  | O => None
  | S n =>
      match p_atom n ts with
      | Some (Ok (a, ts')) => p_trailers n a ts'
      | r => r
      end
  end
with p_trailers (fuel : nat) (f : expr) (ts : list token) : option parsed :=
  match fuel with
  | O => None
  | S n =>
      match ts with
      | TLPar :: TRPar :: ts' => p_trailers n (Call f [] []) ts'
      | TLPar :: TStar :: ts' =>
          match p_sum n ts' with
          | Some (Ok (e, TRPar :: ts'')) => p_trailers n (Call f [Starred e] []) ts''
          | Some (Ok _) => Some (Raise SyntaxError)
          | r => r
          end
      | TLPar :: TDoubleStar :: ts' =>
          match p_sum n ts' with
          | Some (Ok (e, TRPar :: ts'')) => p_trailers n (Call f [] [(None, e)]) ts''
          | Some (Ok _) => Some (Raise SyntaxError)
          | r => r
          end
      | TLPar :: ts' =>
          match p_sum n ts' with
          | Some (Ok (e, TRPar :: ts'')) => p_trailers n (Call f [e] []) ts''
          | Some (Ok _) => Some (Raise SyntaxError)
          | r => r
          end
      | TDot :: _ => Some (Raise SyntaxError)
      | _ => Some (Ok (f, ts))
      end
  end
with p_atom (fuel : nat) (ts : list token) : option parsed :=
  match fuel with
  | O => None
  | S n =>
      match ts with
      | TNum c :: ts' => Some (Ok (Constant c, ts'))
      | TEllipsis :: ts' => Some (Ok (Constant CEllipsis, ts'))
      | TLPar :: TRPar :: ts' => Some (Ok (Tuple [], ts'))
      | TLPar :: ts' =>
          match p_sum n ts' with
          | Some (Ok (e, ts'')) => Some (expect_rpar e ts'')
          | r => r
          end
      | _ => Some (Raise SyntaxError)
      end
  end.

Definition parse_fuel (ts : list token) : nat := 8 * List.length ts + 8.

(** The rule [eval]: one expression and nothing after it.  The fuel is
    never exhausted ([parse_tokens_total] below), so the last branch is
    not taken. *)
Definition parse_tokens (ts : list token) : Exc expr :=
  match p_sum (parse_fuel ts) ts with
  | Some (Ok (e, [])) => Ok e
  | Some (Ok (_, _ :: _)) => Raise SyntaxError
  | Some (Raise e) => Raise e
  | None => Raise SyntaxError
  end.

Definition ast_parse (text : string) : Exc expr :=
  ts <- tokenize text ;;
  parse_tokens ts.

End Parser.

(* ================================================================== *)
(** * JSON values: request bodies and backend responses *)
(* ================================================================== *)

Module Json.
Import Text Py.

Inductive json : Type :=
| JNull
| JBool (b : bool)
| JInt (n : Z)
| JFloat (f : float)
| JStr (s : string)
| JArr (items : list json)
| JObj (fields : list (string * json)).   (* a dict's items, keys distinct *)

(** Python truthiness of a decoded JSON value *)
Definition truthy (j : json) : bool :=
  match j with
  | JNull => false
  | JBool b => b
  | JInt n => negb (n =? 0)%Z
  | JFloat f => negb (float_is_zero f)
  | JStr s => negb (String.eqb s "")
  | JArr items => match items with [] => false | _ => true end
  | JObj fields => match fields with [] => false | _ => true end
  end.

Fixpoint lookup (key : string) (fields : list (string * json)) : option json :=
  match fields with
  | [] => None
  | (k, v) :: rest => if String.eqb k key then Some v else lookup key rest
  end.

(** [d.get(key, default)] *)
Definition get (d : json) (key : string) (default : json) : Exc json :=
  match d with
  | JObj fields =>
      match lookup key fields with
      | Some v => Ok v
      | None => Ok default
      end
  | _ => Raise AttributeError
  end.

(** [d[key]] *)
Definition getitem (d : json) (key : string) : Exc json :=
  match d with
  | JObj fields =>
      match lookup key fields with
      | Some v => Ok v
      | None => Raise KeyError
      end
  | _ => Raise TypeError
  end.

(** [v.strip()] *)
Definition strip_method (v : json) : Exc string :=
  match v with
  | JStr s => Ok (strip s)
  | _ => Raise AttributeError
  end.

End Json.

(* ================================================================== *)
(** * ai_server.py *)
(* ================================================================== *)

Module AiServer.
Import Text Re Py Ast Json.

Definition OLLAMA_MODEL : string := "llama3.1:8b".

(** ** Safe math engine *)

Definition NUM_WORDS : list (string * Z) :=
  [("zero", 0); ("one", 1); ("two", 2); ("three", 3); ("four", 4);
   ("five", 5); ("six", 6); ("seven", 7); ("eight", 8); ("nine", 9);
   ("ten", 10); ("eleven", 11); ("twelve", 12)]%Z.

Definition OP_WORDS : list (string * string) :=
  [("plus", "+"); ("minus", "-"); ("into", "*"); ("times", "*");
   ("multiplied by", "*"); ("divide by", "/"); ("divided by", "/")].

Definition ALLOWED_OPS (op : operator) : option (number -> number -> Exc number) :=
  match op with
  | Add => Some py_add
  | Sub => Some py_sub
  | Mult => Some py_mul
  | Div => Some py_truediv
  | _ => None
  end.

Definition words_to_numbers (text : string) : string :=
  fold_left
    (fun text wn => Re.sub (seqs [WordB; Lit (fst wn); WordB])
                           (fun _ => str_of_int (snd wn)) text)
    NUM_WORDS text.

(** [(\d)\s*x\s*(\d)] *)
Definition digit_x_digit : regex :=
  seqs [Cls is_digit; Star (Cls is_space); Lit "x"; Star (Cls is_space); Cls is_digit].

(** The replacement [\1*\2]: both groups are single characters, the first
    and the last of the match. *)
Definition group1_star_group2 (m : string) : string :=
  match m, last_char m None with
  | String a _, Some b => String a (String "*" (String b EmptyString))
  | _, _ => EmptyString
  end.

Definition words_to_operators (text : string) : string :=
  let text := Re.sub digit_x_digit group1_star_group2 text in
  fold_left (fun text wo => replace (fst wo) (snd wo) text) OP_WORDS text.

(** [isinstance(node, ast.Num)]: a constant holding an [int], a [float]
    or a [complex] (a [bool] is not one); the result is [node.n]. *)
Definition as_Num (node : expr) : option number :=
  match node with
  | Constant (CInt n) => Some (PyInt n)
  | Constant (CFloat f) => Some (PyFloat f)
  | Constant (CComplex re im) => Some (PyComplex re im)
  | _ => None
  end.

Fixpoint _eval (node : expr) : Exc number :=
  match as_Num node with
  | Some n => Ok n
  | None =>
      match node with
      | BinOp lhs op rhs =>
          match ALLOWED_OPS op with
          | None => Raise (ValueError "Invalid operator")
          | Some f =>
              a <- _eval lhs ;;
              b <- _eval rhs ;;
              f a b
          end
      | _ => Raise (ValueError "Invalid expression")
      end
  end.

(** [(plus|minus|into|times|multiply|multiplied|divide|divided|\d|x)] *)
Definition math_cue : regex :=
  alts [Lit "plus"; Lit "minus"; Lit "into"; Lit "times"; Lit "multiply";
        Lit "multiplied"; Lit "divide"; Lit "divided"; Cls is_digit; Lit "x"].

Fixpoint char_in (c : ascii) (s : string) : bool :=
  match s with
  | EmptyString => false
  | String d s' => Ascii.eqb c d || char_in c s'
  end.

(** The class [[\d+\-*/. ]] *)
Definition math_char (c : ascii) : bool := is_digit c || char_in c "+-*/. ".

(** [[^\d+\-*/. ]] *)
Definition not_math_char : regex := Cls (fun c => negb (math_char c)).

(** The text [try_math] hands to [safe_eval], from the lowercased input. *)
Definition math_text (t : string) : string :=
  let t := words_to_numbers t in
  let t := words_to_operators t in
  strip (Re.sub not_math_char (fun _ => "") t).

(** ** Text normalizer *)

(** [[^\w\s]] *)
Definition not_word_or_space : regex := Cls (fun c => negb (is_word c || is_space c)).

Definition normalize_intent (text : string) : string :=
  let text := strip (lower text) in
  Re.sub not_word_or_space (fun _ => "") text.

Definition nl : string := String (ascii_of_nat 10) EmptyString.

(** The system prompt (its three non-ASCII characters are written as
    UTF-8 bytes). *)
Definition system_prompt : string :=
  "You are Aarya, a friendly humanoid receptionist created by Ecruxbot." ++ nl ++
  "Speak like a calm, helpful human using simple, natural English." ++ nl ++
  "Always reply in ONE short sentence, under 40 words." ++ nl ++
  "Be confident but polite." ++ nl ++
  "Do not explain steps or reasoning." ++ nl ++
  "If you are unsure or the information may be incorrect, say exactly:" ++ nl ++
  "'I don‚Äôt have information about that right now.'" ++ nl ++
  "Never guess or assume facts." ++ nl ++
  "Never mention being an AI, model, or chatbot." ++ nl ++
  "Do not roleplay as a hotel or service desk.".

(** What a request prints and what it yields, on a console that takes
    every line. *)
Record outcome : Type := { stdout : list string; result : Exc string }.

Definition dashes : string :=
  "----------------------------------------".

Definition truthy_reply (r : option string) : bool :=
  match r with
  | Some s => negb (String.eqb s "")
  | None => false
  end.

Definition the_reply (r : option string) : string :=
  match r with
  | Some s => s
  | None => EmptyString
  end.

Definition respond (user_text reply : string) : outcome :=
  {| stdout := ["USER : " ++ user_text; "AARYA: " ++ reply; dashes];
     result := Ok reply |}.

Definition crash (e : exn) : outcome := {| stdout := []; result := Raise e |}.

Section Server.

(** [ast.parse(text, mode="eval").body], or the exception it raises *)
Variable parse : string -> Exc expr.
(** [repr] of a float and of a complex number *)
Variable float_repr : float -> string.
Variable complex_repr : float -> float -> string.
(** [datetime.now().strftime(fmt)], the clock being frozen *)
Variable strftime_now : string -> string.
(** [ollama.chat(model=..., messages=[...])]; a message is a role and a
    content *)
Variable ollama_chat : string -> list (string * string) -> Exc json.

Definition safe_eval (expr : string) : Exc number :=
  tree <- parse expr ;;
  _eval tree.

(** [f"{result}"] after an integral float has been turned into an int *)
Definition format_result (result : number) : string :=
  match result with
  | PyInt n => str_of_int n
  | PyFloat f =>
      match float_integral f with
      | Some n => str_of_int n
      | None => float_repr f
      end
  | PyComplex re im => complex_repr re im
  end.

Definition try_math (text : string) : option string :=
  let t := lower text in
  if negb (Re.search math_cue t) then None
  else
    let t := math_text t in
    match safe_eval t with
    | Ok result => Some ("The answer is: " ++ format_result result ++ ".")
    | Raise _ => None
    end.

(** ** Fast local answers *)

Definition local_answer (text : string) : option string :=
  let t := normalize_intent text in
  (* Greetings *)
  if Re.fullmatch (Seq (words ["hi"; "hello"; "hey"; "namaste"])
                       (Opt (words [" aarya"; " ariya"]))) t
  then Some "Hello, I am Aarya, how can I assist you today."
  else if Re.fullmatch (Lit "hello arya") t
  then Some "Hello, I am Aarya, how can I assist you today."
  (* Time and date *)
  else if Re.search (seqs [WordB; words ["current time"; "time now"]; WordB]) t
  then Some (strftime_now "The current time is %I:%M %p.")
  else if Re.search (seqs [WordB; words ["date today"; "today date"]; WordB]) t
  then Some (strftime_now "Today's date is %d %B %Y.")
  else if Re.search (seqs [WordB; words ["today day"; "what day"]; WordB]) t
  then Some (strftime_now "Today is %A.")
  else if Re.search (seqs [WordB; Lit "current month"; WordB]) t
  then Some (strftime_now "The current month is %B.")
  else if Re.search (seqs [WordB; Lit "current year"; WordB]) t
  then Some (strftime_now "The current year is %Y.")
  (* Identity *)
  else if Re.search (seqs [WordB; Lit "who are you"; WordB]) t
  then Some "I am Aarya, a humanoid receptionist robot developed by Ecruxbot."
  else if Re.search (seqs [WordB; Lit "your name"; WordB]) t
  then Some "My name is Aarya."
  else if Re.search (seqs [WordB; Lit "how are you"; WordB]) t
  then Some "I am fine, thank you for asking."
  else if Re.search (seqs [WordB; Lit "features"; WordB]) t
  then Some "I can communicate through speech, answer visitor queries, and showcase company technologies."
  (* Company *)
  else if Re.search (seqs [WordB; Lit "ecruxbot"; WordB]) t
  then Some "Ecruxbot is an Indian robotics and artificial intelligence company."
  else if Re.search (seqs [WordB; words ["tell me about your company";
                                         "about your company"; "your company"]; WordB]) t
  then Some "Ecruxbot is an Indian robotics and artificial intelligence company."
  else if Re.search (seqs [WordB; Lit "team"; WordB]) t
  then Some "The Ecruxbot team includes Hitendra Valhe, Bhagyesh Tajne, and Virendra Valhe."
  else if Re.search (seqs [WordB; Lit "website"; WordB]) t
  then Some "Our official website is ecruxbot.in."
  else if Re.search (seqs [WordB; words ["contact"; "email"]; WordB]) t
  then Some "You can contact Ecruxbot at ecruxbot@gmail.com."
  else if Re.search (Alt (seqs [WordB; Lit "purpose"; WordB])
                         (seqs [WordB; Lit "why are you here"; WordB])) t
  then Some "I am designed to assist visitors and provide information."
  else if Re.search (seqs [WordB; Lit "language"; WordB]) t
  then Some "I currently speak English and will support Hindi and Marathi in the future."
  (* Thank you, only if standalone *)
  else if Re.fullmatch (words ["thanks"; "thank you"; "thank u"]) t
  then Some "You are welcome."
  else None.

(** ** Ollama *)

Definition ollama_reply (prompt : string) : Exc string :=
  response <- ollama_chat OLLAMA_MODEL
                [("system", system_prompt); ("user", prompt)] ;;
  message <- getitem response "message" ;;
  content <- getitem message "content" ;;
  strip_method content.

(** ** API *)

(** [body] is [request.get_json(silent=True)]: [None] when the request
    carries no JSON or JSON that does not parse. *)
Definition ask (body : option json) : outcome :=
  let data :=
    match body with
    | Some j => if truthy j then j else JObj []
    | None => JObj []
    end in
  match (text <- get data "text" (JStr "") ;; strip_method text) with
  | Raise e => crash e
  | Ok user_text =>
      if String.eqb user_text "" then respond user_text "Please say something."
      else
        (* Math first *)
        let math_reply := try_math user_text in
        if truthy_reply math_reply then respond user_text (the_reply math_reply)
        else
          (* Local answers *)
          let reply := local_answer user_text in
          if truthy_reply reply then respond user_text (the_reply reply)
          else
            (* Ollama *)
            match ollama_reply user_text with
            | Ok reply => respond user_text reply
            | Raise e => crash e
            end
  end.

End Server.

End AiServer.

(* ================================================================== *)
(** * ai_server_2.py, where it differs from ai_server.py *)
(* ================================================================== *)

Module AiServer2.
Import Text Re Py Ast Json.

Definition OLLAMA_MODEL : string := "llama3.2:1b".

Definition nl : string := AiServer.nl.

Definition system_prompt : string :=
  "You are Aarya, a professional humanoid receptionist robot." ++ nl ++
  "Answer confidently in ONE sentence." ++ nl ++
  "Use easy and simple English." ++ nl ++
  "Do not explain reasoning." ++ nl ++
  "Never say you are an AI model." ++ nl ++
  "If you are not sure about an answer, say: " ++
  "'I do not have knowledge about that right now.'".

(** [r+] *)
Definition Plus (r : regex) : regex := Seq r (Star r).

Section Server.

Variable parse : string -> Exc expr.
Variable float_repr : float -> string.
Variable complex_repr : float -> float -> string.
Variable strftime_now : string -> string.
Variable ollama_chat : string -> list (string * string) -> Exc json.

Definition try_math (text : string) : option string :=
  let t := lower text in
  if negb (Re.search AiServer.math_cue t) then None
  else
    let t := AiServer.math_text t in
    match AiServer.safe_eval parse t with
    | Ok result =>
        Some ("The answer is " ++
              AiServer.format_result float_repr complex_repr result ++ ".")
    | Raise _ => None
    end.

Definition local_answer (text : string) : option string :=
  let t := AiServer.normalize_intent text in
  (* Greetings *)
  if Re.fullmatch (Seq (words ["hi"; "hello"; "hey"; "namaste"])
                       (Opt (words [" aarya"; " ariya"]))) t
  then Some "Hello! I am Aarya. How can I help you today?"
  (* Time and date *)
  else if Re.search (seqs [WordB; words ["current time"; "time now"]; WordB]) t
  then Some (strftime_now "The current time is %I:%M %p.")
  else if Re.search (seqs [WordB; words ["date today"; "today date";
                                         "what is the date"]; WordB]) t
  then Some (strftime_now "Today's date is %d %B %Y.")
  else if Re.search (seqs [WordB; words ["today day"; "what day is it"]; WordB]) t
  then Some (strftime_now "Today is %A.")
  (* Hello Arya *)
  else if Re.search (seqs [WordB; Lit "hello"; Plus (Cls is_space);
                           words ["aarya"; "arya"; "aria"]; WordB]) t
  then Some "Hello! I am Aarya. How can I help you today?"
  (* Identity *)
  else if Re.search (seqs [WordB; Lit "who are you"; WordB]) t
  then Some "I am Aarya, your friendly humanoid receptionist robot."
  else if Re.search (seqs [WordB; Lit "your name"; WordB]) t
  then Some "My name is Aarya."
  (* Company *)
  else if Re.search (seqs [WordB; words ["ecruxbot"; "your company";
                                         "about your company";
                                         "tell me about your company"]; WordB]) t
  then Some "Ecruxbot is an Indian company creating robots and AI solutions for everyone"
  (* Team *)
  else if Re.search (seqs [WordB; words ["your team"; "tell me about your team";
                                         "who is in your team"]; WordB]) t
  then Some "Our team consists of Hitendra Valhe, Virendra Valhe, and Bhagyesh Tajne."
  else if Re.search (seqs [WordB; Lit "website"; WordB]) t
  then Some "You can visit our website at ecruxbot.in."
  else if Re.search (Alt (Seq WordB (Lit "location")) (Seq (Lit "address") WordB)) t
  then Some "Our office is at 2nd Floor, Near M. J. College, Jalgaon, Maharashtra, India."
  (* Help and services *)
  else if Re.search (alts [Seq WordB (Lit "what can you do"); Lit "services";
                           Seq (Lit "help") WordB]) t
  then Some "I can answer questions, tell time, provide company info, and chat with you."
  (* Thank you *)
  else if Re.fullmatch (words ["thanks"; "thank you"; "thank u"]) t
  then Some "You are welcome! "
  (* Farewell *)
  else if Re.fullmatch (words ["bye"; "goodbye"; "see you"]) t
  then Some "Goodbye! Have a great day."
  else None.

Definition ollama_reply (prompt : string) : Exc string :=
  response <- ollama_chat OLLAMA_MODEL
                [("system", system_prompt); ("user", prompt)] ;;
  message <- getitem response "message" ;;
  content <- getitem message "content" ;;
  strip_method content.

Definition respond (user_text reply : string) : AiServer.outcome :=
  AiServer.respond user_text reply.

Definition ask (body : option json) : AiServer.outcome :=
  let data :=
    match body with
    | Some j => if truthy j then j else JObj []
    | None => JObj []
    end in
  match (text <- get data "text" (JStr "") ;; strip_method text) with
  | Raise e => AiServer.crash e
  | Ok user_text =>
      if String.eqb user_text "" then respond user_text "Please say something."
      else
        let math_reply := try_math user_text in
        if AiServer.truthy_reply math_reply
        then respond user_text (AiServer.the_reply math_reply)
        else
          let reply := local_answer user_text in
          if AiServer.truthy_reply reply
          then respond user_text (AiServer.the_reply reply)
          else
            match ollama_reply user_text with
            | Ok reply => respond user_text reply
            | Raise e =>
                {| AiServer.stdout := ["USER : " ++ user_text];
                   AiServer.result := Raise e |}
            end
  end.

End Server.

End AiServer2.

(* ================================================================== *)
(** * The servers on an interpreter with limits *)
(* ================================================================== *)

(** [AiServer] and [AiServer2] describe the two servers on an interpreter
    that never runs out of stack, converts integers of any length to and
    from text, and writes to a console that takes every text.  CPython
    puts limits on all three; this module describes the same functions
    with them.
    - [int] and [str] refuse a decimal conversion of more than
      [sys.get_int_max_str_digits()] digits (4300 unless configured;
      absent before 3.11 and its security backports): [ast.parse] raises
      [SyntaxError] on such an integer literal, and formatting such an
      [int] raises [ValueError].
    - [ast.parse] raises [RecursionError] when the tree it has built is
      nested too deeply to be handed back, and so does [_eval] when its
      own recursion exhausts the stack.  How deep that is depends on the
      version and on the stack already in use.
    - [print] encodes each piece it writes for [sys.stdout] and raises
      [UnicodeEncodeError] on a piece the encoding cannot express; the
      pieces written before stay written.
    The limits the tokenizer and the parser put on nested parentheses
    are not described: [try_math] deletes parentheses. *)

Module Bounded.
Import Text Re Py Ast Json Parser.

Record interpreter : Type :=
  { (** [sys.get_int_max_str_digits()]; 0 when there is no limit *)
    int_max_str_digits : nat;
    (** the height of the highest tree [ast.parse] hands back *)
    ast_depth : nat;
    (** the nested calls of [_eval] the stack has room for *)
    call_depth : nat;
    (** the characters above U+007F that [sys.stdout] can encode *)
    stdout_encodes : ascii -> bool }.

(** Conversions of up to 640 digits are never refused. *)
Definition str_digits_check_threshold : nat := 640.

(** A conversion of [digits] digits is refused under the limit. *)
Definition exceeds (limit digits : nat) : bool :=
  Nat.ltb str_digits_check_threshold digits && Nat.ltb 0 limit && Nat.ltb limit digits.

(** The nodes on the longest path from the root of a tree. *)
Fixpoint height (node : expr) : nat :=
  match node with
  | BinOp l _ r => S (Nat.max (height l) (height r))
  | UnaryOp _ e => S (height e)
  | Attribute e _ => S (height e)
  | Call f args kws =>
      S (Nat.max (height f)
           (Nat.max (list_max (map height args))
                    (list_max (map (fun kw : option string * expr =>
                                      let '(_, e) := kw in height e) kws))))
  | Starred e => S (height e)
  | Tuple es => S (list_max (map height es))
  | _ => 1
  end.

(** The number of decimal digits of an [int]. *)
Definition digits_of (n : Z) : nat := String.length (str_of_int (Z.abs n)).

(** The three lines a reply is printed as. *)
Definition transcript (user_text reply : string) : string :=
  "USER : " ++ user_text ++ AiServer.nl ++
  "AARYA: " ++ reply ++ AiServer.nl ++
  AiServer.dashes ++ AiServer.nl.

(** What has reached [sys.stdout], and what the call returns or raises. *)
Record run : Type := { written : string; returned : Exc string }.

(** A computation that writes to the console: from the text written so
    far to the text written after it, with a value or an exception. *)
Definition console (A : Type) : Type := string -> string * Exc A.

Definition ret {A : Type} (a : A) : console A := fun out => (out, Ok a).

Definition lift {A : Type} (m : Exc A) : console A := fun out => (out, m).

Definition and_then {A B : Type} (m : console A) (k : A -> console B) : console B :=
  fun out =>
    match m out with
    | (out', Ok a) => k a out'
    | (out', Raise e) => (out', Raise e)
    end.

Definition perform (m : console string) : run :=
  let '(out, r) := m EmptyString in {| written := out; returned := r |}.

Section Interpreter.

Variable I : interpreter.

(** ** The tokenizer and the parser *)

(** The integer literal being read is longer than [int] converts. *)
Definition long_int (st : lex_state) : bool :=
  match st with
  | InInt ds => exceeds (int_max_str_digits I) (String.length ds)
  | _ => false
  end.

(** The character ends the integer literal being read: it is neither a
    further digit nor the point of a float. *)
Definition closes_int (st : lex_state) (c : ascii) : bool :=
  match st with
  | InInt _ => negb (is_digit c || Ascii.eqb c ".")
  | _ => false
  end.

Definition flush (st : lex_state) : Exc (list token) :=
  if long_int st then Raise SyntaxError else Parser.flush st.

Definition step (st : lex_state) (c : ascii) : Exc (list token * lex_state) :=
  if long_int st && closes_int st c then Raise SyntaxError else Parser.step st c.

Fixpoint lex (st : lex_state) (s : string) : Exc (list token) :=
  match s with
  | EmptyString => flush st
  | String c s' =>
      r <- step st c ;;
      ts <- lex (snd r) s' ;;
      Ok (fst r ++ ts)%list
  end.

Definition tokenize (s : string) : Exc (list token) :=
  match s with
  | String " " _ => Raise SyntaxError
  | _ => lex Idle s
  end.

(** [ast.parse(text, mode="eval").body] *)
Definition ast_parse (text : string) : Exc expr :=
  ts <- tokenize text ;;
  tree <- parse_tokens ts ;;
  if Nat.leb (height tree) (ast_depth I) then Ok tree else Raise RecursionError.

(** ** Safe math engine *)

(** [_eval] with room for [depth] nested calls. *)
Fixpoint _eval (depth : nat) (node : expr) : Exc number :=
  match depth with
  | O => Raise RecursionError
  | S depth' =>
      match AiServer.as_Num node with
      | Some n => Ok n
      | None =>
          match node with
          | BinOp lhs op rhs =>
              match AiServer.ALLOWED_OPS op with
              | None => Raise (ValueError "Invalid operator")
              | Some f =>
                  a <- _eval depth' lhs ;;
                  b <- _eval depth' rhs ;;
                  f a b
              end
          | _ => Raise (ValueError "Invalid expression")
          end
      end
  end.

(** [str(n)] of an [int] *)
Definition str_int (n : Z) : Exc string :=
  if exceeds (int_max_str_digits I) (digits_of n)
  then Raise (ValueError "Exceeds the limit for integer string conversion")
  else Ok (str_of_int n).

(** ** The console *)

Definition encodable (c : ascii) : bool := (code c <? 128)%N || stdout_encodes I c.

(** [sys.stdout] can encode the text. *)
Definition printable (s : string) : bool := forall_chars encodable s.

(** [sys.stdout.write(piece)]: the piece is encoded as a whole, or
    refused. *)
Definition write (piece : string) : console unit :=
  fun out =>
    if printable piece then (out ++ piece, Ok tt)
    else (out, Raise UnicodeEncodeError).

(** [print(a)] writes [a] and the line end; [print(a, b)] writes [a], a
    blank, [b] and the line end, one piece after the other. *)
Definition print1 (a : string) : console unit :=
  and_then (write a) (fun _ => write AiServer.nl).

Definition print2 (a b : string) : console unit :=
  and_then (write a) (fun _ =>
  and_then (write " ") (fun _ =>
  and_then (write b) (fun _ => write AiServer.nl))).

Section Server.

Variable parse : string -> Exc expr.
Variable float_repr : float -> string.
Variable complex_repr : float -> float -> string.
Variable strftime_now : string -> string.
Variable ollama_chat : string -> list (string * string) -> Exc json.

Definition safe_eval (expr : string) : Exc number :=
  tree <- parse expr ;;
  _eval (call_depth I) tree.

(** [f"{result}"] after an integral float has been turned into an int *)
Definition format_result (result : number) : Exc string :=
  match result with
  | PyInt n => str_int n
  | PyFloat f =>
      match float_integral f with
      | Some n => str_int n
      | None => Ok (float_repr f)
      end
  | PyComplex re im => Ok (complex_repr re im)
  end.

(** [try_math] with the reply of the given server: [prefix] is what
    stands before the number. *)
Definition try_math_as (prefix : string) (text : string) : option string :=
  let t := lower text in
  if negb (Re.search AiServer.math_cue t) then None
  else
    let t := AiServer.math_text t in
    match (result <- safe_eval t ;; format_result result) with
    | Ok shown => Some (prefix ++ shown ++ ".")
    | Raise _ => None
    end.

Definition try_math : string -> option string := try_math_as "The answer is: ".

(** The request's text, as both servers read it. *)
Definition user_text_of (body : option json) : Exc string :=
  let data :=
    match body with
    | Some j => if truthy j then j else JObj []
    | None => JObj []
    end in
  text <- get data "text" (JStr "") ;;
  strip_method text.

(** The three [print] calls of [ai_server.py] and the reply. *)
Definition respond (user_text reply : string) : console string :=
  and_then (print2 "USER :" user_text) (fun _ =>
  and_then (print2 "AARYA:" reply) (fun _ =>
  and_then (print1 AiServer.dashes) (fun _ => ret reply))).

Definition ask (body : option json) : run :=
  perform
    (and_then (lift (user_text_of body)) (fun user_text =>
     if String.eqb user_text "" then respond user_text "Please say something."
     else
       (* Math first *)
       let math_reply := try_math user_text in
       if AiServer.truthy_reply math_reply
       then respond user_text (AiServer.the_reply math_reply)
       else
         (* Local answers *)
         let reply := AiServer.local_answer strftime_now user_text in
         if AiServer.truthy_reply reply
         then respond user_text (AiServer.the_reply reply)
         else
           (* Ollama *)
           and_then (lift (AiServer.ollama_reply ollama_chat user_text))
                    (fun reply => respond user_text reply))).

End Server.

End Interpreter.

End Bounded.

(** [ai_server_2.py] on the same interpreter: the user line is printed
    before anything is computed. *)
Module Bounded2.
Import Text Re Py Ast Json Parser Bounded.

Section Server.

Variable I : interpreter.
Variable parse : string -> Exc expr.
Variable float_repr : float -> string.
Variable complex_repr : float -> float -> string.
Variable strftime_now : string -> string.
Variable ollama_chat : string -> list (string * string) -> Exc json.

Definition try_math : string -> option string :=
  try_math_as I parse float_repr complex_repr "The answer is ".

(** The two [print] calls after the user line, and the reply. *)
Definition respond (reply : string) : console string :=
  and_then (print2 I "AARYA:" reply) (fun _ =>
  and_then (print1 I AiServer.dashes) (fun _ => ret reply)).

Definition ask (body : option json) : run :=
  perform
    (and_then (lift (user_text_of body)) (fun user_text =>
     and_then (print2 I "USER :" user_text) (fun _ =>
     if String.eqb user_text "" then respond "Please say something."
     else
       let math_reply := try_math user_text in
       if AiServer.truthy_reply math_reply
       then respond (AiServer.the_reply math_reply)
       else
         let reply := AiServer2.local_answer strftime_now user_text in
         if AiServer.truthy_reply reply
         then respond (AiServer.the_reply reply)
         else
           and_then (lift (AiServer2.ollama_reply ollama_chat user_text))
                    (fun reply => respond reply)))).

End Server.

End Bounded2.

(* ================================================================== *)
(** * Notions the specification speaks of *)
(* ================================================================== *)

Module Spec.
Import Text Re Py Ast Json Parser AiServer.

(** A tree built from numeric literals and the four whitelisted
    operators only. *)
Fixpoint whitelisted (node : expr) : bool :=
  match node with
  | Constant (CInt _) | Constant (CFloat _) | Constant (CComplex _ _) => true
  | BinOp l op r =>
      match ALLOWED_OPS op with
      | Some _ => whitelisted l && whitelisted r
      | None => false
      end
  | _ => false
  end.

(** [arith_result node v]: [v] is obtained from the numeric literals of
    [node] by the four whitelisted operators, and by nothing else. *)
Inductive arith_result : expr -> number -> Prop :=
| AR_literal node n :
    as_Num node = Some n -> arith_result node n
| AR_operator l op r f a b v :
    ALLOWED_OPS op = Some f ->
    arith_result l a -> arith_result r b -> f a b = Ok v ->
    arith_result (BinOp l op r) v.

(** A unary operator, an exponent or a variable occurs among the
    operands of the tree. *)
Fixpoint has_unsupported (node : expr) : bool :=
  match node with
  | UnaryOp _ _ => true
  | Name _ => true
  | BinOp l Pow r => true
  | BinOp l _ r => has_unsupported l || has_unsupported r
  | _ => false
  end.



(** The text of the request, as [ask] extracts it. *)
Definition request_text (body : option json) : Exc string :=
  let data :=
    match body with
    | Some j => if truthy j then j else JObj []
    | None => JObj []
    end in
  text <- get data "text" (JStr "") ;;
  strip_method text.

Section Orchestrator.

Variable strftime_now : string -> string.
Variable ollama_chat : string -> list (string * string) -> Exc json.

(** Steps 3 and 4 of the orchestrator: intent resolution, then the
    generative backend. *)
Definition intent_then_backend (user_text : string) : outcome :=
  let reply := local_answer strftime_now user_text in
  if truthy_reply reply then respond user_text (the_reply reply)
  else
    match ollama_reply ollama_chat user_text with
    | Ok reply => respond user_text reply
    | Raise e => crash e
    end.

End Orchestrator.

(** The math-path normalization of a raw text: lowercasing, number
    words, operator words and infix x, deletion of the other characters,
    trimming. *)
Definition normalize_math (x : string) : string := math_text (lower x).

(** A backend that is unreachable. *)
Definition backend_down (model : string) (messages : list (string * string)) : Exc json :=
  Raise (LibraryError "connection refused").

(** A backend that answers with the given content. *)
Definition backend_says (content : string)
    (model : string) (messages : list (string * string)) : Exc json :=
  Ok (JObj [("message", JObj [("role", JStr "assistant"); ("content", JStr content)])]).

Definition no_float_repr (f : float) : string := "<float>".
Definition no_complex_repr (re im : float) : string := "<complex>".
Definition frozen_clock (fmt : string) : string := fmt.


(** ** Text without the characters of a class *)

(** No character of [s] is in the class [p]. *)
Definition free_of (p : ascii -> bool) (s : string) : bool :=
  forall_chars (fun c => negb (p c)) s.

(** Every match of [r] contains a character of the class [p]. *)
Fixpoint requires (p : ascii -> bool) (r : regex) : bool :=
  match r with
  | Lit w => negb (free_of p w)
  | Seq r1 r2 => requires p r1 || requires p r2
  | Alt r1 r2 => requires p r1 && requires p r2
  | _ => false
  end.

(** The characters the filter of [try_math] deletes. *)
Definition other_char (c : ascii) : bool := negb (math_char c).

(** ** Arithmetic expressions as the specification describes them *)

(** A numeric literal as it is written: a run of digits, or digits with
    a decimal point. *)
Inductive literal : Type :=
| IntLit (ds : string)
| FloatLit (ip fp : string).

Inductive mulop : Type := Times | Divide.
Inductive addop : Type := Plus | Minus.

(** A term: a literal followed by [* literal] and [/ literal] items; each
    item records the blanks before and after its operator. *)
Definition mul_item : Type := (nat * mulop * nat * literal)%type.
Definition term : Type := (literal * list mul_item)%type.

(** A sum: a term followed by [+ term] and [- term] items. *)
Definition add_item : Type := (nat * addop * nat * term)%type.
Record expression : Type :=
  { first_term : term; more_terms : list add_item; trailing : nat }.

Definition nonempty (s : string) : bool :=
  match s with EmptyString => false | _ => true end.

(** The literal forms Python reads as a decimal [int] or a point
    [float]: an integer has no superfluous leading zero. *)
Definition literal_ok (l : literal) : bool :=
  match l with
  | IntLit ds =>
      nonempty ds && forall_chars is_digit ds &&
      match ds with
      | String c (String _ _ as ds') =>
          negb (is_zero_digit c) || forall_chars is_zero_digit ds'
      | _ => true
      end
  | FloatLit ip fp =>
      forall_chars is_digit ip && forall_chars is_digit fp &&
      (nonempty ip || nonempty fp)
  end.

Definition term_ok (t : term) : bool :=
  literal_ok (fst t) && forallb (fun it : mul_item => literal_ok (snd it)) (snd t).

Definition well_formed (e : expression) : bool :=
  term_ok (first_term e) &&
  forallb (fun it : add_item => term_ok (snd it)) (more_terms e).

Definition literal_text (l : literal) : string :=
  match l with
  | IntLit ds => ds
  | FloatLit ip fp => ip ++ String "." fp
  end.

Fixpoint spaces (n : nat) : string :=
  match n with
  | O => EmptyString
  | S n' => String " " (spaces n')
  end.

Definition mulop_text (op : mulop) : string :=
  match op with Times => "*" | Divide => "/" end.

Definition addop_text (op : addop) : string :=
  match op with Plus => "+" | Minus => "-" end.

(** The text of an expression, written in front of [rest]. *)
Fixpoint render_mul_items (items : list mul_item) (rest : string) : string :=
  match items with
  | [] => rest
  | (a, op, b, l) :: items' =>
      spaces a ++ mulop_text op ++ spaces b ++ literal_text l ++
      render_mul_items items' rest
  end.

Definition render_term (t : term) (rest : string) : string :=
  literal_text (fst t) ++ render_mul_items (snd t) rest.

Fixpoint render_add_items (items : list add_item) (rest : string) : string :=
  match items with
  | [] => rest
  | (a, op, b, t) :: items' =>
      spaces a ++ addop_text op ++ spaces b ++
      render_term t (render_add_items items' rest)
  end.

Definition render (e : expression) : string :=
  render_term (first_term e) (render_add_items (more_terms e) (spaces (trailing e))).

(** The value a literal denotes. *)
Definition literal_value (l : literal) : constant :=
  match l with
  | IntLit ds => CInt (digits_value 0 ds)
  | FloatLit ip fp =>
      CFloat (float_of_quotient (digits_value 0 (ip ++ fp))
                                (10 ^ Z.of_nat (String.length fp)))
  end.

Definition mulop_node (op : mulop) : operator :=
  match op with Times => Mult | Divide => Div end.

Definition addop_node (op : addop) : operator :=
  match op with Plus => Add | Minus => Sub end.

(** The tree of standard precedence: the items of a term group to the
    left, and so do the terms of a sum. *)
Definition term_tree_from (acc : expr) (items : list mul_item) : expr :=
  fold_left (fun acc (it : mul_item) =>
               BinOp acc (mulop_node (snd (fst (fst it)))) (Constant (literal_value (snd it))))
            items acc.

Definition term_tree (t : term) : expr :=
  term_tree_from (Constant (literal_value (fst t))) (snd t).

Definition sum_tree_from (acc : expr) (items : list add_item) : expr :=
  fold_left (fun acc (it : add_item) =>
               BinOp acc (addop_node (snd (fst (fst it)))) (term_tree (snd it)))
            items acc.

Definition expression_tree (e : expression) : expr :=
  sum_tree_from (term_tree (first_term e)) (more_terms e).

(** The token stream of an expression, in front of [rest]. *)
Definition mulop_token (op : mulop) : token :=
  match op with Times => TStar | Divide => TSlash end.

Definition addop_token (op : addop) : token :=
  match op with Plus => TPlus | Minus => TMinus end.

Fixpoint mul_item_tokens (items : list mul_item) (rest : list token) : list token :=
  match items with
  | [] => rest
  | (_, op, _, l) :: items' =>
      mulop_token op :: TNum (literal_value l) :: mul_item_tokens items' rest
  end.

Definition term_tokens (t : term) (rest : list token) : list token :=
  TNum (literal_value (fst t)) :: mul_item_tokens (snd t) rest.

Fixpoint add_item_tokens (items : list add_item) (rest : list token) : list token :=
  match items with
  | [] => rest
  | (_, op, _, t) :: items' =>
      addop_token op :: term_tokens t (add_item_tokens items' rest)
  end.

Definition expression_tokens (e : expression) : list token :=
  term_tokens (first_term e) (add_item_tokens (more_terms e) []).

(** The integer an expression over integer literals, [+], [-] and [*]
    denotes. *)
Definition int_literal_value (l : literal) : Z :=
  match l with
  | IntLit ds => digits_value 0 ds
  | FloatLit _ _ => 0
  end.

Definition int_term (t : term) : Z :=
  fold_left (fun acc (it : mul_item) => (acc * int_literal_value (snd it))%Z)
            (snd t) (int_literal_value (fst t)).

Definition int_value (e : expression) : Z :=
  fold_left (fun acc (it : add_item) =>
               match snd (fst (fst it)) with
               | Plus => (acc + int_term (snd it))%Z
               | Minus => (acc - int_term (snd it))%Z
               end)
            (more_terms e) (int_term (first_term e)).

Definition is_int_literal (l : literal) : bool :=
  match l with IntLit _ => true | FloatLit _ _ => false end.

Definition int_only_term (t : term) : bool :=
  is_int_literal (fst t) &&
  forallb (fun it : mul_item =>
             is_int_literal (snd it) &&
             match snd (fst (fst it)) with Times => true | Divide => false end)
          (snd t).

Definition int_only (e : expression) : bool :=
  int_only_term (first_term e) &&
  forallb (fun it : add_item => int_only_term (snd it)) (more_terms e).

(** The characters that may follow a literal: the end, a blank or one of
    the four operators. *)
Definition boundary (rest : string) : bool :=
  match rest with
  | EmptyString => true
  | String c _ => char_in c " +-*/"
  end.

(** The characters an operand may start with. *)
Definition operand_start (s : string) : bool :=
  match s with
  | EmptyString => false
  | String c _ => is_digit c || Ascii.eqb c " " || Ascii.eqb c "."
  end.

(** The tokens that may follow an operand of a term. *)
Definition operator_next (ts : list token) : bool :=
  match ts with
  | [] => true
  | TPlus :: _ | TMinus :: _ | TStar :: _ | TSlash :: _ => true
  | _ => false
  end.

(** The tokens that may follow a term of a sum. *)
Definition sum_next (ts : list token) : bool :=
  match ts with
  | [] => true
  | TPlus :: _ | TMinus :: _ => true
  | _ => false
  end.

(** What is left after a successful parse is no longer than the input. *)
Definition shrinks (r : option parsed) (ts : list token) : Prop :=
  forall e ts', r = Some (Ok (e, ts')) -> List.length ts' <= List.length ts.

(** ** Inputs the theorems are tried on *)


(** A request without a text: no JSON body (or one that does not parse),
    a JSON value that is falsy, or an object without the key. *)
Definition no_text (body : option json) : Prop :=
  body = None \/
  (exists j, body = Some j /\ truthy j = false) \/
  (exists fields, body = Some (JObj fields) /\ lookup "text" fields = None).

Definition text_body (text : string) : option json :=
  Some (JObj [("text", JStr text)]).

(** ** Further notions *)

(** The class [[\w\s]] that [normalize_intent] keeps. *)
Definition word_or_space (c : ascii) : bool := is_word c || is_space c.

(** A character that [str.lower] leaves alone. *)
Definition is_lowered (c : ascii) : bool := Ascii.eqb (lower_char c) c.

(** A request whose text cannot be read: a truthy JSON value that is not
    an object, or an object whose [text] is not a string. *)
Definition is_object (j : json) : bool :=
  match j with JObj _ => true | _ => false end.

Definition is_string (j : json) : bool :=
  match j with JStr _ => true | _ => false end.

Definition ill_typed (body : option json) : Prop :=
  (exists j, body = Some j /\ truthy j = true /\ is_object j = false) \/
  (exists fields v, body = Some (JObj fields) /\ lookup "text" fields = Some v /\
                    is_string v = false).

(** A backend that answers with the given response. *)
Definition backend_returns (response : json)
    (model : string) (messages : list (string * string)) : Exc json :=
  Ok response.

Definition at_end (prev : option ascii) (rest : string) : option unit :=
  match rest with EmptyString => Some tt | _ => None end.

Definition thanks_phrases : list string := ["thanks"; "thank you"; "thank u"].

Definition time_formats : list string :=
  ["The current time is %I:%M %p."; "Today's date is %d %B %Y."; "Today is %A.";
   "The current month is %B."; "The current year is %Y."].

(** Some character of [s] is a digit. *)
Definition has_digit (s : string) : bool := negb (free_of is_digit s).

(** A text that [str.strip] leaves alone and that is not empty. *)
Definition solid (s : string) : Prop := s <> EmptyString /\ strip s = s.

(** A text whose end is not blank. *)
Definition ends_solid (s : string) : Prop := s <> EmptyString /\ rstrip s = s.

Definition is_paren (t : token) : bool :=
  match t with TLPar | TRPar => true | _ => false end.

Definition paren_free (ts : list token) : bool :=
  forallb (fun t => negb (is_paren t)) ts.

(** The constants [ast.Num] covers. *)
Definition numeric (c : constant) : bool :=
  match c with CInt _ | CFloat _ | CComplex _ _ => true | _ => false end.

(** The tokens of the four whitelisted operators. *)
Definition binary_token (t : token) : bool :=
  match t with TPlus | TMinus | TStar | TSlash => true | _ => false end.

(** Operator and number, repeated. *)
Fixpoint operator_number_pairs (ts : list token) : bool :=
  match ts with
  | [] => true
  | op :: TNum c :: ts' => binary_token op && numeric c && operator_number_pairs ts'
  | _ => false
  end.

(** A number followed by operator and number pairs: no sign, no
    exponent, no floor division, no lone point. *)
Definition flat_tokens (ts : list token) : bool :=
  match ts with
  | TNum c :: ts' => numeric c && operator_number_pairs ts'
  | _ => false
  end.

(** The parser hands back a suffix of a paren-free stream as paren-free. *)
Definition keeps_paren_free (r : option parsed) (ts : list token) : Prop :=
  forall e ts', r = Some (Ok (e, ts')) -> paren_free ts = true -> paren_free ts' = true.

(** The character before a position reached over [n] blanks. *)
Definition after_blanks (n : nat) (prev : option ascii) : option ascii :=
  match n with O => prev | S _ => Some " "%char end.

(** The text does not start with whitespace. *)
Definition starts_solid (s : string) : bool :=
  match s with String c _ => negb (is_space c) | EmptyString => true end.

Definition is_x (c : ascii) : bool := Ascii.eqb c "x".

(** Neither a math character nor the letter x. *)
Definition word_char (c : ascii) : bool := negb (math_char c || is_x c).

(** The text [a x b], with blanks around the x. *)
Definition infix_x (a : string) (i j : nat) (b : string) : string :=
  a ++ spaces i ++ String "x" (spaces j ++ b).

Definition product (a b : string) : expression :=
  {| first_term := (IntLit a, [(0, Times, 0, IntLit b)]); more_terms := []; trailing := 0 |}.

(** Two words with an operator phrase between them. *)
Definition spoken (w1 phrase w2 : string) : string :=
  w1 ++ " " ++ phrase ++ " " ++ w2.

Definition answer (n : Z) : string := "The answer is: " ++ str_of_int n ++ ".".

(** The utterances the greeting rules of [ai_server.py] take. *)
Definition greeting_phrases : list string :=
  ["hi"; "hi aarya"; "hi ariya"; "hello"; "hello aarya"; "hello ariya";
   "hey"; "hey aarya"; "hey ariya"; "namaste"; "namaste aarya"; "namaste ariya";
   "hello arya"].

Definition greeting : string := "Hello, I am Aarya, how can I assist you today.".

(** The second server: its [strftime] formats, its standalone phrases and
    their replies. *)
Definition time_formats_2 : list string :=
  ["The current time is %I:%M %p."; "Today's date is %d %B %Y."; "Today is %A."].

Definition farewell_phrases : list string := ["bye"; "goodbye"; "see you"].

Definition welcome_2 : string := "You are welcome! ".
Definition goodbye_2 : string := "Goodbye! Have a great day.".

(** The three lines printed with a reply. *)
Definition reply_log (user_text reply : string) : list string :=
  ["USER : " ++ user_text; "AARYA: " ++ reply; dashes].

(** The answer to a division of two integers: none by zero, the integer
    quotient when exact, otherwise the [repr] of the float quotient. *)
Definition quotient_answer (float_repr : float -> string) (a b : Z) : option string :=
  if (b =? 0)%Z then None
  else if (a mod b =? 0)%Z then Some (answer (a / b))
  else Some ("The answer is: " ++ float_repr (float_of_quotient a b) ++ ".").

(** [12 + 3*4 - 5] *)
Definition sample_sum : expression :=
  {| first_term := (IntLit "12", []);
     more_terms := [(1, Plus, 1, (IntLit "3", [(0, Times, 0, IntLit "4")]));
                    (1, Minus, 1, (IntLit "5", []))];
     trailing := 0 |}.

(** ** The reference evaluator *)

(** What the evaluator of the specification computes, with Python's
    numbers in place of the mathematical ones: an exact integer as long
    as integers are added, subtracted and multiplied; a binary64 float,
    rounded once in every operation, as soon as a float literal or a
    division is involved. *)
Inductive quantity : Type :=
| Exact (n : Z)
| Rounded (f : float).

(** An exact integer enters a float operation rounded to the nearest
    float; beyond the floats it raises [OverflowError]. *)
Definition rounded (q : quantity) : Exc float :=
  match q with
  | Exact n => float_of_int n
  | Rounded f => Ok f
  end.

Definition in_floats (op : float -> float -> Exc float) (a b : quantity) : Exc quantity :=
  x <- rounded a ;;
  y <- rounded b ;;
  f <- op x y ;;
  Ok (Rounded f).

Definition ref_add (a b : quantity) : Exc quantity :=
  match a, b with
  | Exact x, Exact y => Ok (Exact (x + y))
  | _, _ => in_floats (fun x y => Ok (fadd x y)) a b
  end.

Definition ref_sub (a b : quantity) : Exc quantity :=
  match a, b with
  | Exact x, Exact y => Ok (Exact (x - y))
  | _, _ => in_floats (fun x y => Ok (fsub x y)) a b
  end.

Definition ref_mul (a b : quantity) : Exc quantity :=
  match a, b with
  | Exact x, Exact y => Ok (Exact (x * y))
  | _, _ => in_floats (fun x y => Ok (fmul x y)) a b
  end.

(** The quotient is a float even of two integers: their exact quotient
    rounded once.  A zero divisor raises [ZeroDivisionError]. *)
Definition ref_div (a b : quantity) : Exc quantity :=
  match a, b with
  | Exact x, Exact y =>
      if (y =? 0)%Z then Raise ZeroDivisionError
      else f <- finite_or_overflow (float_of_quotient x y) ;; Ok (Rounded f)
  | _, _ =>
      in_floats (fun x y => if float_is_zero y then Raise ZeroDivisionError
                            else Ok (fdiv x y)) a b
  end.

Definition literal_quantity (l : literal) : quantity :=
  match l with
  | IntLit ds => Exact (digits_value 0 ds)
  | FloatLit ip fp =>
      Rounded (float_of_quotient (digits_value 0 (ip ++ fp))
                                 (10 ^ Z.of_nat (String.length fp)))
  end.

Definition ref_mulop (op : mulop) : quantity -> quantity -> Exc quantity :=
  match op with Times => ref_mul | Divide => ref_div end.

Definition ref_addop (op : addop) : quantity -> quantity -> Exc quantity :=
  match op with Plus => ref_add | Minus => ref_sub end.

(** Multiplications and divisions first, from left to right. *)
Definition term_value_from (acc : Exc quantity) (items : list mul_item) : Exc quantity :=
  fold_left (fun acc (it : mul_item) =>
               a <- acc ;;
               ref_mulop (snd (fst (fst it))) a (literal_quantity (snd it)))
            items acc.

Definition term_value (t : term) : Exc quantity :=
  term_value_from (Ok (literal_quantity (fst t))) (snd t).

(** Then additions and subtractions, from left to right. *)
Definition value_from (acc : Exc quantity) (items : list add_item) : Exc quantity :=
  fold_left (fun acc (it : add_item) =>
               a <- acc ;;
               b <- term_value (snd it) ;;
               ref_addop (snd (fst (fst it))) a b)
            items acc.

Definition value_of (e : expression) : Exc quantity :=
  value_from (term_value (first_term e)) (more_terms e).

(** The Python number of a quantity. *)
Definition number_of (q : quantity) : number :=
  match q with
  | Exact n => PyInt n
  | Rounded f => PyFloat f
  end.

(** What the evaluator returns for a reference value. *)
Definition shown (r : Exc quantity) : Exc number :=
  q <- r ;; Ok (number_of q).

Definition is_rounded (q : quantity) : bool :=
  match q with Rounded _ => true | Exact _ => false end.

(** ** Expressions an interpreter has room for *)

(** An integer literal no longer than [int] converts. *)
Definition literal_fits (I : Bounded.interpreter) (l : literal) : bool :=
  match l with
  | IntLit ds =>
      negb (Bounded.exceeds (Bounded.int_max_str_digits I) (String.length ds))
  | FloatLit _ _ => true
  end.

Definition term_fits (I : Bounded.interpreter) (t : term) : bool :=
  literal_fits I (fst t) && forallb (fun it : mul_item => literal_fits I (snd it)) (snd t).

(** The literals of the expression can be converted, and its tree is no
    higher than [ast.parse] hands back and [_eval] can walk. *)
Definition fits (I : Bounded.interpreter) (e : expression) : bool :=
  term_fits I (first_term e) &&
  forallb (fun it : add_item => term_fits I (snd it)) (more_terms e) &&
  Nat.leb (Bounded.height (expression_tree e)) (Bounded.ast_depth I) &&
  Nat.leb (Bounded.height (expression_tree e)) (Bounded.call_depth I).

(** The integer can be shown: it has no more digits than [str] converts. *)
Definition shows (I : Bounded.interpreter) (n : Z) : bool :=
  negb (Bounded.exceeds (Bounded.int_max_str_digits I) (Bounded.digits_of n)).


(** [2.5 * 4 - 1 / 8] *)
Definition sample_quotient : expression :=
  {| first_term := (FloatLit "2" "5", [(1, Times, 1, IntLit "4")]);
     more_terms := [(1, Minus, 1, (IntLit "1", [(1, Divide, 1, IntLit "8")]))];
     trailing := 0 |}.

(** ** Requests and the console *)

(** Neither the math path nor an intent rule answers the text: the
    request goes to the generative backend. *)
Definition reaches_backend (I : Bounded.interpreter)
    (parse : string -> Exc expr) (float_repr : float -> string)
    (complex_repr : float -> float -> string) (strftime_now : string -> string)
    (user_text : string) : bool :=
  negb (String.eqb user_text EmptyString) &&
  negb (truthy_reply (Bounded.try_math I parse float_repr complex_repr user_text)) &&
  negb (truthy_reply (local_answer strftime_now user_text)).

(** Nothing written, and an exception. *)
Definition failed (e : exn) : Bounded.run :=
  {| Bounded.written := EmptyString; Bounded.returned := Raise e |}.

(** The run of printing a reply and returning it: the reply when the
    console takes the text and the reply, [UnicodeEncodeError] at the
    first of the two it refuses. *)
Definition printed (I : Bounded.interpreter) (user_text reply : string) : Bounded.run :=
  if Bounded.printable I user_text then
    if Bounded.printable I reply then
      {| Bounded.written := Bounded.transcript user_text reply;
         Bounded.returned := Ok reply |}
    else
      {| Bounded.written := "USER : " ++ user_text ++ nl ++ "AARYA: ";
         Bounded.returned := Raise UnicodeEncodeError |}
  else
    {| Bounded.written := "USER : "; Bounded.returned := Raise UnicodeEncodeError |}.

(** The characters every console encodes. *)
Definition is_ascii (c : ascii) : bool := (code c <? 128)%N.

(** An interpreter with the digit limit CPython sets by default, room
    for trees some hundred nodes high, and a console that encodes every
    character (UTF-8). *)
Definition sample_interpreter : Bounded.interpreter :=
  {| Bounded.int_max_str_digits := 4300;
     Bounded.ast_depth := 1000;
     Bounded.call_depth := 900;
     Bounded.stdout_encodes := fun _ => true |}.

(** The same with a console that encodes ASCII only. *)
Definition ascii_console : Bounded.interpreter :=
  {| Bounded.int_max_str_digits := 4300;
     Bounded.ast_depth := 1000;
     Bounded.call_depth := 900;
     Bounded.stdout_encodes := fun _ => false |}.

End Spec.

(* ================================================================== *)
(** * Properties *)
(* ================================================================== *)

Import Text Re Py Ast Json Parser AiServer Spec.

(** ** The evaluator walks whitelisted nodes only *)

Lemma bind_ok_inv {A B : Type} (m : Exc A) (k : A -> Exc B) (b : B) :
  Py.bind m k = Ok b -> exists a, m = Ok a /\ k a = Ok b.
Proof. destruct m as [a|e]; simpl; intros H; [eauto | discriminate]. Qed.

Lemma eval_BinOp l op r :
  _eval (BinOp l op r) =
  match ALLOWED_OPS op with
  | None => Raise (ValueError "Invalid operator")
  | Some f => Py.bind (_eval l) (fun a => Py.bind (_eval r) (fun b => f a b))
  end.
Proof. reflexivity. Qed.

Lemma as_Num_whitelisted node n : as_Num node = Some n -> whitelisted node = true.
Proof.
  destruct node as [[]| | | | | | | |]; simpl; intros H; try discriminate; reflexivity.
Qed.

Lemma eval_arith_result node v : _eval node = Ok v -> arith_result node v.
Proof.
  revert v. induction node; intros v H; try (simpl in H; discriminate).
  - destruct value; simpl in H; try discriminate; inversion H; subst;
      apply AR_literal; reflexivity.
  - rewrite eval_BinOp in H. destruct (ALLOWED_OPS op) as [f|] eqn:Hop; [|discriminate].
    apply bind_ok_inv in H. destruct H as [a [Ha H]].
    apply bind_ok_inv in H. destruct H as [b [Hb H]].
    eapply AR_operator; eauto.
Qed.

Lemma arith_result_whitelisted node v : arith_result node v -> whitelisted node = true.
Proof.
  induction 1 as [node n Hn | l op r f a b v Hop _ IHl _ IHr _].
  - eapply as_Num_whitelisted; eauto.
  - simpl. rewrite Hop, IHl, IHr. reflexivity.
Qed.

Lemma not_whitelisted_raises node :
  whitelisted node = false -> exists e, _eval node = Raise e.
Proof.
  intros H. destruct (_eval node) as [v|e] eqn:E; [|eauto].
  apply eval_arith_result, arith_result_whitelisted in E. congruence.
Qed.

Lemma try_math_none_of_raise parse fr cr text :
  is_ok (safe_eval parse (normalize_math text)) = false ->
  try_math parse fr cr text = None.
Proof.
  intros H. unfold try_math.
  destruct (negb (search math_cue (lower text))); [reflexivity|].
  unfold normalize_math in H.
  destruct (safe_eval parse (math_text (lower text))); [discriminate|reflexivity].
Qed.

(** C1. Whatever [ast.parse] returns for a text, [safe_eval] yields a
    value only for a tree of numeric literals and the four whitelisted
    operators, and that value is computed by those operators alone; a tree
    with any other node (a name, a call, an attribute access, ...) makes it
    raise, names, calls and attributes raising [ValueError] without being
    looked at further; and [try_math] turns every exception into [None]. *)
Theorem safe_eval_only_arithmetic :
  forall (parse : string -> Exc expr) (text : string),
    (forall v, safe_eval parse text = Ok v ->
       exists tree, parse text = Ok tree /\ whitelisted tree = true /\
                    arith_result tree v) /\
    (forall tree, parse text = Ok tree -> whitelisted tree = false ->
       exists e, safe_eval parse text = Raise e) /\
    (forall id, _eval (Name id) = Raise (ValueError "Invalid expression")) /\
    (forall f args kws, _eval (Call f args kws) = Raise (ValueError "Invalid expression")) /\
    (forall v attr, _eval (Attribute v attr) = Raise (ValueError "Invalid expression")) /\
    (forall fr cr, is_ok (safe_eval parse (normalize_math text)) = false ->
       try_math parse fr cr text = None).
Proof.
  intros parse text. repeat split; try reflexivity.
  - intros v H. unfold safe_eval in H. apply bind_ok_inv in H.
    destruct H as [tree [Hp He]]. exists tree. split; [assumption|].
    pose proof (eval_arith_result _ _ He) as Har. split; [|assumption].
    eapply arith_result_whitelisted; eauto.
  - intros tree Hp Hw. unfold safe_eval. rewrite Hp. simpl.
    apply not_whitelisted_raises; assumption.
  - intros fr cr H. apply try_math_none_of_raise; assumption.
Qed.

(** ** The orchestrator *)

Lemma ask_unfold parse fr cr clock backend body :
  ask parse fr cr clock backend body =
  match request_text body with
  | Raise e => crash e
  | Ok user_text =>
      if String.eqb user_text EmptyString
      then respond user_text "Please say something."
      else if truthy_reply (try_math parse fr cr user_text)
           then respond user_text (the_reply (try_math parse fr cr user_text))
           else intent_then_backend clock backend user_text
  end.
Proof. reflexivity. Qed.

(** C3, as stated, fails: with the backend down, a request that reaches
    it gets no reply; the exception leaves [ask]. *)
Lemma backend_failure_propagates :
  result (ask ast_parse no_float_repr no_complex_repr frozen_clock backend_down
              (text_body "tell me a joke"))
  = Raise (LibraryError "connection refused").
Proof. vm_compute. reflexivity. Qed.

(** C6. When the evaluator raises, whatever the exception, [try_math]
    gives [None] and [ask] answers exactly as intent resolution followed
    by the backend does: the exception is not part of the outcome. *)
Theorem evaluator_failure_falls_through :
  forall parse fr cr clock backend body user_text,
    request_text body = Ok user_text ->
    user_text <> EmptyString ->
    is_ok (safe_eval parse (normalize_math user_text)) = false ->
    try_math parse fr cr user_text = None /\
    ask parse fr cr clock backend body = intent_then_backend clock backend user_text.
Proof.
  intros parse fr cr clock backend body user_text Hreq Hne Hfail.
  pose proof (try_math_none_of_raise parse fr cr user_text Hfail) as Hm.
  split; [assumption|].
  rewrite ask_unfold, Hreq, Hm.
  destruct (String.eqb_spec user_text EmptyString); [contradiction|]. reflexivity.
Qed.

Lemma evaluator_failure_falls_through_witness :
  try_math ast_parse no_float_repr no_complex_repr "10 divided by 0" = None /\
  ask ast_parse no_float_repr no_complex_repr frozen_clock
      (backend_says "I cannot divide by zero.") (text_body "10 divided by 0")
  = intent_then_backend frozen_clock (backend_says "I cannot divide by zero.")
                        "10 divided by 0".
Proof.
  apply (evaluator_failure_falls_through ast_parse no_float_repr no_complex_repr
           frozen_clock (backend_says "I cannot divide by zero.")
           (text_body "10 divided by 0") "10 divided by 0").
  - reflexivity.
  - discriminate.
  - vm_compute. reflexivity.
Defined.

(** C7, as stated, fails for [ai_server_2.py]: its reply has no colon. *)
Lemma two_plus_two_second_server :
  result (AiServer2.ask ast_parse no_float_repr no_complex_repr frozen_clock backend_down
                        (text_body "two plus two"))
  = Ok "The answer is 4.".
Proof. vm_compute. reflexivity. Qed.

(** C7, amended. The input [two plus two] is normalized to [2 + 2],
    evaluated to the int 4 and answered on the math path: by
    [ai_server.py] with [The answer is: 4.], by [ai_server_2.py] with
    [The answer is 4.]. *)
Theorem two_plus_two :
  forall fr cr clock backend,
    normalize_math "two plus two" = "2 + 2" /\
    safe_eval ast_parse "2 + 2" = Ok (PyInt 4) /\
    try_math ast_parse fr cr "two plus two" = Some "The answer is: 4." /\
    result (ask ast_parse fr cr clock backend (text_body "two plus two"))
      = Ok "The answer is: 4." /\
    result (AiServer2.ask ast_parse fr cr clock backend (text_body "two plus two"))
      = Ok "The answer is 4.".
Proof. intros. vm_compute. repeat split. Qed.


(** In particular the letter case of the raw input never matters. *)
Lemma local_answer_ignores_case clock a b :
  lower a = lower b -> local_answer clock a = local_answer clock b.
Proof.
  intros H. unfold local_answer, normalize_intent. rewrite H. reflexivity.
Qed.


(** C10. A request without a text is answered like a whitespace-only
    one, with [Please say something.], whatever the parser, the clock and
    the backend would do: none of them is consulted. *)
Theorem missing_text_is_blank_input :
  forall parse fr cr clock backend body,
    no_text body ->
    ask parse fr cr clock backend body = respond EmptyString "Please say something." /\
    AiServer2.ask parse fr cr clock backend body
      = respond EmptyString "Please say something." /\
    forall ws, strip ws = EmptyString ->
      ask parse fr cr clock backend (text_body ws) = ask parse fr cr clock backend body /\
      AiServer2.ask parse fr cr clock backend (text_body ws)
        = AiServer2.ask parse fr cr clock backend body.
Proof.
  intros parse fr cr clock backend body Hb.
  assert (Hask : ask parse fr cr clock backend body
                   = respond EmptyString "Please say something." /\
                 AiServer2.ask parse fr cr clock backend body
                   = respond EmptyString "Please say something.").
  { destruct Hb as [->|[[j [-> Hj]]|[fields [-> Hf]]]].
    - split; reflexivity.
    - unfold ask, AiServer2.ask. rewrite Hj. split; reflexivity.
    - unfold ask, AiServer2.ask. destruct (truthy (JObj fields)).
      + unfold get. rewrite Hf. split; reflexivity.
      + split; reflexivity. }
  destruct Hask as [H1 H2]. repeat split; try assumption.
  - rewrite H1. unfold ask, text_body. simpl. rewrite H. reflexivity.
  - rewrite H2. unfold AiServer2.ask, text_body. simpl. rewrite H. reflexivity.
Qed.

Lemma missing_text_is_blank_input_witness :
  let body := Some (JObj [("lang", JStr "en")]) in
  ask ast_parse no_float_repr no_complex_repr frozen_clock backend_down body
    = respond EmptyString "Please say something." /\
  AiServer2.ask ast_parse no_float_repr no_complex_repr frozen_clock backend_down body
    = respond EmptyString "Please say something." /\
  forall ws, strip ws = EmptyString ->
    ask ast_parse no_float_repr no_complex_repr frozen_clock backend_down (text_body ws)
      = ask ast_parse no_float_repr no_complex_repr frozen_clock backend_down body /\
    AiServer2.ask ast_parse no_float_repr no_complex_repr frozen_clock backend_down (text_body ws)
      = AiServer2.ask ast_parse no_float_repr no_complex_repr frozen_clock backend_down body.
Proof.
  apply (missing_text_is_blank_input ast_parse no_float_repr no_complex_repr
           frozen_clock backend_down (Some (JObj [("lang", JStr "en")]))).
  right. right. exists [("lang", JStr "en")]. split; reflexivity.
Defined.

(** ** Division by zero *)





(** ** Syntax outside the four operators *)

Lemma has_unsupported_not_whitelisted node :
  has_unsupported node = true -> whitelisted node = false.
Proof.
  induction node; simpl; intros H; try discriminate; try reflexivity.
  destruct op; simpl in *; try reflexivity;
    (apply orb_true_iff in H; destruct H as [H|H];
     [rewrite (IHnode1 H); reflexivity
     |rewrite (IHnode2 H); apply andb_false_r]).
Qed.

(** C5, as stated, fails: [safe_eval] takes parentheses as grouping and
    returns a value, and [try_math] deletes parentheses, a caret and
    letters before it evaluates what is left. *)
Lemma parentheses_are_evaluated :
  safe_eval ast_parse "(1+2)*3" = Ok (PyInt 9) /\
  try_math ast_parse no_float_repr no_complex_repr "(1+2)*3" = Some "The answer is: 7." /\
  try_math ast_parse no_float_repr no_complex_repr "2^3" = Some "The answer is: 23." /\
  try_math ast_parse no_float_repr no_complex_repr "2a+1" = Some "The answer is: 3.".
Proof. vm_compute. repeat split. Qed.

(** C5, amended. When the tree of the evaluator's input has a unary
    operator, an exponent or a variable among its operands, [safe_eval]
    raises and [try_math] answers [None]: no value is made up. *)
Theorem unsupported_syntax_raises :
  forall (parse : string -> Exc expr) fr cr (text : string) (tree : expr),
    parse (normalize_math text) = Ok tree ->
    has_unsupported tree = true ->
    (exists e, safe_eval parse (normalize_math text) = Raise e) /\
    try_math parse fr cr text = None.
Proof.
  intros parse fr cr text tree Hp Hu.
  assert (H : exists e, safe_eval parse (normalize_math text) = Raise e).
  { unfold safe_eval. rewrite Hp. simpl.
    apply not_whitelisted_raises, has_unsupported_not_whitelisted; assumption. }
  split; [assumption|]. apply try_math_none_of_raise.
  destruct H as [e ->]. reflexivity.
Qed.

Lemma unsupported_syntax_raises_witness :
  (exists e, safe_eval ast_parse (normalize_math "-3 + 2**2") = Raise e) /\
  try_math ast_parse no_float_repr no_complex_repr "-3 + 2**2" = None.
Proof.
  apply (unsupported_syntax_raises ast_parse no_float_repr no_complex_repr "-3 + 2**2"
           (BinOp (UnaryOp USub (Constant (CInt 3))) Add
                  (BinOp (Constant (CInt 2)) Pow (Constant (CInt 2))))).
  - vm_compute. reflexivity.
  - reflexivity.
Defined.

(** ** The math-path normalization *)

Section FreeOf.
Variable p : ascii -> bool.

Lemma free_of_tail c s : free_of p (String c s) = true -> free_of p s = true.
Proof. unfold free_of. simpl. intros H. apply andb_true_iff in H. tauto. Qed.

Lemma strip_prefix_free w : forall s rest,
  strip_prefix w s = Some rest -> free_of p s = true ->
  free_of p w = true /\ free_of p rest = true.
Proof.
  unfold free_of. induction w as [|a w IH]; simpl; intros s rest H Hc.
  - inversion H; subst. auto.
  - destruct s as [|b s]; [discriminate|].
    destruct (Ascii.eqb_spec a b); [|discriminate]. subst b.
    simpl in Hc. apply andb_true_iff in Hc. destruct Hc as [Hb Hs].
    destruct (IH _ _ H Hs) as [Hw Hr]. rewrite Hb, Hw. auto.
Qed.

(** A continuation that fails on text free of [p] makes the match fail. *)
Lemma exec_cont_none {A : Type} (r : regex) :
  forall prev s (k : option ascii -> string -> option A),
    (forall prev' s', free_of p s' = true -> k prev' s' = None) ->
    free_of p s = true -> exec r prev s k = None.
Proof.
  induction r as [w|q| |r1 IH1 r2 IH2|r1 IH1 r2 IH2|r1 IH1|r1 IH1];
    intros prev s k Hk Hs; simpl.
  - destruct (strip_prefix w s) as [s'|] eqn:E; [|reflexivity].
    apply Hk. eapply strip_prefix_free; eauto.
  - destruct s as [|c s']; [reflexivity|]. destruct (q c); [|reflexivity].
    apply Hk. eapply free_of_tail; eauto.
  - destruct (at_boundary prev s); [apply Hk; assumption|reflexivity].
  - apply IH1; [|assumption]. intros prev' s' Hs'. apply IH2; assumption.
  - rewrite IH1 by assumption. apply IH2; assumption.
  - generalize (String.length s) as fuel. intros fuel. revert prev s Hs.
    induction fuel as [|fuel IHf]; intros prev s Hs.
    + apply Hk; assumption.
    + rewrite IH1.
      * apply Hk; assumption.
      * intros prev' s' Hs'. destruct (Nat.ltb _ _); [|reflexivity].
        apply IHf; assumption.
      * assumption.
  - rewrite IH1 by assumption. apply Hk; assumption.
Qed.

(** A pattern that requires a character of [p] matches nowhere in text
    free of [p]. *)
Lemma exec_requires {A : Type} (r : regex) :
  requires p r = true ->
  forall prev s (k : option ascii -> string -> option A),
    free_of p s = true -> exec r prev s k = None.
Proof.
  induction r as [w|q| |r1 IH1 r2 IH2|r1 IH1 r2 IH2|r1 IH1|r1 IH1];
    simpl; intros Hr prev s k Hs; try discriminate.
  - destruct (strip_prefix w s) as [s'|] eqn:E; [|reflexivity].
    destruct (strip_prefix_free _ _ _ E Hs) as [Hw _]. rewrite Hw in Hr. discriminate.
  - apply orb_true_iff in Hr. destruct Hr as [Hr|Hr].
    + apply IH1; assumption.
    + apply exec_cont_none; [|assumption]. intros. apply IH2; assumption.
  - apply andb_true_iff in Hr. destruct Hr as [H1 H2].
    rewrite IH1 by assumption. apply IH2; assumption.
Qed.

Lemma sub_requires r repl :
  requires p r = true ->
  forall s prev, free_of p s = true -> sub_from r repl 0 prev s = s.
Proof.
  intros Hr. induction s as [|c s IH]; intros prev Hs; simpl;
    unfold matches_here; rewrite (exec_requires r Hr) by assumption.
  - reflexivity.
  - f_equal. apply IH. eapply free_of_tail; eauto.
Qed.

Lemma replace_requires old new :
  free_of p old = false ->
  forall s, free_of p s = true -> replace_from old new 0 s = s.
Proof.
  intros Ho. induction s as [|c s IH]; intros Hs; simpl; [reflexivity|].
  destruct (strip_prefix old (String c s)) as [rest|] eqn:E.
  - destruct (strip_prefix_free _ _ _ E Hs) as [Hw _]. congruence.
  - f_equal. apply IH. eapply free_of_tail; eauto.
Qed.

End FreeOf.

Lemma minus_succ_self n : S n - n = 1.
Proof. lia. Qed.

(** Substituting the empty string for a class deletes its characters. *)
Lemma sub_class_delete q : forall s prev,
  sub_from (Cls q) (fun _ => EmptyString) 0 prev s = filter_chars (fun c => negb (q c)) s.
Proof.
  induction s as [|c s IH]; intros prev; [reflexivity|].
  cbn [sub_from matches_here exec filter_chars].
  destruct (q c); cbn [negb].
  - cbn [String.length]. rewrite minus_succ_self. cbn. apply IH.
  - f_equal. apply IH.
Qed.

Lemma filter_chars_all q s : forall_chars q (filter_chars q s) = true.
Proof.
  induction s as [|c s IH]; simpl; [reflexivity|].
  destruct (q c) eqn:E; simpl; [rewrite E|]; assumption.
Qed.

Lemma filter_chars_id q s : forall_chars q s = true -> filter_chars q s = s.
Proof.
  induction s as [|c s IH]; simpl; intros H; [reflexivity|].
  apply andb_true_iff in H. destruct H as [Hc Hs]. rewrite Hc, IH; auto.
Qed.

Lemma filter_chars_ext q q' s :
  (forall c, q c = q' c) -> filter_chars q s = filter_chars q' s.
Proof.
  intros H. induction s as [|c s IH]; simpl; [reflexivity|].
  rewrite H, IH. reflexivity.
Qed.

Lemma lstrip_all q s : forall_chars q s = true -> forall_chars q (lstrip s) = true.
Proof.
  induction s as [|c s IH]; simpl; intros H; [reflexivity|].
  destruct (is_space c); [|assumption].
  apply IH. apply andb_true_iff in H. tauto.
Qed.

Lemma rstrip_all q s : forall_chars q s = true -> forall_chars q (rstrip s) = true.
Proof.
  induction s as [|c s IH]; simpl; intros H; [reflexivity|].
  apply andb_true_iff in H. destruct H as [Hc Hs]. specialize (IH Hs).
  destruct (rstrip s) as [|d r].
  - destruct (is_space c); simpl; [reflexivity|]. rewrite Hc. reflexivity.
  - simpl in *. rewrite Hc. assumption.
Qed.

Lemma strip_all q s : forall_chars q s = true -> forall_chars q (strip s) = true.
Proof. intros. unfold strip. apply rstrip_all, lstrip_all. assumption. Qed.

Lemma rstrip_idem s : rstrip (rstrip s) = rstrip s.
Proof.
  induction s as [|c s IH]; [reflexivity|]. simpl.
  destruct (rstrip s) as [|d r] eqn:E.
  - destruct (is_space c) eqn:Ec; [reflexivity|]. simpl. rewrite Ec. reflexivity.
  - change (rstrip (String c (String d r))) with
      (match rstrip (String d r) with
       | EmptyString => if is_space c then EmptyString else String c EmptyString
       | r0 => String c r0
       end).
    rewrite IH. reflexivity.
Qed.

Lemma lstrip_head s :
  lstrip s = EmptyString \/ exists c r, lstrip s = String c r /\ is_space c = false.
Proof.
  induction s as [|c s IH]; simpl; [left; reflexivity|].
  destruct (is_space c) eqn:E; [assumption|]. right. eauto.
Qed.

Lemma rstrip_head c s : is_space c = false -> exists r, rstrip (String c s) = String c r.
Proof.
  intros H. simpl. destruct (rstrip s); [rewrite H|]; eauto.
Qed.

Lemma strip_idem s : strip (strip s) = strip s.
Proof.
  unfold strip. destruct (lstrip_head s) as [E|[c [r [E Hc]]]]; rewrite E.
  - reflexivity.
  - destruct (rstrip_head c r Hc) as [r' E']. rewrite E'.
    simpl lstrip. rewrite Hc. rewrite <- E'. apply rstrip_idem.
Qed.

Lemma math_char_lower c : math_char c = true -> lower_char c = c.
Proof.
  destruct c as [[] [] [] [] [] [] [] []]; vm_compute; intros H;
    (reflexivity || discriminate).
Qed.

Lemma lower_math s : forall_chars math_char s = true -> lower s = s.
Proof.
  induction s as [|c s IH]; simpl; intros H; [reflexivity|].
  apply andb_true_iff in H. destruct H as [Hc Hs].
  rewrite math_char_lower, IH; auto.
Qed.

Lemma free_of_other s : forall_chars math_char s = true -> free_of other_char s = true.
Proof.
  unfold free_of. induction s as [|c s IH]; simpl; intros H; [reflexivity|].
  apply andb_true_iff in H. destruct H as [Hc Hs]. unfold other_char at 1.
  rewrite Hc. simpl. auto.
Qed.

Lemma fold_left_fixed {A B : Type} (f : A -> B -> A) (l : list B) (a : A) :
  Forall (fun b => f a b = a) l -> fold_left f l a = a.
Proof.
  induction 1 as [|b l Hb Hl IH]; simpl; [reflexivity|]. rewrite Hb. exact IH.
Qed.

Lemma words_to_numbers_math s : forall_chars math_char s = true -> words_to_numbers s = s.
Proof.
  intros H. apply free_of_other in H. unfold words_to_numbers.
  apply fold_left_fixed. unfold NUM_WORDS.
  repeat (constructor; [apply (sub_requires other_char); [reflexivity|exact H]|]).
  constructor.
Qed.

Lemma words_to_operators_math s : forall_chars math_char s = true -> words_to_operators s = s.
Proof.
  intros H. apply free_of_other in H. unfold words_to_operators.
  unfold Re.sub. rewrite (sub_requires other_char) by (reflexivity || exact H).
  apply fold_left_fixed. unfold OP_WORDS.
  repeat (constructor; [apply (replace_requires other_char); [reflexivity|exact H]|]).
  constructor.
Qed.

Lemma delete_other_chars t :
  Re.sub not_math_char (fun _ => EmptyString) t = filter_chars math_char t.
Proof.
  unfold Re.sub, not_math_char. rewrite sub_class_delete.
  apply filter_chars_ext. intros c. apply negb_involutive.
Qed.

(** The text handed to the evaluator has math characters only. *)
Lemma math_text_all t : forall_chars math_char (math_text t) = true.
Proof.
  unfold math_text. rewrite delete_other_chars.
  apply strip_all, filter_chars_all.
Qed.

Lemma math_text_fixed s :
  forall_chars math_char s = true -> math_text s = strip s.
Proof.
  intros H. unfold math_text.
  rewrite (words_to_numbers_math s H), (words_to_operators_math s H).
  rewrite delete_other_chars, filter_chars_id by assumption. reflexivity.
Qed.

(** C8. The math-path normalization is idempotent. *)
Theorem normalize_math_idempotent :
  forall x : string, normalize_math (normalize_math x) = normalize_math x.
Proof.
  intros x. unfold normalize_math at 1.
  pose proof (math_text_all (lower x)) as Hall. fold (normalize_math x) in Hall.
  rewrite (lower_math _ Hall), (math_text_fixed _ Hall).
  unfold normalize_math, math_text. apply strip_idem.
Qed.

(** ** The tokenizer on written expressions *)

Lemma append_empty_r (s : string) : s ++ EmptyString = s.
Proof. induction s as [|c s IH]; cbn; [reflexivity|]. rewrite IH. reflexivity. Qed.

Lemma append_assoc (a b c : string) : (a ++ b) ++ c = a ++ (b ++ c).
Proof. induction a as [|x a IH]; cbn; [reflexivity|]. rewrite IH. reflexivity. Qed.

Lemma bind_ok_id {A} (m : Exc (list A)) : Py.bind m (fun ts => Ok ([] ++ ts)%list) = m.
Proof. destruct m; reflexivity. Qed.

Lemma digit_not_special c :
  is_digit c = true ->
  Ascii.eqb c " " = false /\ Ascii.eqb c "." = false /\ Ascii.eqb c "*" = false /\
  Ascii.eqb c "/" = false /\ char_in c " +-*/" = false.
Proof.
  destruct c as [[] [] [] [] [] [] [] []]; vm_compute; intros H;
    first [discriminate | repeat split].
Qed.

Lemma boundary_char c :
  char_in c " +-*/" = true ->
  is_digit c = false /\ Ascii.eqb c "." = false /\
  exists ts st, step_idle c = Ok (ts, st).
Proof.
  destruct c as [[] [] [] [] [] [] [] []]; vm_compute; intros H;
    try discriminate; repeat split; eauto.
Qed.

Lemma int_literal_ok ds :
  literal_ok (IntLit ds) = true ->
  int_literal ds = Ok (TNum (literal_value (IntLit ds))).
Proof.
  unfold literal_ok, int_literal, literal_value. intros H.
  apply andb_true_iff in H. destruct H as [_ H].
  destruct ds as [|c [|c' ds']]; try reflexivity.
  destruct (is_zero_digit c); cbn in *; [|reflexivity].
  rewrite H. reflexivity.
Qed.

Lemma step_idle_digit d : is_digit d = true ->
  step_idle d = Ok ([], InInt (String d EmptyString)).
Proof. intros H. unfold step_idle. rewrite H. reflexivity. Qed.

Lemma operand_start_not_op s :
  operand_start s = true ->
  match s with
  | String c _ => Ascii.eqb c "*" = false /\ Ascii.eqb c "/" = false /\
                  exists ts st, step_idle c = Ok (ts, st)
  | EmptyString => False
  end.
Proof.
  destruct s as [|c s]; [discriminate|]. cbn.
  destruct c as [[] [] [] [] [] [] [] []]; vm_compute; intros H;
    try discriminate; repeat split; eauto.
Qed.

Lemma operand_start_literal b l rest :
  literal_ok l = true -> operand_start (spaces b ++ literal_text l ++ rest) = true.
Proof.
  intros H. destruct b as [|b]; [|reflexivity]. cbn [spaces append].
  destruct l as [ds|ip fp]; cbn [literal_text].
  - unfold literal_ok in H. apply andb_true_iff in H. destruct H as [H _].
    apply andb_true_iff in H. destruct H as [Hne Hds].
    destruct ds as [|d ds]; [discriminate|]. cbn in Hds.
    apply andb_true_iff in Hds. destruct Hds as [Hd _]. cbn. rewrite Hd. reflexivity.
  - unfold literal_ok in H. apply andb_true_iff in H. destruct H as [H _].
    apply andb_true_iff in H. destruct H as [Hip _].
    destruct ip as [|d ip].
    + reflexivity.
    + cbn in Hip. apply andb_true_iff in Hip. destruct Hip as [Hd _].
      cbn. rewrite Hd. reflexivity.
Qed.

Lemma boundary_spaces_op a (c : ascii) s :
  char_in c " +-*/" = true -> boundary (spaces a ++ String c s) = true.
Proof. intros H. destruct a; cbn; [exact H|reflexivity]. Qed.

Lemma boundary_mul_items items rest :
  boundary rest = true -> boundary (render_mul_items items rest) = true.
Proof.
  intros H. destruct items as [|[[[a op] b] l] items]; [exact H|].
  cbn [render_mul_items]. destruct op; apply boundary_spaces_op; reflexivity.
Qed.

Lemma boundary_add_items items rest :
  boundary rest = true -> boundary (render_add_items items rest) = true.
Proof.
  intros H. destruct items as [|[[[a op] b] t] items]; [exact H|].
  cbn [render_add_items]. destruct op; apply boundary_spaces_op; reflexivity.
Qed.

Lemma operand_start_term b t rest :
  term_ok t = true -> operand_start (spaces b ++ render_term t rest) = true.
Proof.
  intros H. unfold term_ok in H. apply andb_true_iff in H. destruct H as [H _].
  unfold render_term. apply operand_start_literal. assumption.
Qed.

Lemma boundary_spaces n : boundary (spaces n) = true.
Proof. destruct n; reflexivity. Qed.

Lemma render_not_indented e :
  well_formed e = true ->
  match render e with String " " _ => False | _ => True end.
Proof.
  unfold well_formed, render, render_term. intros H.
  apply andb_true_iff in H. destruct H as [H _].
  unfold term_ok in H. apply andb_true_iff in H. destruct H as [H _].
  pose proof (operand_start_literal 0 (fst (first_term e))
    (render_mul_items (snd (first_term e))
       (render_add_items (more_terms e) (spaces (trailing e)))) H) as Hs.
  cbn [spaces append] in Hs.
  destruct (fst (first_term e)) as [ds|ip fp]; cbn [literal_text] in *.
  - unfold literal_ok in H. apply andb_true_iff in H. destruct H as [H _].
    apply andb_true_iff in H. destruct H as [Hne Hds].
    destruct ds as [|d ds]; [discriminate|]. cbn in Hds |- *.
    apply andb_true_iff in Hds. destruct Hds as [Hd _].
    destruct d as [[] [] [] [] [] [] [] []]; try exact I; vm_compute in Hd; discriminate.
  - destruct ip as [|d ip]; [exact I|].
    unfold literal_ok in H. apply andb_true_iff in H. destruct H as [H _].
    apply andb_true_iff in H. destruct H as [Hip _]. cbn in Hip |- *.
    apply andb_true_iff in Hip. destruct Hip as [Hd _].
    destruct d as [[] [] [] [] [] [] [] []]; try exact I; vm_compute in Hd; discriminate.
Qed.

(** The tokenizer of an interpreter with a digit limit, on the text of an
    expression whose integer literals are within the limit. *)
Section WrittenExpressions.

Variable I : Bounded.interpreter.

Lemma lex_cons st c s :
  Bounded.lex I st (String c s) =
  Py.bind (Bounded.step I st c)
          (fun r => Py.bind (Bounded.lex I (snd r) s) (fun ts => Ok (fst r ++ ts)%list)).
Proof. reflexivity. Qed.

(** Outside a long integer literal, and inside one that goes on, the
    limit changes nothing. *)
Lemma step_short st c : Bounded.long_int I st = false -> Bounded.step I st c = step st c.
Proof. intros H. unfold Bounded.step. rewrite H. reflexivity. Qed.

Lemma step_open st c : Bounded.closes_int st c = false -> Bounded.step I st c = step st c.
Proof. intros H. unfold Bounded.step. rewrite H, andb_false_r. reflexivity. Qed.

Lemma flush_short st : Bounded.long_int I st = false -> Bounded.flush I st = flush st.
Proof. intros H. unfold Bounded.flush. rewrite H. reflexivity. Qed.

Lemma flush_ok st ts :
  Bounded.flush I st = Ok ts -> Bounded.long_int I st = false /\ flush st = Ok ts.
Proof.
  unfold Bounded.flush. destruct (Bounded.long_int I st); [discriminate|]. auto.
Qed.

Lemma lex_spaces n s : Bounded.lex I Idle (spaces n ++ s) = Bounded.lex I Idle s.
Proof.
  induction n as [|n IH]; [reflexivity|].
  cbn [spaces append]. rewrite lex_cons, step_short by reflexivity. cbn.
  rewrite bind_ok_id. exact IH.
Qed.

(** Accumulating digits. *)
Lemma lex_int_digits ds : forall acc s,
  forall_chars is_digit ds = true ->
  Bounded.lex I (InInt acc) (ds ++ s) = Bounded.lex I (InInt (acc ++ ds)) s.
Proof.
  induction ds as [|d ds IH]; intros acc s H.
  - cbn. rewrite append_empty_r. reflexivity.
  - cbn in H. apply andb_true_iff in H. destruct H as [Hd Hds].
    cbn [append]. rewrite lex_cons.
    rewrite step_open by (cbn [Bounded.closes_int]; rewrite Hd; reflexivity).
    cbn [step]. rewrite Hd. cbn.
    rewrite bind_ok_id. rewrite IH by assumption. unfold append1.
    rewrite append_assoc. reflexivity.
Qed.

Lemma lex_frac_digits ds : forall ip acc s,
  forall_chars is_digit ds = true ->
  Bounded.lex I (InFrac ip acc) (ds ++ s) = Bounded.lex I (InFrac ip (acc ++ ds)) s.
Proof.
  induction ds as [|d ds IH]; intros ip acc s H.
  - cbn. rewrite append_empty_r. reflexivity.
  - cbn in H. apply andb_true_iff in H. destruct H as [Hd Hds].
    cbn [append]. rewrite lex_cons, step_short by reflexivity.
    cbn [step]. rewrite Hd. cbn.
    rewrite bind_ok_id. rewrite IH by assumption. unfold append1.
    rewrite append_assoc. reflexivity.
Qed.

(** A pending number is closed by a boundary. *)
Lemma lex_close st t rest :
  Bounded.flush I st = Ok [t] ->
  (exists ds, st = InInt ds) \/ (exists ip fp, st = InFrac ip fp) ->
  boundary rest = true ->
  Bounded.lex I st rest = Py.bind (Bounded.lex I Idle rest) (fun ts => Ok (t :: ts)).
Proof.
  intros Hf Hst Hb. destruct (flush_ok _ _ Hf) as [Hshort Hflush].
  destruct rest as [|c rest].
  - cbn. exact Hf.
  - cbn in Hb. destruct (boundary_char c Hb) as [Hd [Hp [ts [st' Hs]]]].
    rewrite !lex_cons, (step_short st c Hshort), (step_short Idle c eq_refl).
    assert (Hstep : step st c = flush_then_idle st c).
    { destruct Hst as [[ds ->]|[ip [fp ->]]]; cbn [step]; rewrite Hd; try rewrite Hp; reflexivity. }
    rewrite Hstep. unfold flush_then_idle. rewrite Hflush. cbn [Py.bind].
    change (step Idle c) with (step_idle c). rewrite Hs. cbn.
    destruct (Bounded.lex I st' rest); reflexivity.
Qed.

Lemma lex_literal l rest :
  literal_ok l = true -> literal_fits I l = true -> boundary rest = true ->
  Bounded.lex I Idle (literal_text l ++ rest) =
  Py.bind (Bounded.lex I Idle rest) (fun ts => Ok (TNum (literal_value l) :: ts)).
Proof.
  intros Hok Hfit Hb. destruct l as [ds|ip fp].
  - pose proof (int_literal_ok ds Hok) as Hlit.
    unfold literal_ok in Hok.
    apply andb_true_iff in Hok. destruct Hok as [Hok _].
    apply andb_true_iff in Hok. destruct Hok as [Hne Hds].
    destruct ds as [|d ds]; [discriminate|].
    cbn in Hds. apply andb_true_iff in Hds. destruct Hds as [Hd Hds].
    cbn [literal_text append]. rewrite lex_cons, step_short by reflexivity.
    change (step Idle d) with (step_idle d). rewrite (step_idle_digit d Hd).
    cbn [Py.bind fst snd]. rewrite bind_ok_id.
    rewrite lex_int_digits by assumption. cbn [append].
    apply lex_close; [|left; eauto|assumption].
    unfold literal_fits in Hfit. apply negb_true_iff in Hfit.
    rewrite flush_short by exact Hfit.
    cbn [flush]. rewrite Hlit. reflexivity.
  - unfold literal_ok in Hok.
    apply andb_true_iff in Hok. destruct Hok as [Hok Hne].
    apply andb_true_iff in Hok. destruct Hok as [Hip Hfp].
    cbn [literal_text]. rewrite append_assoc. cbn [append].
    destruct ip as [|d ip].
    + cbn in Hne. destruct fp as [|f fp]; [discriminate|].
      cbn in Hfp. apply andb_true_iff in Hfp. destruct Hfp as [Hf Hfp].
      cbn [append]. rewrite lex_cons, step_short by reflexivity.
      cbn [step Py.bind fst snd].
      change (step_idle ".") with (@Ok (list token * lex_state) ([], AfterDot)).
      cbn [Py.bind fst snd]. rewrite bind_ok_id.
      rewrite lex_cons, step_short by reflexivity.
      cbn [step]. rewrite Hf. cbn [Py.bind fst snd].
      rewrite bind_ok_id. rewrite lex_frac_digits by assumption. cbn [append].
      apply lex_close; [reflexivity|right; eauto|assumption].
    + cbn in Hip. apply andb_true_iff in Hip. destruct Hip as [Hd Hip].
      cbn [append]. rewrite lex_cons, step_short by reflexivity.
      change (step Idle d) with (step_idle d). rewrite (step_idle_digit d Hd).
      cbn [Py.bind fst snd]. rewrite bind_ok_id.
      rewrite lex_int_digits by assumption. cbn [append].
      rewrite lex_cons, step_open by reflexivity. cbn [step].
      change (is_digit ".") with false. cbn [Ascii.eqb Bool.eqb Py.bind fst snd].
      rewrite bind_ok_id. rewrite lex_frac_digits by assumption. cbn [append].
      apply lex_close; [reflexivity|right; eauto|assumption].
Qed.

Lemma lex_pending_op st t s :
  (st = AfterStar /\ t = TStar) \/ (st = AfterSlash /\ t = TSlash) ->
  operand_start s = true ->
  Bounded.lex I st s = Py.bind (Bounded.lex I Idle s) (fun ts => Ok (t :: ts)).
Proof.
  intros Hst Hs. apply operand_start_not_op in Hs.
  destruct s as [|c s]; [contradiction|].
  destruct Hs as [H1 [H2 [ts [st' Hstep]]]].
  assert (Hshort : Bounded.long_int I st = false).
  { destruct Hst as [[-> _]|[-> _]]; reflexivity. }
  rewrite !lex_cons, (step_short st c Hshort), (step_short Idle c eq_refl).
  assert (E : step st c = Py.bind (step_idle c) (fun r => Ok ((t :: fst r)%list, snd r))).
  { destruct Hst as [[-> ->]|[-> ->]]; cbn [step]; [rewrite H1|rewrite H2]; reflexivity. }
  rewrite E. change (step Idle c) with (step_idle c). rewrite Hstep. cbn.
  destruct (Bounded.lex I st' s); reflexivity.
Qed.

Lemma lex_mulop op s :
  operand_start s = true ->
  Bounded.lex I Idle (mulop_text op ++ s) =
  Py.bind (Bounded.lex I Idle s) (fun ts => Ok (mulop_token op :: ts)).
Proof.
  intros Hs. destruct op; cbn [mulop_text append mulop_token];
    rewrite lex_cons, step_short by reflexivity; cbn [step Py.bind fst snd].
  - change (step_idle "*") with (@Ok (list token * lex_state) ([], AfterStar)).
    cbn [Py.bind fst snd]. rewrite bind_ok_id. apply lex_pending_op; auto.
  - change (step_idle "/") with (@Ok (list token * lex_state) ([], AfterSlash)).
    cbn [Py.bind fst snd]. rewrite bind_ok_id. apply lex_pending_op; auto.
Qed.

Lemma lex_addop op s :
  Bounded.lex I Idle (addop_text op ++ s) =
  Py.bind (Bounded.lex I Idle s) (fun ts => Ok (addop_token op :: ts)).
Proof.
  destruct op; cbn [addop_text append addop_token];
    rewrite lex_cons, step_short by reflexivity; cbn;
    destruct (Bounded.lex I Idle s); reflexivity.
Qed.

Lemma lex_mul_items items : forall rest toks,
  forallb (fun it : mul_item => literal_ok (snd it)) items = true ->
  forallb (fun it : mul_item => literal_fits I (snd it)) items = true ->
  boundary rest = true ->
  Bounded.lex I Idle rest = Ok toks ->
  Bounded.lex I Idle (render_mul_items items rest) = Ok (mul_item_tokens items toks).
Proof.
  induction items as [|[[[a op] b] l] items IH]; intros rest toks Hok Hfit Hb Hrest.
  - exact Hrest.
  - cbn in Hok. apply andb_true_iff in Hok. destruct Hok as [Hl Hitems].
    cbn in Hfit. apply andb_true_iff in Hfit. destruct Hfit as [Hfl Hfitems].
    cbn [render_mul_items mul_item_tokens].
    rewrite lex_spaces, lex_mulop by (apply operand_start_literal; assumption).
    rewrite lex_spaces, lex_literal by (auto using boundary_mul_items).
    rewrite (IH rest toks) by assumption. reflexivity.
Qed.

Lemma lex_term t rest toks :
  term_ok t = true -> term_fits I t = true -> boundary rest = true ->
  Bounded.lex I Idle rest = Ok toks ->
  Bounded.lex I Idle (render_term t rest) = Ok (term_tokens t toks).
Proof.
  intros Hok Hfit Hb Hrest. unfold term_ok in Hok. apply andb_true_iff in Hok.
  destruct Hok as [Hl Hitems]. unfold term_fits in Hfit. apply andb_true_iff in Hfit.
  destruct Hfit as [Hfl Hfitems]. unfold render_term, term_tokens.
  rewrite lex_literal by (auto using boundary_mul_items).
  rewrite (lex_mul_items _ rest toks) by assumption. reflexivity.
Qed.

Lemma lex_add_items items : forall rest toks,
  forallb (fun it : add_item => term_ok (snd it)) items = true ->
  forallb (fun it : add_item => term_fits I (snd it)) items = true ->
  boundary rest = true ->
  Bounded.lex I Idle rest = Ok toks ->
  Bounded.lex I Idle (render_add_items items rest) = Ok (add_item_tokens items toks).
Proof.
  induction items as [|[[[a op] b] t] items IH]; intros rest toks Hok Hfit Hb Hrest.
  - exact Hrest.
  - cbn in Hok. apply andb_true_iff in Hok. destruct Hok as [Ht Hitems].
    cbn in Hfit. apply andb_true_iff in Hfit. destruct Hfit as [Hft Hfitems].
    cbn [render_add_items add_item_tokens].
    rewrite lex_spaces, lex_addop, lex_spaces.
    rewrite (lex_term t _ (add_item_tokens items toks)); auto using boundary_add_items.
Qed.

Lemma lex_only_spaces n : Bounded.lex I Idle (spaces n) = Ok [].
Proof.
  rewrite <- (append_empty_r (spaces n)). rewrite lex_spaces. reflexivity.
Qed.

Lemma tokenize_render e :
  well_formed e = true ->
  term_fits I (first_term e) = true ->
  forallb (fun it : add_item => term_fits I (snd it)) (more_terms e) = true ->
  Bounded.tokenize I (render e) = Ok (expression_tokens e).
Proof.
  intros H Hft Hfitems. pose proof (render_not_indented e H) as Hind.
  assert (E : Bounded.tokenize I (render e) = Bounded.lex I Idle (render e)).
  { unfold Bounded.tokenize. destruct (render e) as [|c s]; [reflexivity|].
    destruct c as [[] [] [] [] [] [] [] []]; try reflexivity. contradiction. }
  rewrite E. unfold well_formed in H. apply andb_true_iff in H. destruct H as [Ht Hitems].
  unfold render, expression_tokens.
  apply lex_term; [assumption|assumption| |].
  - apply boundary_add_items, boundary_spaces.
  - apply lex_add_items; [assumption|assumption|apply boundary_spaces|apply lex_only_spaces].
Qed.

End WrittenExpressions.

(** ** The parser on token streams of expressions *)

Lemma p_factor_num n c more :
  4 <= n -> operator_next more = true ->
  p_factor n (TNum c :: more) = Some (Ok (Constant c, more)).
Proof.
  intros Hn Hm.
  destruct n as [|[|[|[|n]]]]; try lia.
  destruct more as [|[] more]; try discriminate; reflexivity.
Qed.

Lemma sum_next_operator_next ts : sum_next ts = true -> operator_next ts = true.
Proof. destruct ts as [|[] ts]; cbn; congruence. Qed.

Lemma operator_next_mul_items items rest :
  sum_next rest = true -> operator_next (mul_item_tokens items rest) = true.
Proof.
  intros H. destruct items as [|[[[a op] b] l] items].
  - apply sum_next_operator_next; assumption.
  - destruct op; reflexivity.
Qed.

Lemma p_term_rest_items items : forall n acc rest,
  List.length items + 5 <= n -> sum_next rest = true ->
  p_term_rest n acc (mul_item_tokens items rest) =
  Some (Ok (term_tree_from acc items, rest)).
Proof.
  induction items as [|[[[a op] b] l] items IH]; intros n acc rest Hn Hr.
  - destruct n as [|n]; [cbn in Hn; lia|].
    destruct rest as [|[] rest]; try discriminate; reflexivity.
  - destruct n as [|n]; [cbn in Hn; lia|]. cbn [List.length] in Hn.
    cbn [mul_item_tokens].
    destruct op; cbn [mulop_token p_term_rest];
      rewrite p_factor_num by (try lia; apply operator_next_mul_items; assumption);
      rewrite IH by (try lia; assumption); reflexivity.
Qed.

Lemma p_term_tokens t n rest :
  List.length (snd t) + 6 <= n -> sum_next rest = true ->
  p_term n (term_tokens t rest) = Some (Ok (term_tree t, rest)).
Proof.
  intros Hn Hr. destruct n as [|n]; [lia|].
  unfold term_tokens. cbn [p_term].
  rewrite p_factor_num by (try lia; apply operator_next_mul_items; assumption).
  apply p_term_rest_items; [lia|assumption].
Qed.

Lemma mul_item_tokens_length items rest :
  List.length (mul_item_tokens items rest) = 2 * List.length items + List.length rest.
Proof.
  induction items as [|[[[a op] b] l] items IH]; cbn [mul_item_tokens List.length]; lia.
Qed.

Lemma sum_next_add_items items rest :
  sum_next rest = true -> sum_next (add_item_tokens items rest) = true.
Proof.
  intros H. destruct items as [|[[[a op] b] t] items]; [assumption|].
  destruct op; reflexivity.
Qed.

Lemma p_sum_rest_items items : forall n acc,
  List.length (add_item_tokens items []) + 7 <= n ->
  p_sum_rest n acc (add_item_tokens items []) =
  Some (Ok (sum_tree_from acc items, [])).
Proof.
  induction items as [|[[[a op] b] t] items IH]; intros n acc Hn.
  - destruct n as [|n]; [lia|]. reflexivity.
  - destruct n as [|n]; [lia|].
    cbn [add_item_tokens List.length] in Hn. unfold term_tokens in Hn.
    cbn [List.length] in Hn. rewrite mul_item_tokens_length in Hn.
    cbn [add_item_tokens].
    destruct op; cbn [addop_token p_sum_rest];
      rewrite p_term_tokens by (try lia; apply sum_next_add_items; reflexivity);
      rewrite IH by lia; reflexivity.
Qed.

Lemma parse_expression_tokens e :
  parse_tokens (expression_tokens e) = Ok (expression_tree e).
Proof.
  unfold parse_tokens, parse_fuel.
  set (ts := expression_tokens e).
  assert (Hlen : List.length ts =
                 1 + 2 * List.length (snd (first_term e)) +
                 List.length (add_item_tokens (more_terms e) [])).
  { unfold ts, expression_tokens, term_tokens. cbn [List.length].
    rewrite mul_item_tokens_length. lia. }
  destruct (8 * List.length ts + 8) as [|n] eqn:E; [lia|].
  unfold ts, expression_tokens. cbn [p_sum].
  rewrite p_term_tokens by (try lia; apply sum_next_add_items; reflexivity).
  rewrite p_sum_rest_items by lia.
  reflexivity.
Qed.

(** What [fits] asks of an expression. *)
Lemma fits_inv I e :
  fits I e = true ->
  term_fits I (first_term e) = true /\
  forallb (fun it : add_item => term_fits I (snd it)) (more_terms e) = true /\
  Bounded.height (expression_tree e) <= Bounded.ast_depth I /\
  Bounded.height (expression_tree e) <= Bounded.call_depth I.
Proof.
  unfold fits. intros H.
  apply andb_true_iff in H. destruct H as [H H4].
  apply andb_true_iff in H. destruct H as [H H3].
  apply andb_true_iff in H. destruct H as [H1 H2].
  apply Nat.leb_le in H3. apply Nat.leb_le in H4. auto.
Qed.

Lemma ast_parse_render I e :
  well_formed e = true -> fits I e = true ->
  Bounded.ast_parse I (render e) = Ok (expression_tree e).
Proof.
  intros H Hfit. destruct (fits_inv I e Hfit) as (H1 & H2 & H3 & _).
  unfold Bounded.ast_parse. rewrite (tokenize_render I e H H1 H2). cbn [Py.bind].
  rewrite parse_expression_tokens. cbn [Py.bind].
  apply Nat.leb_le in H3. rewrite H3. reflexivity.
Qed.

(** ** The value of integer expressions *)


Lemma eval_int_literal l :
  is_int_literal l = true ->
  _eval (Constant (literal_value l)) = Ok (PyInt (int_literal_value l)).
Proof. destruct l; [reflexivity|discriminate]. Qed.

Lemma eval_int_term_from items : forall acc v,
  _eval acc = Ok (PyInt v) ->
  forallb (fun it : mul_item =>
             is_int_literal (snd it) &&
             match snd (fst (fst it)) with Times => true | Divide => false end)
          items = true ->
  _eval (term_tree_from acc items) =
  Ok (PyInt (fold_left (fun a (it : mul_item) => (a * int_literal_value (snd it))%Z) items v)).
Proof.
  induction items as [|[[[a op] b] l] items IH]; intros acc v Hacc Hok.
  - exact Hacc.
  - cbn in Hok. apply andb_true_iff in Hok. destruct Hok as [Hit Hitems].
    apply andb_true_iff in Hit. destruct Hit as [Hl Hop].
    destruct op; [|discriminate].
    unfold term_tree_from. cbn [fold_left fst snd mulop_node].
    apply IH; [|assumption].
    rewrite eval_BinOp. cbn [ALLOWED_OPS]. rewrite Hacc, (eval_int_literal l Hl).
    reflexivity.
Qed.

Lemma eval_int_term t :
  int_only_term t = true -> _eval (term_tree t) = Ok (PyInt (int_term t)).
Proof.
  unfold int_only_term. intros H. apply andb_true_iff in H. destruct H as [Hl Hitems].
  unfold term_tree, int_term. apply eval_int_term_from; [|assumption].
  apply eval_int_literal; assumption.
Qed.

Lemma eval_int_sum_from items : forall acc v,
  _eval acc = Ok (PyInt v) ->
  forallb (fun it : add_item => int_only_term (snd it)) items = true ->
  _eval (sum_tree_from acc items) =
  Ok (PyInt (fold_left (fun a (it : add_item) =>
                          match snd (fst (fst it)) with
                          | Plus => (a + int_term (snd it))%Z
                          | Minus => (a - int_term (snd it))%Z
                          end) items v)).
Proof.
  induction items as [|[[[a op] b] t] items IH]; intros acc v Hacc Hok.
  - exact Hacc.
  - cbn in Hok. apply andb_true_iff in Hok. destruct Hok as [Ht Hitems].
    unfold sum_tree_from. cbn [fold_left fst snd].
    apply IH; [|assumption].
    rewrite eval_BinOp.
    destruct op; cbn [addop_node ALLOWED_OPS]; rewrite Hacc, (eval_int_term t Ht); reflexivity.
Qed.

Lemma eval_int_expression e :
  int_only e = true -> _eval (expression_tree e) = Ok (PyInt (int_value e)).
Proof.
  unfold int_only. intros H. apply andb_true_iff in H. destruct H as [Ht Hitems].
  unfold expression_tree, int_value. apply eval_int_sum_from; [|assumption].
  apply eval_int_term; assumption.
Qed.

(** C2, as stated, fails: an integer with a leading zero is a syntax
    error, so [07+1] has no value; and a sum of floats is rounded, so
    [0.1 + 0.2] is not the float of [0.3]. *)
Lemma leading_zero_and_rounding :
  normalize_math "07+1" = "07+1" /\
  safe_eval ast_parse "07+1" = Raise SyntaxError /\
  try_math ast_parse no_float_repr no_complex_repr "07+1" = None /\
  safe_eval ast_parse "0.1 + 0.2" = Ok (PyFloat (S754_finite false 5404319552844596 (-54))) /\
  safe_eval ast_parse "0.3" = Ok (PyFloat (S754_finite false 5404319552844595 (-54))).
Proof. vm_compute. repeat split. Qed.


(** ** The evaluator within its recursion limit *)

Lemma height_positive node : 1 <= Bounded.height node.
Proof. destruct node; cbn; lia. Qed.

(** With room for the whole tree, the limit changes nothing. *)
Lemma eval_within n : forall node,
  Bounded.height node <= n -> Bounded._eval n node = _eval node.
Proof.
  induction n as [|n IH]; intros node H.
  - pose proof (height_positive node). lia.
  - destruct node; try reflexivity.
    cbn [Bounded.height] in H. cbn [Bounded._eval as_Num]. rewrite eval_BinOp.
    destruct (ALLOWED_OPS op); [|reflexivity].
    rewrite !IH by lia. reflexivity.
Qed.

(** The limit only takes values away. *)
Lemma eval_within_ok n : forall node v,
  Bounded._eval n node = Ok v -> _eval node = Ok v.
Proof.
  induction n as [|n IH]; intros node v H; [discriminate|].
  destruct node; try exact H.
  cbn [Bounded._eval as_Num] in H. rewrite eval_BinOp.
  destruct (ALLOWED_OPS op) as [f|]; [|discriminate].
  apply bind_ok_inv in H. destruct H as [a [Ha H]].
  apply bind_ok_inv in H. destruct H as [b [Hb H]].
  rewrite (IH _ _ Ha), (IH _ _ Hb). exact H.
Qed.


(** Whatever [try_math] answers within the limits, it answers without
    them. *)
Lemma try_math_within_limits I parse fr cr text reply :
  Bounded.try_math I parse fr cr text = Some reply ->
  try_math parse fr cr text = Some reply.
Proof.
  unfold Bounded.try_math, Bounded.try_math_as, try_math.
  destruct (negb (search math_cue (lower text))); [discriminate|].
  unfold Bounded.safe_eval, safe_eval.
  destruct (parse (math_text (lower text))) as [tree|]; [|discriminate]. cbn [Py.bind].
  destruct (Bounded._eval (Bounded.call_depth I) tree) as [v|] eqn:E; [|discriminate].
  rewrite (eval_within_ok _ _ _ E). cbn [Py.bind].
  unfold Bounded.format_result, Bounded.str_int, format_result.
  destruct v as [n|f|re im].
  - destruct (Bounded.exceeds _ _); [discriminate|]. intros H. exact H.
  - destruct (float_integral f) as [n|]; [|intros H; exact H].
    destruct (Bounded.exceeds _ _); [discriminate|]. intros H. exact H.
  - intros H. exact H.
Qed.

(** ** The evaluator and the reference evaluator *)

Lemma shown_ok r v : shown r = Ok v -> exists q, r = Ok q /\ v = number_of q.
Proof. destruct r as [q|]; cbn; intros H; inversion H; eauto. Qed.

Lemma py_add_ref a b : py_add (number_of a) (number_of b) = shown (ref_add a b).
Proof.
  destruct a as [x|f], b as [y|g]; try reflexivity;
    unfold py_add, arith, ref_add, in_floats, shown; cbn;
    repeat match goal with
           | |- context [float_of_int ?n] => destruct (float_of_int n); cbn
           end; reflexivity.
Qed.

Lemma py_sub_ref a b : py_sub (number_of a) (number_of b) = shown (ref_sub a b).
Proof.
  destruct a as [x|f], b as [y|g]; try reflexivity;
    unfold py_sub, arith, ref_sub, in_floats, shown; cbn;
    repeat match goal with
           | |- context [float_of_int ?n] => destruct (float_of_int n); cbn
           end; reflexivity.
Qed.

Lemma py_mul_ref a b : py_mul (number_of a) (number_of b) = shown (ref_mul a b).
Proof.
  destruct a as [x|f], b as [y|g]; try reflexivity;
    unfold py_mul, arith, ref_mul, in_floats, shown; cbn;
    repeat match goal with
           | |- context [float_of_int ?n] => destruct (float_of_int n); cbn
           end; reflexivity.
Qed.

Lemma py_truediv_ref a b : py_truediv (number_of a) (number_of b) = shown (ref_div a b).
Proof.
  destruct a as [x|f], b as [y|g];
    unfold py_truediv, arith, ref_div, in_floats, shown; cbn;
    repeat match goal with
           | |- context [float_of_int ?n] => destruct (float_of_int n); cbn
           | |- context [(?y =? 0)%Z] => destruct (y =? 0)%Z; cbn
           | |- context [finite_or_overflow ?f] => destruct (finite_or_overflow f); cbn
           | |- context [float_is_zero ?f] => destruct (float_is_zero f); cbn
           end; reflexivity.
Qed.

Lemma mulop_ref op a b :
  match ALLOWED_OPS (mulop_node op) with
  | Some f => f (number_of a) (number_of b) = shown (ref_mulop op a b)
  | None => False
  end.
Proof. destruct op; cbn; [apply py_mul_ref|apply py_truediv_ref]. Qed.

Lemma addop_ref op a b :
  match ALLOWED_OPS (addop_node op) with
  | Some f => f (number_of a) (number_of b) = shown (ref_addop op a b)
  | None => False
  end.
Proof. destruct op; cbn; [apply py_add_ref|apply py_sub_ref]. Qed.

Lemma eval_literal l :
  _eval (Constant (literal_value l)) = Ok (number_of (literal_quantity l)).
Proof. destruct l; reflexivity. Qed.

Lemma eval_term_from items : forall acc r,
  _eval acc = shown r ->
  _eval (term_tree_from acc items) = shown (term_value_from r items).
Proof.
  induction items as [|[[[a op] b] l] items IH]; intros acc r Hacc.
  - exact Hacc.
  - unfold term_tree_from, term_value_from. cbn [fold_left fst snd].
    apply IH. rewrite eval_BinOp. pose proof (mulop_ref op) as Hop.
    destruct (ALLOWED_OPS (mulop_node op)) as [f|]; [|destruct (Hop (Exact 0) (Exact 0))].
    rewrite Hacc, eval_literal. destruct r as [q|e]; cbn; [apply Hop|reflexivity].
Qed.

Lemma eval_term t : _eval (term_tree t) = shown (term_value t).
Proof. unfold term_tree, term_value. apply eval_term_from, eval_literal. Qed.

Lemma eval_sum_from items : forall acc r,
  _eval acc = shown r ->
  _eval (sum_tree_from acc items) = shown (value_from r items).
Proof.
  induction items as [|[[[a op] b] t] items IH]; intros acc r Hacc.
  - exact Hacc.
  - unfold sum_tree_from, value_from. cbn [fold_left fst snd].
    apply IH. rewrite eval_BinOp. pose proof (addop_ref op) as Hop.
    destruct (ALLOWED_OPS (addop_node op)) as [f|]; [|destruct (Hop (Exact 0) (Exact 0))].
    rewrite Hacc, eval_term. destruct r as [q|e]; cbn; [|reflexivity].
    destruct (term_value t) as [q'|e']; cbn; [apply Hop|reflexivity].
Qed.

(** The evaluator walks the tree in the order of the reference
    evaluator and computes what it computes. *)
Lemma eval_expression e : _eval (expression_tree e) = shown (value_of e).
Proof. unfold expression_tree, value_of. apply eval_sum_from, eval_term. Qed.

(** A float, once a float or a division is involved. *)
Lemma in_floats_rounded op a b q : in_floats op a b = Ok q -> is_rounded q = true.
Proof.
  unfold in_floats. destruct (rounded a); [|discriminate].
  destruct (rounded b); [|discriminate]. cbn.
  destruct (op _ _); cbn; intros H; inversion H. reflexivity.
Qed.

Lemma ref_mulop_rounded op a b q :
  ref_mulop op a b = Ok q ->
  is_rounded a || is_rounded b ||
    match op with Times => false | Divide => true end = true ->
  is_rounded q = true.
Proof.
  destruct op, a as [x|f], b as [y|g];
    unfold ref_mulop, ref_mul, ref_div; cbn [is_rounded orb];
    intros H Hr; try discriminate Hr;
    try (apply (in_floats_rounded _ _ _ _ H)).
  destruct (y =? 0)%Z; [discriminate|].
  destruct (finite_or_overflow _); cbn in H; inversion H. reflexivity.
Qed.

Lemma ref_addop_rounded op a b q :
  ref_addop op a b = Ok q -> is_rounded a || is_rounded b = true -> is_rounded q = true.
Proof.
  destruct op, a as [x|f], b as [y|g];
    unfold ref_addop, ref_add, ref_sub; cbn [is_rounded orb];
    intros H Hr; try discriminate Hr;
    apply (in_floats_rounded _ _ _ _ H).
Qed.

Lemma term_value_from_raise items e : term_value_from (Raise e) items = Raise e.
Proof. induction items as [|it items IH]; [reflexivity|]. exact IH. Qed.

Lemma value_from_raise items e : value_from (Raise e) items = Raise e.
Proof. induction items as [|it items IH]; [reflexivity|]. exact IH. Qed.

Lemma literal_quantity_rounded l :
  is_rounded (literal_quantity l) = negb (is_int_literal l).
Proof. destruct l; reflexivity. Qed.

Lemma term_value_from_rounded items : forall acc q,
  term_value_from acc items = Ok q ->
  (exists a, acc = Ok a /\ is_rounded a = true) \/
  forallb (fun it : mul_item =>
             is_int_literal (snd it) &&
             match snd (fst (fst it)) with Times => true | Divide => false end)
          items = false ->
  is_rounded q = true.
Proof.
  induction items as [|[[[a op] b] l] items IH]; intros acc q H Hr.
  - destruct Hr as [[x [-> Hx]]|Hr]; [|discriminate].
    inversion H; subst. exact Hx.
  - unfold term_value_from in H. cbn [fold_left fst snd] in H.
    fold (term_value_from (Py.bind acc (fun x => ref_mulop op x (literal_quantity l))) items) in H.
    destruct acc as [x|e]; [|cbn in H; rewrite term_value_from_raise in H; discriminate].
    cbn [Py.bind] in H.
    destruct (ref_mulop op x (literal_quantity l)) as [q'|e'] eqn:E;
      [|rewrite term_value_from_raise in H; discriminate].
    apply (IH _ _ H).
    destruct Hr as [[x' [Hx' Hx]]|Hr].
    + inversion Hx'; subst x'. left. exists q'. split; [reflexivity|].
      apply (ref_mulop_rounded _ _ _ _ E). rewrite Hx. reflexivity.
    + cbn [forallb fst snd] in Hr. apply andb_false_iff in Hr. destruct Hr as [Hr|Hr].
      * left. exists q'. split; [reflexivity|].
        apply (ref_mulop_rounded _ _ _ _ E). rewrite literal_quantity_rounded.
        destruct (is_int_literal l), op, x; cbn in Hr |- *;
          first [discriminate | reflexivity].
      * right. exact Hr.
Qed.

Lemma term_value_rounded t q :
  term_value t = Ok q -> int_only_term t = false -> is_rounded q = true.
Proof.
  unfold term_value, int_only_term. intros H Hr.
  apply (term_value_from_rounded _ _ _ H).
  apply andb_false_iff in Hr. destruct Hr as [Hr|Hr]; [|right; exact Hr].
  left. eexists. split; [reflexivity|]. rewrite literal_quantity_rounded, Hr. reflexivity.
Qed.

Lemma value_from_rounded items : forall acc q,
  value_from acc items = Ok q ->
  (exists a, acc = Ok a /\ is_rounded a = true) \/
  forallb (fun it : add_item => int_only_term (snd it)) items = false ->
  is_rounded q = true.
Proof.
  induction items as [|[[[a op] b] t] items IH]; intros acc q H Hr.
  - destruct Hr as [[x [-> Hx]]|Hr]; [|discriminate].
    inversion H; subst. exact Hx.
  - unfold value_from in H. cbn [fold_left fst snd] in H.
    fold (value_from (Py.bind acc (fun x => Py.bind (term_value t)
                                    (fun y => ref_addop op x y))) items) in H.
    destruct acc as [x|e]; [|cbn in H; rewrite value_from_raise in H; discriminate].
    cbn [Py.bind] in H.
    destruct (term_value t) as [y|e'] eqn:Et;
      [|cbn in H; rewrite value_from_raise in H; discriminate].
    cbn [Py.bind] in H.
    destruct (ref_addop op x y) as [q'|e'] eqn:E;
      [|rewrite value_from_raise in H; discriminate].
    apply (IH _ _ H).
    destruct Hr as [[x' [Hx' Hx]]|Hr].
    + inversion Hx'; subst x'. left. exists q'. split; [reflexivity|].
      apply (ref_addop_rounded _ _ _ _ E). rewrite Hx. reflexivity.
    + cbn [forallb fst snd] in Hr. apply andb_false_iff in Hr. destruct Hr as [Hr|Hr].
      * left. exists q'. split; [reflexivity|].
        apply (ref_addop_rounded _ _ _ _ E).
        rewrite (term_value_rounded _ _ Et Hr). apply orb_true_r.
      * right. exact Hr.
Qed.

Lemma value_of_rounded e q :
  value_of e = Ok q -> int_only e = false -> is_rounded q = true.
Proof.
  unfold value_of, int_only. intros H Hr.
  apply (value_from_rounded _ _ _ H).
  apply andb_false_iff in Hr. destruct Hr as [Hr|Hr]; [|right; exact Hr].
  destruct (term_value (first_term e)) as [x|e'] eqn:Et;
    [|rewrite value_from_raise in H; discriminate].
  left. exists x. split; [reflexivity|]. apply (term_value_rounded _ _ Et Hr).
Qed.

Lemma safe_eval_render I e :
  well_formed e = true -> fits I e = true ->
  Bounded.safe_eval I (Bounded.ast_parse I) (render e) = _eval (expression_tree e).
Proof.
  intros Hwf Hfit. unfold Bounded.safe_eval.
  rewrite (ast_parse_render I e Hwf Hfit). cbn [Py.bind].
  apply eval_within. apply (fits_inv I e Hfit).
Qed.

(** C2, amended. For every expression written with Python's decimal
    literals (an integer has no superfluous leading zero), the four
    operators and any number of blanks between the tokens and at the end,
    that the interpreter has room for (no integer literal beyond the
    digit limit, a tree within the recursion limits): [ast.parse] yields
    the tree of standard precedence, grouped to the left, and [safe_eval]
    returns or raises what the reference evaluator does, which computes
    exactly on integers and in binary64, rounding once per operation, from
    the first float literal or division on.  Over integer literals with
    [+], [-] and [*] the result is the exact integer the expression
    denotes; with a float literal or a division, a result is a float. *)
Theorem safe_eval_of_valid_expression :
  forall (I : Bounded.interpreter) (e : expression),
    well_formed e = true ->
    fits I e = true ->
    Bounded.ast_parse I (render e) = Ok (expression_tree e) /\
    Bounded.safe_eval I (Bounded.ast_parse I) (render e) = shown (value_of e) /\
    (int_only e = true ->
     Bounded.safe_eval I (Bounded.ast_parse I) (render e) = Ok (PyInt (int_value e))) /\
    (int_only e = false ->
     forall v, Bounded.safe_eval I (Bounded.ast_parse I) (render e) = Ok v ->
               exists f, v = PyFloat f).
Proof.
  intros I e Hwf Hfit. pose proof (safe_eval_render I e Hwf Hfit) as Hs.
  split; [apply ast_parse_render; assumption|].
  split; [rewrite Hs; apply eval_expression|].
  split.
  - intros Hi. rewrite Hs. apply eval_int_expression; assumption.
  - intros Hi v Hv. rewrite Hs, eval_expression in Hv.
    apply shown_ok in Hv. destruct Hv as [q [Hq ->]].
    pose proof (value_of_rounded e q Hq Hi) as Hr.
    destruct q as [n|f]; [discriminate|]. exists f. reflexivity.
Qed.

Lemma safe_eval_of_valid_expression_witness :
  Bounded.ast_parse sample_interpreter (render sample_quotient)
  = Ok (expression_tree sample_quotient) /\
  Bounded.safe_eval sample_interpreter (Bounded.ast_parse sample_interpreter)
                    (render sample_quotient)
  = shown (value_of sample_quotient) /\
  (int_only sample_quotient = true ->
   Bounded.safe_eval sample_interpreter (Bounded.ast_parse sample_interpreter)
                     (render sample_quotient)
   = Ok (PyInt (int_value sample_quotient))) /\
  (int_only sample_quotient = false ->
   forall v, Bounded.safe_eval sample_interpreter (Bounded.ast_parse sample_interpreter)
                               (render sample_quotient) = Ok v ->
             exists f, v = PyFloat f).
Proof.
  apply (safe_eval_of_valid_expression sample_interpreter sample_quotient); reflexivity.
Defined.

(** ** The exception of a division by zero *)










(** ** The parser never runs out of fuel *)

Ltac break_match H :=
  repeat match type of H with
         | context [match ?x with _ => _ end] =>
             let E := fresh "E" in destruct x eqn:E; try discriminate
         end.

Lemma parse_shrinks : forall n,
  (forall ts, shrinks (p_sum n ts) ts) /\
  (forall l ts, shrinks (p_sum_rest n l ts) ts) /\
  (forall ts, shrinks (p_term n ts) ts) /\
  (forall l ts, shrinks (p_term_rest n l ts) ts) /\
  (forall ts, shrinks (p_factor n ts) ts) /\
  (forall ts, shrinks (p_power n ts) ts) /\
  (forall ts, shrinks (p_primary n ts) ts) /\
  (forall f ts, shrinks (p_trailers n f ts) ts) /\
  (forall ts, shrinks (p_atom n ts) ts).
Proof.
  induction n as [|n IH].
  - unfold shrinks. repeat split; intros; discriminate.
  - destruct IH as (Hsum & Hsumr & Hterm & Htermr & Hfac & Hpow & Hprim & Htr & Hatom).
    unfold shrinks in *.
    repeat split; intros;
      match goal with H : _ = Some (Ok _) |- _ => rename H into Hp end;
      cbn in Hp; break_match Hp;
      repeat match goal with
        | E : p_sum n _ = Some (Ok (_, _)) |- _ => apply Hsum in E
        | E : p_term n _ = Some (Ok (_, _)) |- _ => apply Hterm in E
        | E : p_factor n _ = Some (Ok (_, _)) |- _ => apply Hfac in E
        | E : p_power n _ = Some (Ok (_, _)) |- _ => apply Hpow in E
        | E : p_primary n _ = Some (Ok (_, _)) |- _ => apply Hprim in E
        | E : p_atom n _ = Some (Ok (_, _)) |- _ => apply Hatom in E
        end;
      try (apply Hsumr in Hp); try (apply Htermr in Hp); try (apply Htr in Hp);
      try (apply Hfac in Hp); try (apply Hpow in Hp);
      try (unfold expect_rpar in Hp; break_match Hp);
      try (inversion Hp; subst); cbn [List.length] in *; try lia.
Qed.

Ltac use_shrinks n :=
  let S := fresh "S" in
  pose proof (parse_shrinks n) as S; unfold shrinks in S;
  destruct S as (Ssum & Ssumr & Sterm & Stermr & Sfac & Spow & Sprim & Str & Satom);
  repeat match goal with
    | E : p_sum n _ = Some (Ok (_, _)) |- _ => apply Ssum in E
    | E : p_term n _ = Some (Ok (_, _)) |- _ => apply Sterm in E
    | E : p_factor n _ = Some (Ok (_, _)) |- _ => apply Sfac in E
    | E : p_power n _ = Some (Ok (_, _)) |- _ => apply Spow in E
    | E : p_primary n _ = Some (Ok (_, _)) |- _ => apply Sprim in E
    | E : p_atom n _ = Some (Ok (_, _)) |- _ => apply Satom in E
    end.

Lemma parse_fuel_enough : forall n,
  (forall ts, 8 * List.length ts + 6 <= n -> p_sum n ts <> None) /\
  (forall l ts, 8 * List.length ts + 1 <= n -> p_sum_rest n l ts <> None) /\
  (forall ts, 8 * List.length ts + 5 <= n -> p_term n ts <> None) /\
  (forall l ts, 8 * List.length ts + 1 <= n -> p_term_rest n l ts <> None) /\
  (forall ts, 8 * List.length ts + 4 <= n -> p_factor n ts <> None) /\
  (forall ts, 8 * List.length ts + 3 <= n -> p_power n ts <> None) /\
  (forall ts, 8 * List.length ts + 2 <= n -> p_primary n ts <> None) /\
  (forall f ts, 8 * List.length ts + 1 <= n -> p_trailers n f ts <> None) /\
  (forall ts, 8 * List.length ts + 1 <= n -> p_atom n ts <> None).
Proof.
  induction n as [|n IH].
  - repeat split; intros; lia.
  - destruct IH as (Hsum & Hsumr & Hterm & Htermr & Hfac & Hpow & Hprim & Htr & Hatom).
    repeat split; intros; cbn;
      repeat match goal with
        | |- context [match ?x with _ => _ end] =>
            let E := fresh "E" in destruct x eqn:E
        end;
      try discriminate; cbn [List.length] in *;
      try (use_shrinks n; cbn [List.length] in *;
           solve [ apply Hsumr; cbn [List.length]; lia
                 | apply Htermr; cbn [List.length]; lia
                 | apply Htr; cbn [List.length]; lia
                 | apply Hfac; cbn [List.length]; lia
                 | apply Hpow; cbn [List.length]; lia ]);
      exfalso;
      match goal with
      | E : p_sum n _ = None |- _ => apply Hsum in E
      | E : p_term n _ = None |- _ => apply Hterm in E
      | E : p_factor n _ = None |- _ => apply Hfac in E
      | E : p_power n _ = None |- _ => apply Hpow in E
      | E : p_primary n _ = None |- _ => apply Hprim in E
      | E : p_atom n _ = None |- _ => apply Hatom in E
      | E : p_sum_rest n _ _ = None |- _ => apply Hsumr in E
      | E : p_term_rest n _ _ = None |- _ => apply Htermr in E
      | E : p_trailers n _ _ = None |- _ => apply Htr in E
      end; cbn [List.length] in *; try assumption;
      try (use_shrinks n; cbn [List.length] in *; lia).
Qed.

Lemma parse_tokens_total ts : p_sum (parse_fuel ts) ts <> None.
Proof.
  apply (parse_fuel_enough (parse_fuel ts)). unfold parse_fuel. lia.
Qed.

(* ================================================================== *)
(** * Further properties of the two servers *)
(* ================================================================== *)

(** ** The text the evaluator receives *)

(** X1. Whatever the utterance, the text that [try_math] hands to
    [safe_eval] consists of digits, the characters [+ - * / .] and
    spaces only, and carries no whitespace at either end. *)
Theorem normalized_text_alphabet :
  forall x : string,
    forall_chars math_char (normalize_math x) = true /\
    strip (normalize_math x) = normalize_math x.
Proof.
  intros x. split.
  - apply math_text_all.
  - unfold normalize_math, math_text. apply strip_idem.
Qed.

(** X2. A text that is already made of digits, the characters
    [+ - * / .] and spaces passes through the word replacements and the
    character filter unchanged: only its ends are trimmed. *)
Theorem symbolic_text_is_kept :
  forall s : string,
    forall_chars math_char s = true -> normalize_math s = strip s.
Proof.
  intros s H. unfold normalize_math. rewrite (lower_math s H).
  apply math_text_fixed; assumption.
Qed.

Lemma symbolic_text_is_kept_witness :
  normalize_math " 12 * 3.5 - 4/2 " = strip " 12 * 3.5 - 4/2 ".
Proof. apply (symbolic_text_is_kept " 12 * 3.5 - 4/2 "). reflexivity. Defined.

(** ** The text the intent rules receive *)

Lemma lower_char_idem c : lower_char (lower_char c) = lower_char c.
Proof. destruct c as [[] [] [] [] [] [] [] []]; vm_compute; reflexivity. Qed.

Lemma lower_is_lowered s : forall_chars is_lowered (lower s) = true.
Proof.
  induction s as [|c s IH]; simpl; [reflexivity|].
  unfold is_lowered at 1. rewrite lower_char_idem, Ascii.eqb_refl. exact IH.
Qed.

Lemma lowered_fixed s : forall_chars is_lowered s = true -> lower s = s.
Proof.
  induction s as [|c s IH]; simpl; intros H; [reflexivity|].
  apply andb_true_iff in H. destruct H as [Hc Hs].
  unfold is_lowered in Hc. apply Ascii.eqb_eq in Hc. rewrite Hc, IH; auto.
Qed.

Lemma filter_chars_keeps q p s :
  forall_chars q s = true -> forall_chars q (filter_chars p s) = true.
Proof.
  induction s as [|c s IH]; simpl; intros H; [reflexivity|].
  apply andb_true_iff in H. destruct H as [Hc Hs].
  destruct (p c); simpl; [rewrite Hc|]; auto.
Qed.

Lemma normalize_intent_filter x :
  normalize_intent x = filter_chars word_or_space (strip (lower x)).
Proof.
  unfold normalize_intent, Re.sub, not_word_or_space. rewrite sub_class_delete.
  apply filter_chars_ext. intros c. apply negb_involutive.
Qed.

(** X3. [normalize_intent] returns word characters and whitespace only,
    all lowercased.  It trims before it deletes the punctuation, so its
    result may still end in a blank: normalizing a second time only trims
    the result of the first. *)
Theorem normalize_intent_twice :
  forall x : string,
    forall_chars word_or_space (normalize_intent x) = true /\
    lower (normalize_intent x) = normalize_intent x /\
    normalize_intent (normalize_intent x) = strip (normalize_intent x).
Proof.
  intros x.
  assert (Hws : forall_chars word_or_space (normalize_intent x) = true).
  { rewrite normalize_intent_filter. apply filter_chars_all. }
  assert (Hlow : lower (normalize_intent x) = normalize_intent x).
  { apply lowered_fixed. rewrite normalize_intent_filter.
    apply filter_chars_keeps, strip_all, lower_is_lowered. }
  repeat split; try assumption.
  rewrite (normalize_intent_filter (normalize_intent x)), Hlow.
  apply filter_chars_id, strip_all. assumption.
Qed.

(** ** The generative backend *)

(** X4. A reply that [ollama_reply] returns, in either server, has no
    whitespace at its ends. *)
Theorem ollama_reply_is_trimmed :
  forall backend prompt reply,
    ollama_reply backend prompt = Ok reply \/
    AiServer2.ollama_reply backend prompt = Ok reply ->
    strip reply = reply.
Proof.
  intros backend prompt reply [H|H];
    [unfold ollama_reply in H | unfold AiServer2.ollama_reply in H];
    apply bind_ok_inv in H; destruct H as [response [_ H]];
    apply bind_ok_inv in H; destruct H as [message [_ H]];
    apply bind_ok_inv in H; destruct H as [content [_ H]];
    destruct content; try discriminate; inversion H; apply strip_idem.
Qed.

Lemma ollama_reply_is_trimmed_witness : strip "Hello there." = "Hello there.".
Proof.
  apply (ollama_reply_is_trimmed (backend_says "  Hello there. ") "hello" "Hello there.").
  left. reflexivity.
Defined.

(** X5. What [ollama_reply] does with the response of the backend: a
    response that is no object, or whose [message] is no object, raises
    [TypeError]; a missing [message] or [content] raises [KeyError]; a
    [content] that is no string raises [AttributeError]; otherwise the
    content is returned, trimmed. *)
Theorem ollama_reply_malformed_response :
  forall backend prompt response,
    backend OLLAMA_MODEL [("system", system_prompt); ("user", prompt)] = Ok response ->
    ollama_reply backend prompt =
    match response with
    | JObj fields =>
        match lookup "message" fields with
        | None => Raise KeyError
        | Some (JObj inner) =>
            match lookup "content" inner with
            | None => Raise KeyError
            | Some (JStr s) => Ok (strip s)
            | Some _ => Raise AttributeError
            end
        | Some _ => Raise TypeError
        end
    | _ => Raise TypeError
    end.
Proof.
  intros backend prompt response H. unfold ollama_reply. rewrite H. simpl.
  destruct response; try reflexivity. simpl.
  destruct (lookup "message" fields) as [m|]; [|reflexivity]. simpl.
  destruct m; try reflexivity. simpl.
  destruct (lookup "content" fields0) as [c|]; [|reflexivity]. simpl.
  destruct c; reflexivity.
Qed.

Lemma ollama_reply_malformed_response_witness :
  ollama_reply (backend_returns (JObj [("error", JStr "model not found")])) "hello"
  = Raise KeyError.
Proof.
  apply (ollama_reply_malformed_response
           (backend_returns (JObj [("error", JStr "model not found")])) "hello"
           (JObj [("error", JStr "model not found")])).
  reflexivity.
Defined.

(** ** The orchestrator on requests of the wrong type *)

(** X6. A request whose JSON body is a truthy value other than an object,
    or an object whose [text] is not a string, makes [ask] raise
    [AttributeError] in both servers: nothing is printed and no reply is
    returned. *)
Theorem ill_typed_request_raises :
  forall parse fr cr clock backend body,
    ill_typed body ->
    ask parse fr cr clock backend body = crash AttributeError /\
    AiServer2.ask parse fr cr clock backend body = crash AttributeError.
Proof.
  intros parse fr cr clock backend body [[j [-> [Ht Ho]]]|[fields [v [-> [Hl Hs]]]]].
  - unfold ask, AiServer2.ask. rewrite Ht.
    destruct j; try discriminate; split; reflexivity.
  - unfold ask, AiServer2.ask.
    assert (Ht : truthy (JObj fields) = true).
    { destruct fields; [discriminate|reflexivity]. }
    rewrite Ht. unfold get. rewrite Hl. simpl.
    destruct v; try discriminate; split; reflexivity.
Qed.

Lemma ill_typed_request_raises_witness :
  ask ast_parse no_float_repr no_complex_repr frozen_clock backend_down
      (Some (JObj [("text", JInt 42)])) = crash AttributeError /\
  AiServer2.ask ast_parse no_float_repr no_complex_repr frozen_clock backend_down
      (Some (JObj [("text", JInt 42)])) = crash AttributeError.
Proof.
  apply (ill_typed_request_raises ast_parse no_float_repr no_complex_repr
           frozen_clock backend_down (Some (JObj [("text", JInt 42)]))).
  right. exists [("text", JInt 42)], (JInt 42). repeat split.
Defined.

(** ** The console *)

Lemma write_run I piece out :
  Bounded.write I piece out =
  if Bounded.printable I piece then (out ++ piece, Ok tt)
  else (out, Raise UnicodeEncodeError).
Proof. reflexivity. Qed.

(** The fixed pieces of the log are ASCII, which every console encodes. *)
Lemma printable_ascii I s : forall_chars is_ascii s = true -> Bounded.printable I s = true.
Proof.
  unfold Bounded.printable. induction s as [|c s IH]; cbn; intros H; [reflexivity|].
  apply andb_true_iff in H. destruct H as [Hc Hs].
  unfold Bounded.encodable at 1. unfold is_ascii in Hc. rewrite Hc, IH by assumption.
  reflexivity.
Qed.

Lemma and_then_write {A : Type} I piece (k : unit -> Bounded.console A) out :
  Bounded.printable I piece = true ->
  Bounded.and_then (Bounded.write I piece) k out = k tt (out ++ piece).
Proof. intros H. unfold Bounded.and_then. rewrite write_run, H. reflexivity. Qed.

Lemma and_then_refused {A : Type} I piece (k : unit -> Bounded.console A) out :
  Bounded.printable I piece = false ->
  Bounded.and_then (Bounded.write I piece) k out = (out, Raise UnicodeEncodeError).
Proof. intros H. unfold Bounded.and_then. rewrite write_run, H. reflexivity. Qed.

(** [print(a, b)] with [a] one of the fixed labels. *)
Lemma print2_run I a b out :
  forall_chars is_ascii a = true ->
  Bounded.print2 I a b out =
  if Bounded.printable I b then (out ++ a ++ " " ++ b ++ nl, Ok tt)
  else (out ++ a ++ " ", Raise UnicodeEncodeError).
Proof.
  intros Ha. unfold Bounded.print2.
  rewrite and_then_write by (apply printable_ascii; exact Ha).
  rewrite and_then_write by (apply printable_ascii; reflexivity).
  destruct (Bounded.printable I b) eqn:Hb.
  - rewrite and_then_write by exact Hb.
    rewrite write_run, (printable_ascii I nl eq_refl).
    rewrite !append_assoc. reflexivity.
  - rewrite and_then_refused by exact Hb. rewrite !append_assoc. reflexivity.
Qed.

Lemma print1_run I a out :
  forall_chars is_ascii a = true ->
  Bounded.print1 I a out = (out ++ a ++ nl, Ok tt).
Proof.
  intros Ha. unfold Bounded.print1.
  rewrite and_then_write by (apply printable_ascii; exact Ha).
  rewrite write_run, (printable_ascii I nl eq_refl).
  rewrite !append_assoc. reflexivity.
Qed.

(** The three [print] calls of [ai_server.py], from any state of the
    console. *)
Lemma respond_run I user_text reply out :
  Bounded.respond I user_text reply out =
  if Bounded.printable I user_text then
    if Bounded.printable I reply then
      (out ++ Bounded.transcript user_text reply, Ok reply)
    else (out ++ "USER : " ++ user_text ++ nl ++ "AARYA: ", Raise UnicodeEncodeError)
  else (out ++ "USER : ", Raise UnicodeEncodeError).
Proof.
  unfold Bounded.respond. unfold Bounded.and_then at 1.
  rewrite print2_run by reflexivity.
  destruct (Bounded.printable I user_text); [|reflexivity].
  unfold Bounded.and_then at 1. rewrite print2_run by reflexivity.
  destruct (Bounded.printable I reply).
  - unfold Bounded.and_then. rewrite print1_run by reflexivity.
    unfold Bounded.ret, Bounded.transcript. rewrite !append_assoc. reflexivity.
  - rewrite !append_assoc. reflexivity.
Qed.

Lemma perform_respond I user_text reply :
  Bounded.perform (Bounded.respond I user_text reply) = printed I user_text reply.
Proof.
  unfold Bounded.perform, printed. rewrite respond_run.
  destruct (Bounded.printable I user_text); [|reflexivity].
  destruct (Bounded.printable I reply); reflexivity.
Qed.

Lemma printed_returned I user_text reply :
  Bounded.returned (printed I user_text reply) =
  if Bounded.printable I user_text && Bounded.printable I reply
  then Ok reply else Raise UnicodeEncodeError.
Proof.
  unfold printed. destruct (Bounded.printable I user_text); [|reflexivity].
  destruct (Bounded.printable I reply); reflexivity.
Qed.

(** [ask] of [ai_server.py], strategy by strategy. *)
Lemma ask_within_unfold I parse fr cr clock backend body :
  Bounded.ask I parse fr cr clock backend body =
  match request_text body with
  | Raise e => failed e
  | Ok user_text =>
      if String.eqb user_text EmptyString
      then printed I user_text "Please say something."
      else if truthy_reply (Bounded.try_math I parse fr cr user_text)
           then printed I user_text (the_reply (Bounded.try_math I parse fr cr user_text))
           else if truthy_reply (local_answer clock user_text)
                then printed I user_text (the_reply (local_answer clock user_text))
                else match ollama_reply backend user_text with
                     | Ok reply => printed I user_text reply
                     | Raise e => failed e
                     end
  end.
Proof.
  unfold Bounded.ask. change (Bounded.user_text_of body) with (request_text body).
  destruct (request_text body) as [t|e]; [|reflexivity].
  change (Bounded.perform (Bounded.and_then (Bounded.lift (Ok t)) ?k))
    with (Bounded.perform (k t)). cbv beta.
  destruct (String.eqb t EmptyString); [apply perform_respond|].
  destruct (truthy_reply (Bounded.try_math I parse fr cr t)); [apply perform_respond|].
  destruct (truthy_reply (local_answer clock t)); [apply perform_respond|].
  destruct (ollama_reply backend t) as [r|e]; [|reflexivity].
  change (Bounded.perform (Bounded.and_then (Bounded.lift (Ok r)) ?k))
    with (Bounded.perform (k r)). apply perform_respond.
Qed.

Lemma truthy_math_reply_within I parse fr cr prefix text :
  prefix <> EmptyString ->
  truthy_reply (Bounded.try_math_as I parse fr cr prefix text) =
  match Bounded.try_math_as I parse fr cr prefix text with
  | Some _ => true
  | None => false
  end.
Proof.
  intros Hp. unfold Bounded.try_math_as. destruct (negb _); [reflexivity|].
  destruct (Py.bind _ _); [|reflexivity]. cbn.
  destruct prefix; [contradiction|reflexivity].
Qed.

Lemma try_math_blank_within I parse fr cr : Bounded.try_math I parse fr cr EmptyString = None.
Proof. reflexivity. Qed.

Lemma local_answer_blank clock : local_answer clock EmptyString = None.
Proof. reflexivity. Qed.

(** ** Replies and failures of the backend *)

(** C3, amended. A request with a text either reaches the generative
    backend or is answered before.  If it reaches the backend and the
    call fails, [ask] returns no reply: the backend's exception leaves
    [ask] and nothing is printed; no degraded reply exists.  In every
    other case a reply is made, printed and returned, unless the console
    cannot encode the text or the reply; then [print] raises
    [UnicodeEncodeError]. *)
Theorem ask_reply_or_backend_failure :
  forall I parse fr cr clock backend body user_text,
    request_text body = Ok user_text ->
    (forall e,
        reaches_backend I parse fr cr clock user_text = true ->
        ollama_reply backend user_text = Raise e ->
        Bounded.ask I parse fr cr clock backend body = failed e) /\
    (reaches_backend I parse fr cr clock user_text = false \/
     is_ok (ollama_reply backend user_text) = true ->
     exists reply,
       Bounded.ask I parse fr cr clock backend body = printed I user_text reply /\
       Bounded.returned (Bounded.ask I parse fr cr clock backend body)
       = if Bounded.printable I user_text && Bounded.printable I reply
         then Ok reply else Raise UnicodeEncodeError).
Proof.
  intros I parse fr cr clock backend body t Hreq.
  rewrite ask_within_unfold, Hreq. unfold reaches_backend.
  destruct (String.eqb t EmptyString); cbn [negb andb].
  { split; [intros e H; discriminate|]. intros _. eexists. split; [reflexivity|].
    apply printed_returned. }
  destruct (truthy_reply (Bounded.try_math I parse fr cr t)); cbn [negb andb].
  { split; [intros e H; discriminate|]. intros _. eexists. split; [reflexivity|].
    apply printed_returned. }
  destruct (truthy_reply (local_answer clock t)); cbn [negb andb].
  { split; [intros e H; discriminate|]. intros _. eexists. split; [reflexivity|].
    apply printed_returned. }
  split.
  - intros e _ He. rewrite He. reflexivity.
  - intros [H|H]; [discriminate|].
    destruct (ollama_reply backend t) as [r|e]; [|discriminate].
    exists r. split; [reflexivity|apply printed_returned].
Qed.

Lemma ask_reply_or_backend_failure_witness :
  (forall e,
      reaches_backend sample_interpreter (Bounded.ast_parse sample_interpreter)
                      no_float_repr no_complex_repr frozen_clock "tell me a joke" = true ->
      ollama_reply backend_down "tell me a joke" = Raise e ->
      Bounded.ask sample_interpreter (Bounded.ast_parse sample_interpreter)
                  no_float_repr no_complex_repr frozen_clock backend_down
                  (text_body "tell me a joke") = failed e) /\
  (reaches_backend sample_interpreter (Bounded.ast_parse sample_interpreter)
                   no_float_repr no_complex_repr frozen_clock "tell me a joke" = false \/
   is_ok (ollama_reply backend_down "tell me a joke") = true ->
   exists reply,
     Bounded.ask sample_interpreter (Bounded.ast_parse sample_interpreter)
                 no_float_repr no_complex_repr frozen_clock backend_down
                 (text_body "tell me a joke")
     = printed sample_interpreter "tell me a joke" reply /\
     Bounded.returned
       (Bounded.ask sample_interpreter (Bounded.ast_parse sample_interpreter)
                    no_float_repr no_complex_repr frozen_clock backend_down
                    (text_body "tell me a joke"))
     = if Bounded.printable sample_interpreter "tell me a joke" &&
          Bounded.printable sample_interpreter reply
       then Ok reply else Raise UnicodeEncodeError).
Proof.
  apply (ask_reply_or_backend_failure sample_interpreter (Bounded.ast_parse sample_interpreter)
           no_float_repr no_complex_repr frozen_clock backend_down
           (text_body "tell me a joke") "tell me a joke").
  reflexivity.
Defined.

(** ** The order of the strategies *)

(** X7. Math comes first: when [try_math] answers the text of a request,
    [ask] prints and returns that answer, whatever the intent rules, the
    clock and the backend would say; the answer is returned unless the
    console cannot encode the text of the request, in which case
    [print] raises [UnicodeEncodeError]. *)
Theorem math_answer_wins :
  forall I parse fr cr clock backend body user_text reply,
    request_text body = Ok user_text ->
    Bounded.try_math I parse fr cr user_text = Some reply ->
    Bounded.ask I parse fr cr clock backend body = printed I user_text reply /\
    Bounded.returned (Bounded.ask I parse fr cr clock backend body)
    = if Bounded.printable I user_text && Bounded.printable I reply
      then Ok reply else Raise UnicodeEncodeError.
Proof.
  intros I parse fr cr clock backend body user_text reply Hreq Hm.
  assert (E : Bounded.ask I parse fr cr clock backend body = printed I user_text reply).
  { rewrite ask_within_unfold, Hreq.
    destruct (String.eqb_spec user_text EmptyString) as [->|_].
    - rewrite try_math_blank_within in Hm. discriminate.
    - unfold Bounded.try_math in *. rewrite truthy_math_reply_within by discriminate.
      rewrite Hm. reflexivity. }
  split; [exact E|]. rewrite E. apply printed_returned.
Qed.

Lemma math_answer_wins_witness :
  Bounded.ask ascii_console (Bounded.ast_parse ascii_console)
              no_float_repr no_complex_repr frozen_clock backend_down
              (text_body "what is the current time 3 times 4")
  = printed ascii_console "what is the current time 3 times 4" "The answer is: 12." /\
  Bounded.returned
    (Bounded.ask ascii_console (Bounded.ast_parse ascii_console)
                 no_float_repr no_complex_repr frozen_clock backend_down
                 (text_body "what is the current time 3 times 4"))
  = if Bounded.printable ascii_console "what is the current time 3 times 4" &&
       Bounded.printable ascii_console "The answer is: 12."
    then Ok "The answer is: 12." else Raise UnicodeEncodeError.
Proof.
  apply (math_answer_wins ascii_console (Bounded.ast_parse ascii_console)
           no_float_repr no_complex_repr frozen_clock backend_down
           (text_body "what is the current time 3 times 4")
           "what is the current time 3 times 4" "The answer is: 12.");
    reflexivity.
Defined.

(** X8. The backend is the last resort: when an intent rule gives a
    non-empty reply for the text of a request, [ask] prints and returns
    the result of [try_math] if there is one and the reply of the rule
    otherwise; the backend is not consulted.  The reply is returned
    unless the console cannot encode the text or the reply. *)
Theorem intent_answer_skips_backend :
  forall I parse fr cr clock backend body user_text reply,
    request_text body = Ok user_text ->
    local_answer clock user_text = Some reply ->
    reply <> EmptyString ->
    Bounded.ask I parse fr cr clock backend body =
    printed I user_text
      (match Bounded.try_math I parse fr cr user_text with
       | Some math_reply => math_reply
       | None => reply
       end).
Proof.
  intros I parse fr cr clock backend body user_text reply Hreq Hl Hne.
  rewrite ask_within_unfold, Hreq.
  destruct (String.eqb_spec user_text EmptyString) as [->|_].
  - rewrite local_answer_blank in Hl. discriminate.
  - unfold Bounded.try_math. rewrite truthy_math_reply_within by discriminate.
    destruct (Bounded.try_math_as I parse fr cr "The answer is: " user_text) as [m|];
      [reflexivity|].
    rewrite Hl. unfold truthy_reply, the_reply.
    destruct (String.eqb_spec reply EmptyString); [contradiction|reflexivity].
Qed.

Lemma intent_answer_skips_backend_witness :
  Bounded.ask ascii_console (Bounded.ast_parse ascii_console)
              no_float_repr no_complex_repr frozen_clock backend_down
              (text_body "What is your name?")
  = printed ascii_console "What is your name?"
      (match Bounded.try_math ascii_console (Bounded.ast_parse ascii_console)
                              no_float_repr no_complex_repr "What is your name?" with
       | Some math_reply => math_reply
       | None => "My name is Aarya."
       end).
Proof.
  apply (intent_answer_skips_backend ascii_console (Bounded.ast_parse ascii_console)
           no_float_repr no_complex_repr frozen_clock backend_down
           (text_body "What is your name?") "What is your name?" "My name is Aarya.");
    [reflexivity | reflexivity | discriminate].
Defined.

(** X9. The two servers answer the same texts on the math path, with the
    same number: [ai_server.py] writes a colon after [The answer is],
    [ai_server_2.py] does not. *)
Theorem servers_agree_on_math :
  forall parse fr cr text,
    match try_math parse fr cr text, AiServer2.try_math parse fr cr text with
    | Some a, Some b =>
        exists n, a = "The answer is: " ++ n ++ "." /\ b = "The answer is " ++ n ++ "."
    | None, None => True
    | _, _ => False
    end.
Proof.
  intros parse fr cr text. unfold try_math, AiServer2.try_math.
  destruct (negb (search math_cue (lower text))); [exact I|].
  destruct (safe_eval parse (math_text (lower text))); [|exact I].
  eexists; split; reflexivity.
Qed.

(** ** Thanks, only if standalone *)

Lemma strip_prefix_exact w : forall t, strip_prefix w t = Some EmptyString -> t = w.
Proof.
  induction w as [|a w IH]; simpl; intros t H.
  - inversion H. reflexivity.
  - destruct t as [|b t]; [discriminate|].
    destruct (Ascii.eqb_spec a b); [|discriminate]. subst. f_equal. apply IH. assumption.
Qed.

Lemma strip_prefix_self w : strip_prefix w w = Some EmptyString.
Proof. induction w as [|a w IH]; simpl; [reflexivity|]. rewrite Ascii.eqb_refl. exact IH. Qed.

Lemma exec_lit_at_end w prev t :
  exec (Lit w) prev t at_end <> None <-> t = w.
Proof.
  simpl. split.
  - destruct (strip_prefix w t) as [s'|] eqn:E; [|congruence].
    destruct s'; [|simpl; congruence]. intros _. apply strip_prefix_exact; assumption.
  - intros ->. rewrite strip_prefix_self. simpl. discriminate.
Qed.

Lemma exec_words_at_end ws : forall prev t,
  exec (words ws) prev t at_end <> None <-> In t ws.
Proof.
  unfold words. induction ws as [|w ws IH]; intros prev t.
  - simpl. split; [|tauto]. destruct t; congruence.
  - destruct ws as [|w' ws'].
    + cbn [map alts]. rewrite exec_lit_at_end. simpl. intuition congruence.
    + change (alts (map Lit (w :: w' :: ws'))) with (Alt (Lit w) (alts (map Lit (w' :: ws')))).
      cbn [exec]. specialize (IH prev t).
      pose proof (exec_lit_at_end w prev t) as Hw. cbn [exec] in Hw.
      destruct (match strip_prefix w t with Some s' => at_end (last_char w prev) s' | None => None end) eqn:E.
      * split; [intros _; left; symmetry; apply Hw; discriminate|discriminate].
      * rewrite IH. split; [intros H; right; exact H|].
        intros [H|H]; [|exact H]. exfalso. symmetry in H. apply Hw in H. congruence.
Qed.

Lemma fullmatch_words ws t : fullmatch (words ws) t = true <-> In t ws.
Proof.
  unfold fullmatch. fold at_end. rewrite <- (exec_words_at_end ws None t).
  destruct (exec (words ws) None t at_end); split; congruence.
Qed.

(** X10. Provided the clock does not itself print that sentence,
    [local_answer] says [You are welcome.] exactly when the normalized
    utterance is one of [thanks], [thank you], [thank u] and nothing
    else: the phrase inside a longer utterance is not answered, and no
    earlier rule takes these three. *)
Theorem thanks_only_if_standalone :
  forall clock text,
    Forall (fun fmt => clock fmt <> "You are welcome.") time_formats ->
    (local_answer clock text = Some "You are welcome." <->
     In (normalize_intent text) thanks_phrases).
Proof.
  intros clock text Hclock. unfold time_formats in Hclock.
  repeat match goal with
         | H : Forall _ (_ :: _) |- _ => inversion H; subst; clear H
         end.
  cbv beta in *. split.
  - unfold local_answer. set (t := normalize_intent text).
    repeat match goal with
           | |- (if ?c then _ else _) = _ -> _ =>
               destruct c eqn:?;
               [ intros H; try discriminate H;
                 try (inversion H; congruence) | ]
           end.
    + apply fullmatch_words. assumption.
    + discriminate.
  - intros H. unfold local_answer. fold thanks_phrases.
    destruct H as [H|[H|[H|[]]]]; rewrite <- H; reflexivity.
Qed.

Lemma thanks_only_if_standalone_witness :
  local_answer frozen_clock "Thank you!" = Some "You are welcome." <->
  In (normalize_intent "Thank you!") thanks_phrases.
Proof.
  apply (thanks_only_if_standalone frozen_clock "Thank you!").
  unfold time_formats, frozen_clock. repeat constructor; discriminate.
Defined.

(** ** Integer arithmetic, end to end *)

Lemma forall_chars_app q a b :
  forall_chars q (a ++ b) = forall_chars q a && forall_chars q b.
Proof.
  induction a as [|c a IH]; simpl; [reflexivity|]. rewrite IH. apply andb_assoc.
Qed.

Lemma digits_math ds : forall_chars is_digit ds = true -> forall_chars math_char ds = true.
Proof.
  induction ds as [|c ds IH]; simpl; intros H; [reflexivity|].
  apply andb_true_iff in H. destruct H as [Hc Hs]. unfold math_char at 1.
  rewrite Hc. simpl. auto.
Qed.

Lemma literal_math l : literal_ok l = true -> forall_chars math_char (literal_text l) = true.
Proof.
  destruct l as [ds|ip fp]; unfold literal_ok; intros H.
  - apply andb_true_iff in H. destruct H as [H _].
    apply andb_true_iff in H. destruct H as [_ H]. apply digits_math; assumption.
  - apply andb_true_iff in H. destruct H as [H _].
    apply andb_true_iff in H. destruct H as [Hip Hfp].
    cbn [literal_text]. rewrite forall_chars_app. cbn [forall_chars].
    rewrite (digits_math _ Hip), (digits_math _ Hfp). reflexivity.
Qed.

Lemma spaces_math n : forall_chars math_char (spaces n) = true.
Proof. induction n as [|n IH]; [reflexivity|]. cbn [spaces forall_chars]. rewrite IH. reflexivity. Qed.

Lemma render_mul_items_math items : forall rest,
  forallb (fun it : mul_item => literal_ok (snd it)) items = true ->
  forall_chars math_char rest = true ->
  forall_chars math_char (render_mul_items items rest) = true.
Proof.
  induction items as [|[[[a op] b] l] items IH]; intros rest Hok Hr; [exact Hr|].
  cbn in Hok. apply andb_true_iff in Hok. destruct Hok as [Hl Hitems].
  cbn [render_mul_items]. rewrite !forall_chars_app.
  rewrite !spaces_math, (literal_math l Hl), (IH rest Hitems Hr).
  destruct op; reflexivity.
Qed.

Lemma render_term_math t rest :
  term_ok t = true -> forall_chars math_char rest = true ->
  forall_chars math_char (render_term t rest) = true.
Proof.
  unfold term_ok, render_term. intros H Hr. apply andb_true_iff in H.
  destruct H as [Hl Hitems]. rewrite forall_chars_app, (literal_math _ Hl).
  apply render_mul_items_math; assumption.
Qed.

Lemma render_add_items_math items : forall rest,
  forallb (fun it : add_item => term_ok (snd it)) items = true ->
  forall_chars math_char rest = true ->
  forall_chars math_char (render_add_items items rest) = true.
Proof.
  induction items as [|[[[a op] b] t] items IH]; intros rest Hok Hr; [exact Hr|].
  cbn in Hok. apply andb_true_iff in Hok. destruct Hok as [Ht Hitems].
  cbn [render_add_items]. rewrite !forall_chars_app, !spaces_math.
  rewrite (render_term_math t _ Ht (IH rest Hitems Hr)).
  destruct op; reflexivity.
Qed.

Lemma render_math e : well_formed e = true -> forall_chars math_char (render e) = true.
Proof.
  unfold well_formed, render. intros H. apply andb_true_iff in H. destruct H as [Ht Hitems].
  apply render_term_math; [assumption|].
  apply render_add_items_math; [assumption|apply spaces_math].
Qed.

(* solid *)
Lemma rstrip_app_solid a b :
  b <> EmptyString -> rstrip b = b -> rstrip (a ++ b) = a ++ b.
Proof.
  intros Hne Hb. induction a as [|c a IH]; [exact Hb|].
  cbn [append rstrip]. rewrite IH.
  destruct (a ++ b) eqn:E; [|reflexivity].
  destruct a; [cbn in E; contradiction|discriminate].
Qed.

Lemma rstrip_no_space s : free_of is_space s = true -> rstrip s = s.
Proof.
  unfold free_of. induction s as [|c s IH]; simpl; intros H; [reflexivity|].
  apply andb_true_iff in H. destruct H as [Hc Hs]. rewrite (IH Hs).
  destruct s; [|reflexivity]. destruct (is_space c); [discriminate|reflexivity].
Qed.

Lemma digit_not_space c : is_digit c = true -> is_space c = false.
Proof. destruct c as [[] [] [] [] [] [] [] []]; vm_compute; intros H; (reflexivity || discriminate). Qed.

Lemma digits_no_space ds : forall_chars is_digit ds = true -> free_of is_space ds = true.
Proof.
  unfold free_of. induction ds as [|c ds IH]; simpl; intros H; [reflexivity|].
  apply andb_true_iff in H. destruct H as [Hc Hs].
  rewrite (digit_not_space c Hc), (IH Hs). reflexivity.
Qed.

Lemma ends_solid_app a b : ends_solid b -> ends_solid (a ++ b).
Proof.
  intros [Hne Hb]. split.
  - destruct a; [exact Hne|discriminate].
  - apply rstrip_app_solid; assumption.
Qed.

Lemma literal_ends_solid l : literal_ok l = true -> ends_solid (literal_text l).
Proof.
  destruct l as [ds|ip fp]; unfold literal_ok; intros H.
  - apply andb_true_iff in H. destruct H as [H _].
    apply andb_true_iff in H. destruct H as [Hne Hds]. split.
    + destruct ds; [discriminate|discriminate].
    + apply rstrip_no_space, digits_no_space; assumption.
  - apply andb_true_iff in H. destruct H as [H _].
    apply andb_true_iff in H. destruct H as [Hip Hfp]. cbn [literal_text].
    apply ends_solid_app. split; [discriminate|].
    apply rstrip_no_space. unfold free_of. cbn [forall_chars].
    change (is_space ".") with false. cbn [negb andb].
    apply digits_no_space; assumption.
Qed.

Lemma ends_solid_app_empty a b : ends_solid a -> b = EmptyString \/ ends_solid b -> ends_solid (a ++ b).
Proof.
  intros Ha [->|Hb]; [|apply ends_solid_app; assumption].
  assert (E : a ++ EmptyString = a) by (clear; induction a as [|c a IH]; cbn; [|rewrite IH]; reflexivity).
  rewrite E. exact Ha.
Qed.

Lemma mul_items_ends_solid items : forall rest,
  forallb (fun it : mul_item => literal_ok (snd it)) items = true ->
  rest = EmptyString \/ ends_solid rest ->
  render_mul_items items rest = EmptyString \/ ends_solid (render_mul_items items rest).
Proof.
  induction items as [|[[[a op] b] l] items IH]; intros rest Hok Hr; [exact Hr|].
  cbn in Hok. apply andb_true_iff in Hok. destruct Hok as [Hl Hitems].
  right. cbn [render_mul_items].
  do 3 apply ends_solid_app.
  apply ends_solid_app_empty; [apply literal_ends_solid; assumption|].
  apply IH; assumption.
Qed.

Lemma term_ends_solid t rest :
  term_ok t = true -> rest = EmptyString \/ ends_solid rest ->
  ends_solid (render_term t rest).
Proof.
  unfold term_ok, render_term. intros H Hr. apply andb_true_iff in H.
  destruct H as [Hl Hitems].
  apply ends_solid_app_empty; [apply literal_ends_solid; assumption|].
  apply mul_items_ends_solid; assumption.
Qed.

Lemma add_items_ends_solid items : forall rest,
  forallb (fun it : add_item => term_ok (snd it)) items = true ->
  rest = EmptyString \/ ends_solid rest ->
  render_add_items items rest = EmptyString \/ ends_solid (render_add_items items rest).
Proof.
  induction items as [|[[[a op] b] t] items IH]; intros rest Hok Hr; [exact Hr|].
  cbn in Hok. apply andb_true_iff in Hok. destruct Hok as [Ht Hitems].
  right. cbn [render_add_items].
  do 3 apply ends_solid_app. apply term_ends_solid; [assumption|].
  apply IH; assumption.
Qed.

Lemma lstrip_not_indented s :
  match s with String c _ => is_space c = false | EmptyString => True end -> lstrip s = s.
Proof. destruct s as [|c s]; [reflexivity|]. simpl. intros ->. reflexivity. Qed.

Lemma render_first_char e :
  well_formed e = true ->
  match render e with String c _ => is_space c = false | EmptyString => True end.
Proof.
  unfold well_formed, render, render_term. intros H.
  apply andb_true_iff in H. destruct H as [H _].
  unfold term_ok in H. apply andb_true_iff in H. destruct H as [H _].
  destruct (fst (first_term e)) as [ds|ip fp]; cbn [literal_text]; unfold literal_ok in H.
  - apply andb_true_iff in H. destruct H as [H _].
    apply andb_true_iff in H. destruct H as [Hne Hds].
    destruct ds as [|d ds]; [discriminate|]. cbn in Hds |- *.
    apply andb_true_iff in Hds. destruct Hds as [Hd _]. apply digit_not_space; assumption.
  - apply andb_true_iff in H. destruct H as [H _].
    apply andb_true_iff in H. destruct H as [Hip _].
    destruct ip as [|d ip]; [reflexivity|]. cbn in Hip |- *.
    apply andb_true_iff in Hip. destruct Hip as [Hd _]. apply digit_not_space; assumption.
Qed.

Lemma render_solid e :
  well_formed e = true -> trailing e = 0 -> solid (render e).
Proof.
  intros H Ht. pose proof (render_first_char e H) as Hfirst.
  assert (Hend : ends_solid (render e)).
  { unfold well_formed in H. apply andb_true_iff in H. destruct H as [H1 H2].
    unfold render. apply term_ends_solid; [assumption|].
    apply add_items_ends_solid; [assumption|]. rewrite Ht. left. reflexivity. }
  destruct Hend as [Hne Hr]. split; [assumption|].
  unfold strip. rewrite (lstrip_not_indented _ Hfirst). exact Hr.
Qed.

(* gate *)
Lemma exec_alt_right {A} r1 r2 prev s (k : option ascii -> string -> option A) :
  exec r2 prev s k <> None -> exec (Alt r1 r2) prev s k <> None.
Proof. simpl. destruct (exec r1 prev s k); [discriminate|auto]. Qed.

Lemma math_cue_digit prev c s :
  is_digit c = true -> matches_here math_cue prev (String c s) <> None.
Proof.
  intros H. unfold matches_here, math_cue. cbn [alts].
  do 8 apply exec_alt_right.
  cbn [exec]. rewrite H. discriminate.
Qed.

Lemma search_from_digit : forall s prev,
  has_digit s = true -> search_from math_cue prev s = true.
Proof.
  unfold has_digit, free_of.
  induction s as [|c s IH]; intros prev H; [discriminate|].
  cbn [search_from].
  destruct (matches_here math_cue prev (String c s)) eqn:E; [reflexivity|].
  cbn [forall_chars] in H. destruct (is_digit c) eqn:Hc.
  - exfalso. apply (math_cue_digit prev c s Hc). exact E.
  - cbn [negb andb] in H. apply IH. exact H.
Qed.

Lemma has_digit_app a b : has_digit a = true -> has_digit (a ++ b) = true.
Proof.
  unfold has_digit, free_of. rewrite forall_chars_app. intros H.
  apply negb_true_iff in H. rewrite H. reflexivity.
Qed.

Lemma literal_has_digit l : literal_ok l = true -> has_digit (literal_text l) = true.
Proof.
  destruct l as [ds|ip fp]; unfold literal_ok; intros H.
  - apply andb_true_iff in H. destruct H as [H _].
    apply andb_true_iff in H. destruct H as [Hne Hds].
    destruct ds as [|d ds]; [discriminate|]. cbn in Hds.
    apply andb_true_iff in Hds. destruct Hds as [Hd _].
    unfold has_digit, free_of. cbn [literal_text forall_chars]. rewrite Hd. reflexivity.
  - apply andb_true_iff in H. destruct H as [H Hne].
    apply andb_true_iff in H. destruct H as [Hip Hfp]. cbn [literal_text].
    destruct ip as [|d ip].
    + destruct fp as [|f fp]; [discriminate|]. cbn in Hfp.
      apply andb_true_iff in Hfp. destruct Hfp as [Hf _].
      unfold has_digit, free_of. cbn [append forall_chars]. rewrite Hf.
      rewrite andb_false_r. reflexivity.
    + cbn in Hip. apply andb_true_iff in Hip. destruct Hip as [Hd _].
      unfold has_digit, free_of. cbn [append forall_chars]. rewrite Hd. reflexivity.
Qed.

Lemma render_has_digit e : well_formed e = true -> has_digit (render e) = true.
Proof.
  unfold well_formed, render, render_term. intros H.
  apply andb_true_iff in H. destruct H as [H _].
  unfold term_ok in H. apply andb_true_iff in H. destruct H as [H _].
  apply has_digit_app, literal_has_digit. assumption.
Qed.

Lemma normalize_math_render e :
  well_formed e = true -> trailing e = 0 -> normalize_math (render e) = render e.
Proof.
  intros H Ht. pose proof (render_math e H) as Hm.
  unfold normalize_math. rewrite (lower_math _ Hm), (math_text_fixed _ Hm).
  apply (render_solid e H Ht).
Qed.

Lemma math_char_ascii c : math_char c = true -> is_ascii c = true.
Proof. destruct c as [[] [] [] [] [] [] [] []]; vm_compute; intros H; congruence. Qed.

Lemma math_ascii s : forall_chars math_char s = true -> forall_chars is_ascii s = true.
Proof.
  induction s as [|c s IH]; cbn; intros H; [reflexivity|].
  apply andb_true_iff in H. destruct H as [Hc Hs].
  rewrite (math_char_ascii c Hc), IH by assumption. reflexivity.
Qed.

Lemma uint_ascii u : forall_chars is_ascii (NilEmpty.string_of_uint u) = true.
Proof. induction u; cbn; auto. Qed.

Lemma str_of_int_ascii n : forall_chars is_ascii (str_of_int n) = true.
Proof.
  unfold str_of_int, NilEmpty.string_of_int.
  destruct (Z.to_int n); cbn; apply uint_ascii.
Qed.

Lemma answer_ascii prefix n :
  forall_chars is_ascii prefix = true ->
  forall_chars is_ascii (prefix ++ str_of_int n ++ ".") = true.
Proof.
  intros H. rewrite !forall_chars_app, H, str_of_int_ascii. reflexivity.
Qed.

Lemma str_int_shows I n : shows I n = true -> Bounded.str_int I n = Ok (str_of_int n).
Proof.
  unfold shows, Bounded.str_int. intros H. apply negb_true_iff in H.
  rewrite H. reflexivity.
Qed.

(** X11. An expression of integer literals without a leading zero,
    joined by [+], [-] and [*] with any spacing between them, which the
    interpreter has room for (no literal and no result beyond the digit
    limit, a tree within the recursion limits), is answered with its
    exact integer value by [try_math], and [ask] prints and returns that
    answer for a request with this text. *)
Theorem integer_expression_answered :
  forall I fr cr clock backend e,
    well_formed e = true -> int_only e = true -> trailing e = 0 ->
    fits I e = true -> shows I (int_value e) = true ->
    let reply := "The answer is: " ++ str_of_int (int_value e) ++ "." in
    Bounded.try_math I (Bounded.ast_parse I) fr cr (render e) = Some reply /\
    Bounded.ask I (Bounded.ast_parse I) fr cr clock backend (text_body (render e))
    = {| Bounded.written := Bounded.transcript (render e) reply;
         Bounded.returned := Ok reply |}.
Proof.
  intros I fr cr clock backend e Hwf Hint Ht Hfit Hshow reply.
  assert (Hm : Bounded.try_math I (Bounded.ast_parse I) fr cr (render e) = Some reply).
  { unfold Bounded.try_math, Bounded.try_math_as.
    rewrite (lower_math _ (render_math e Hwf)).
    unfold search. rewrite (search_from_digit _ None (render_has_digit e Hwf)).
    cbn [negb]. pose proof (normalize_math_render e Hwf Ht) as Hn.
    unfold normalize_math in Hn. rewrite (lower_math _ (render_math e Hwf)) in Hn.
    rewrite Hn.
    rewrite (safe_eval_render I e Hwf Hfit), (eval_int_expression e Hint).
    cbn [Py.bind Bounded.format_result]. rewrite (str_int_shows I _ Hshow).
    reflexivity. }
  split; [exact Hm|].
  destruct (render_solid e Hwf Ht) as [Hne Hstrip].
  rewrite ask_within_unfold. unfold request_text, text_body. cbn [truthy Json.get lookup].
  rewrite String.eqb_refl. cbn [Py.bind strip_method]. rewrite Hstrip.
  destruct (String.eqb_spec (render e) EmptyString); [contradiction|].
  unfold Bounded.try_math in *. rewrite truthy_math_reply_within by discriminate.
  rewrite Hm. cbn [the_reply]. unfold printed.
  rewrite (printable_ascii I (render e) (math_ascii _ (render_math e Hwf))).
  rewrite (printable_ascii I reply
             (answer_ascii "The answer is: " (int_value e) eq_refl)).
  reflexivity.
Qed.

Lemma integer_expression_answered_witness :
  Bounded.try_math sample_interpreter (Bounded.ast_parse sample_interpreter)
                   no_float_repr no_complex_repr (render sample_sum)
  = Some ("The answer is: " ++ str_of_int (int_value sample_sum) ++ ".") /\
  Bounded.ask sample_interpreter (Bounded.ast_parse sample_interpreter)
              no_float_repr no_complex_repr frozen_clock backend_down
              (text_body (render sample_sum))
  = {| Bounded.written :=
         Bounded.transcript (render sample_sum)
           ("The answer is: " ++ str_of_int (int_value sample_sum) ++ ".");
       Bounded.returned :=
         Ok ("The answer is: " ++ str_of_int (int_value sample_sum) ++ ".") |}.
Proof.
  apply (integer_expression_answered sample_interpreter no_float_repr no_complex_repr
           frozen_clock backend_down sample_sum); reflexivity.
Defined.

Lemma paren_free_app a b : paren_free (a ++ b) = paren_free a && paren_free b.
Proof. unfold paren_free. apply forallb_app. Qed.

Lemma step_idle_paren_free c toks st :
  math_char c = true -> step_idle c = Ok (toks, st) -> paren_free toks = true.
Proof.
  destruct c as [[] [] [] [] [] [] [] []]; vm_compute; intros H E;
    try discriminate; inversion E; reflexivity.
Qed.

Lemma flush_paren_free st toks : flush st = Ok toks -> paren_free toks = true.
Proof.
  destruct st; cbn; intros E; try (inversion E; reflexivity).
  unfold int_literal in E.
  destruct ds as [|c [|c' ds']]; cbn in E; try (inversion E; reflexivity).
  destruct (is_zero_digit c && negb (is_zero_digit c' && forall_chars is_zero_digit ds'));
    cbn in E; [discriminate|inversion E; reflexivity].
Qed.

Lemma flush_then_idle_paren_free st c toks st' :
  math_char c = true -> flush_then_idle st c = Ok (toks, st') -> paren_free toks = true.
Proof.
  intros Hc E. unfold flush_then_idle in E.
  apply bind_ok_inv in E. destruct E as [ts [Hf E]].
  apply bind_ok_inv in E. destruct E as [[ts2 st2] [Hs E]].
  inversion E; subst. cbn [fst]. rewrite paren_free_app.
  rewrite (flush_paren_free _ _ Hf), (step_idle_paren_free _ _ _ Hc Hs). reflexivity.
Qed.

Lemma step_paren_free st c toks st' :
  math_char c = true -> step st c = Ok (toks, st') -> paren_free toks = true.
Proof.
  intros Hc E. destruct st; cbn [step] in E;
    try (eapply step_idle_paren_free; eassumption);
    repeat match type of E with
           | (if ?b then _ else _) = _ => destruct b
           end;
    try (inversion E; reflexivity);
    eapply flush_then_idle_paren_free; eassumption.
Qed.

Lemma lex_paren_free s : forall st ts,
  forall_chars math_char s = true -> lex st s = Ok ts -> paren_free ts = true.
Proof.
  induction s as [|c s IH]; intros st ts Hs E.
  - eapply flush_paren_free; eassumption.
  - cbn in Hs. apply andb_true_iff in Hs. destruct Hs as [Hc Hs].
    cbn [lex] in E. apply bind_ok_inv in E. destruct E as [[toks st'] [Hstep E]].
    apply bind_ok_inv in E. destruct E as [ts' [Hlex E]].
    inversion E; subst. cbn [fst]. rewrite paren_free_app.
    rewrite (step_paren_free _ _ _ _ Hc Hstep). cbn [snd] in Hlex.
    rewrite (IH _ _ Hs Hlex). reflexivity.
Qed.

Lemma tokenize_paren_free s ts :
  forall_chars math_char s = true -> tokenize s = Ok ts -> paren_free ts = true.
Proof.
  intros Hs E. unfold tokenize in E.
  destruct s as [|c s']; [eapply lex_paren_free; eassumption|].
  destruct c as [[] [] [] [] [] [] [] []];
    try discriminate; eapply lex_paren_free; eassumption.
Qed.

Lemma paren_free_cons t ts :
  paren_free (t :: ts) = negb (is_paren t) && paren_free ts.
Proof. reflexivity. Qed.

Ltac split_paren_free :=
  repeat match goal with
         | H : paren_free (_ :: _) = true |- _ =>
             rewrite paren_free_cons in H;
             apply andb_true_iff in H; destruct H as [? H]
         end.

Lemma parse_keeps_paren_free : forall n,
  (forall ts, keeps_paren_free (p_sum n ts) ts) /\
  (forall l ts, keeps_paren_free (p_sum_rest n l ts) ts) /\
  (forall ts, keeps_paren_free (p_term n ts) ts) /\
  (forall l ts, keeps_paren_free (p_term_rest n l ts) ts) /\
  (forall ts, keeps_paren_free (p_factor n ts) ts) /\
  (forall ts, keeps_paren_free (p_power n ts) ts) /\
  (forall ts, keeps_paren_free (p_primary n ts) ts) /\
  (forall f ts, keeps_paren_free (p_trailers n f ts) ts) /\
  (forall ts, keeps_paren_free (p_atom n ts) ts).
Proof.
  induction n as [|n IH].
  - unfold keeps_paren_free. repeat split; intros; discriminate.
  - destruct IH as (Hsum & Hsumr & Hterm & Htermr & Hfac & Hpow & Hprim & Htr & Hatom).
    unfold keeps_paren_free in *.
    repeat split; intros;
      match goal with H : _ = Some (Ok _) |- _ => rename H into Hp end;
      match goal with H : paren_free _ = true |- _ => rename H into Hpf end;
      cbn in Hp; break_match Hp; subst; split_paren_free;
      try discriminate;
      repeat match goal with
        | E : p_sum n ?a = Some (Ok (_, ?b)), H : paren_free ?a = true |- _ =>
            pose proof (Hsum _ _ _ E H); clear E
        | E : p_term n ?a = Some (Ok (_, ?b)), H : paren_free ?a = true |- _ =>
            pose proof (Hterm _ _ _ E H); clear E
        | E : p_factor n ?a = Some (Ok (_, ?b)), H : paren_free ?a = true |- _ =>
            pose proof (Hfac _ _ _ E H); clear E
        | E : p_power n ?a = Some (Ok (_, ?b)), H : paren_free ?a = true |- _ =>
            pose proof (Hpow _ _ _ E H); clear E
        | E : p_primary n ?a = Some (Ok (_, ?b)), H : paren_free ?a = true |- _ =>
            pose proof (Hprim _ _ _ E H); clear E
        | E : p_atom n ?a = Some (Ok (_, ?b)), H : paren_free ?a = true |- _ =>
            pose proof (Hatom _ _ _ E H); clear E
        end;
      split_paren_free;
      try (unfold expect_rpar in Hp; break_match Hp);
      try (inversion Hp; subst; clear Hp); split_paren_free;
      try assumption; try reflexivity;
      try (rewrite paren_free_cons; cbn [is_paren negb andb]; assumption);
      try solve [ eapply Hsumr; eassumption | eapply Htermr; eassumption
                | eapply Htr; eassumption | eapply Hfac; eassumption
                | eapply Hpow; eassumption ].
Qed.

Lemma whitelisted_constant c : whitelisted (Constant c) = true -> numeric c = true.
Proof. destruct c; simpl; congruence. Qed.

Lemma whitelisted_BinOp l op r :
  whitelisted (BinOp l op r) = true ->
  (op = Add \/ op = Sub \/ op = Mult \/ op = Div) /\
  whitelisted l = true /\ whitelisted r = true.
Proof.
  simpl. destruct op; simpl; try discriminate; intros H;
    apply andb_true_iff in H; tauto.
Qed.

Lemma pairs_app : forall n a b,
  List.length a <= n ->
  operator_number_pairs a = true -> operator_number_pairs b = true ->
  operator_number_pairs (a ++ b)%list = true.
Proof.
  induction n as [|n IH]; intros a b Hn Ha Hb.
  - destruct a; [exact Hb|cbn in Hn; lia].
  - destruct a as [|op [|t a']]; [exact Hb|discriminate|].
    destruct t; try discriminate. cbn [app operator_number_pairs] in *.
    apply andb_true_iff in Ha. destruct Ha as [Ha1 Ha2]. rewrite Ha1. cbn [andb].
    apply IH; [cbn in Hn; lia|assumption|assumption].
Qed.

(** On a paren-free stream, a whitelisted result was read from a number
    and operator-number pairs. *)
Lemma parse_whitelisted_flat : forall n,
  (forall ts e ts', p_sum n ts = Some (Ok (e, ts')) -> paren_free ts = true ->
     whitelisted e = true ->
     exists c mid, ts = (TNum c :: mid ++ ts')%list /\ numeric c = true /\
                   operator_number_pairs mid = true) /\
  (forall l ts e ts', p_sum_rest n l ts = Some (Ok (e, ts')) -> paren_free ts = true ->
     whitelisted e = true ->
     whitelisted l = true /\
     exists mid, ts = (mid ++ ts')%list /\ operator_number_pairs mid = true) /\
  (forall ts e ts', p_term n ts = Some (Ok (e, ts')) -> paren_free ts = true ->
     whitelisted e = true ->
     exists c mid, ts = (TNum c :: mid ++ ts')%list /\ numeric c = true /\
                   operator_number_pairs mid = true) /\
  (forall l ts e ts', p_term_rest n l ts = Some (Ok (e, ts')) -> paren_free ts = true ->
     whitelisted e = true ->
     whitelisted l = true /\
     exists mid, ts = (mid ++ ts')%list /\ operator_number_pairs mid = true) /\
  (forall ts e ts', p_factor n ts = Some (Ok (e, ts')) -> paren_free ts = true ->
     whitelisted e = true -> exists c, ts = TNum c :: ts' /\ numeric c = true) /\
  (forall ts e ts', p_power n ts = Some (Ok (e, ts')) -> paren_free ts = true ->
     whitelisted e = true -> exists c, ts = TNum c :: ts' /\ numeric c = true) /\
  (forall ts e ts', p_primary n ts = Some (Ok (e, ts')) -> paren_free ts = true ->
     whitelisted e = true -> exists c, ts = TNum c :: ts' /\ numeric c = true) /\
  (forall f ts e ts', p_trailers n f ts = Some (Ok (e, ts')) -> paren_free ts = true ->
     e = f /\ ts' = ts) /\
  (forall ts e ts', p_atom n ts = Some (Ok (e, ts')) -> paren_free ts = true ->
     whitelisted e = true -> exists c, ts = TNum c :: ts' /\ numeric c = true).
Proof.
  induction n as [|n IH].
  - repeat split; intros; discriminate.
  - destruct IH as (Hsum & Hsumr & Hterm & Htermr & Hfac & Hpow & Hprim & Htr & Hatom).
    destruct (parse_keeps_paren_free n)
      as (Ksum & Ksumr & Kterm & Ktermr & Kfac & Kpow & Kprim & Ktr & Katom).
    unfold keeps_paren_free in *.
    repeat match goal with |- _ /\ _ => split end.
    + (* sum *)
      intros ts e ts' Hp Hpf Hw. cbn [p_sum] in Hp.
      destruct (p_term n ts) as [[[l ts1]|]|] eqn:Et; try discriminate.
      pose proof (Kterm _ _ _ Et Hpf) as Hpf1.
      destruct (Hsumr _ _ _ _ Hp Hpf1 Hw) as [Hwl [mid2 [-> Hm2]]].
      destruct (Hterm _ _ _ Et Hpf Hwl) as [c [mid1 [-> [Hc Hm1]]]].
      exists c, (mid1 ++ mid2)%list. rewrite <- app_assoc. repeat split; try assumption.
      eapply pairs_app; eauto.
    + (* sum_rest *)
      intros l ts e ts' Hp Hpf Hw. cbn [p_sum_rest] in Hp.
      destruct ts as [|t ts1];
        [inversion Hp; subst; split; [assumption|exists []; split; reflexivity]|].
      destruct t;
        try (inversion Hp; subst; split; [assumption|exists []; split; reflexivity]);
        split_paren_free;
        (destruct (p_term n ts1) as [[[r ts2]|]|] eqn:Et; try discriminate;
         pose proof (Kterm _ _ _ Et Hpf) as Hpf2;
         destruct (Hsumr _ _ _ _ Hp Hpf2 Hw) as [Hwl [mid2 [-> Hm2]]];
         apply whitelisted_BinOp in Hwl; destruct Hwl as [_ [Hwl Hwr]];
         destruct (Hterm _ _ _ Et Hpf Hwr) as [c [mid1 [-> [Hc Hm1]]]];
         split; [assumption|];
         eexists (_ :: TNum c :: mid1 ++ mid2)%list; split;
         [cbn [app]; rewrite <- app_assoc; reflexivity|];
         cbn [operator_number_pairs binary_token andb]; rewrite Hc; cbn [andb];
         eapply pairs_app; eauto).
    + (* term *)
      intros ts e ts' Hp Hpf Hw. cbn [p_term] in Hp.
      destruct (p_factor n ts) as [[[l ts1]|]|] eqn:Ef; try discriminate.
      pose proof (Kfac _ _ _ Ef Hpf) as Hpf1.
      destruct (Htermr _ _ _ _ Hp Hpf1 Hw) as [Hwl [mid [-> Hm]]].
      destruct (Hfac _ _ _ Ef Hpf Hwl) as [c [-> Hc]].
      exists c, mid. repeat split; assumption.
    + (* term_rest *)
      intros l ts e ts' Hp Hpf Hw. cbn [p_term_rest] in Hp.
      destruct ts as [|t ts1];
        [inversion Hp; subst; split; [assumption|exists []; split; reflexivity]|].
      destruct t;
        try (inversion Hp; subst; split; [assumption|exists []; split; reflexivity]);
        split_paren_free;
        (destruct (p_factor n ts1) as [[[r ts2]|]|] eqn:Ef; try discriminate;
         pose proof (Kfac _ _ _ Ef Hpf) as Hpf2;
         destruct (Htermr _ _ _ _ Hp Hpf2 Hw) as [Hwl [mid2 [-> Hm2]]];
         apply whitelisted_BinOp in Hwl; destruct Hwl as [Hop [Hwl Hwr]];
         first
           [ solve [destruct Hop as [Hop|[Hop|[Hop|Hop]]]; discriminate Hop]
           | destruct (Hfac _ _ _ Ef Hpf Hwr) as [c [-> Hc]];
             split; [assumption|];
             eexists (_ :: TNum c :: mid2); split; [reflexivity|];
             cbn [operator_number_pairs binary_token andb]; rewrite Hc; cbn [andb];
             assumption ]).
    + (* factor *)
      intros ts e ts' Hp Hpf Hw. cbn [p_factor] in Hp.
      destruct ts as [|t ts1]; [eapply Hpow; eassumption|].
      destruct t; try (eapply Hpow; eassumption);
        (destruct (p_factor n ts1) as [[[r ts2]|]|]; try discriminate;
         inversion Hp; subst; discriminate).
    + (* power *)
      intros ts e ts' Hp Hpf Hw. cbn [p_power] in Hp.
      destruct (p_primary n ts) as [[[l ts1]|]|] eqn:Ep; try discriminate.
      destruct ts1 as [|t ts1];
        [inversion Hp; subst; eapply Hprim; eassumption|].
      destruct t; try (inversion Hp; subst; eapply Hprim; eassumption).
      destruct (p_factor n ts1) as [[[r ts2]|]|]; try discriminate.
      inversion Hp; subst. discriminate.
    + (* primary *)
      intros ts e ts' Hp Hpf Hw. cbn [p_primary] in Hp.
      destruct (p_atom n ts) as [[[a ts1]|]|] eqn:Ea; try discriminate.
      pose proof (Katom _ _ _ Ea Hpf) as Hpf1.
      destruct (Htr _ _ _ _ Hp Hpf1) as [-> ->].
      eapply Hatom; eassumption.
    + (* trailers *)
      intros f ts e ts' Hp Hpf. cbn [p_trailers] in Hp.
      destruct ts as [|t ts1]; [inversion Hp; split; reflexivity|].
      destruct t; try (inversion Hp; split; reflexivity); discriminate.
    + (* atom *)
      intros ts e ts' Hp Hpf Hw. cbn [p_atom] in Hp.
      destruct ts as [|t ts1]; [discriminate|].
      destruct t; try discriminate.
      * inversion Hp; subst. exists c. split; [reflexivity|].
        apply whitelisted_constant; assumption.
      * inversion Hp; subst. discriminate.
Qed.

Lemma parse_tokens_flat ts tree :
  paren_free ts = true -> parse_tokens ts = Ok tree -> whitelisted tree = true ->
  flat_tokens ts = true.
Proof.
  intros Hpf Hp Hw. unfold parse_tokens in Hp.
  destruct (p_sum (parse_fuel ts) ts) as [[[e rest]|]|] eqn:E; try discriminate.
  destruct rest; [|discriminate]. inversion Hp; subst.
  destruct (parse_whitelisted_flat (parse_fuel ts)) as (Hsum & _).
  destruct (Hsum _ _ _ E Hpf Hw) as [c [mid [-> [Hc Hm]]]].
  rewrite app_nil_r. cbn [flat_tokens]. rewrite Hc, Hm. reflexivity.
Qed.

(** X12. [try_math] answers only flat arithmetic.  Whenever it returns a
    reply, the normalized text is a sequence of tokens made of a number
    followed by pairs of one of [+ - * /] and a number: no sign, no
    parenthesis, no exponent, no floor division. *)
Theorem answers_only_flat_arithmetic :
  forall fr cr text reply,
    try_math ast_parse fr cr text = Some reply ->
    exists ts, tokenize (normalize_math text) = Ok ts /\ flat_tokens ts = true.
Proof.
  intros fr cr text reply H. unfold try_math in H.
  destruct (negb (search math_cue (lower text))); [discriminate|].
  fold (normalize_math text) in H.
  destruct (safe_eval ast_parse (normalize_math text)) as [v|] eqn:E; [|discriminate].
  unfold safe_eval in E. apply bind_ok_inv in E. destruct E as [tree [Hp He]].
  unfold ast_parse in Hp. apply bind_ok_inv in Hp. destruct Hp as [ts [Ht Hp]].
  exists ts. split; [assumption|].
  eapply parse_tokens_flat; [|eassumption|].
  - eapply tokenize_paren_free; [|eassumption]. apply math_text_all.
  - eapply arith_result_whitelisted, eval_arith_result; eassumption.
Qed.

Lemma answers_only_flat_arithmetic_witness :
  exists ts, tokenize (normalize_math "what is 12 times 3 minus 4") = Ok ts /\
             flat_tokens ts = true.
Proof.
  apply (answers_only_flat_arithmetic no_float_repr no_complex_repr
           "what is 12 times 3 minus 4" "The answer is: 32.").
  vm_compute. reflexivity.
Defined.

(** ** The letter x between two numbers *)

Lemma length_app a b : String.length (a ++ b) = String.length a + String.length b.
Proof. induction a as [|c a IH]; cbn; [reflexivity|]. rewrite IH. reflexivity. Qed.

Lemma substring_prefix u v : substring 0 (String.length u) (u ++ v) = u.
Proof. induction u as [|c u IH]; cbn; [destruct v; reflexivity|]. rewrite IH. reflexivity. Qed.

Lemma last_char_app u e p : last_char (u ++ String e EmptyString) p = Some e.
Proof. revert p. induction u as [|c u IH]; intros p; cbn; [reflexivity|]. apply IH. Qed.

(** Greedy blanks: the star runs over all of them. *)
Lemma exec_star_spaces {A} (k : option ascii -> string -> option A) (a : A) s :
  starts_solid s = true ->
  forall i prev,
    k (after_blanks i prev) s = Some a ->
    exec (Star (Cls is_space)) prev (spaces i ++ s) k = Some a.
Proof.
  intros Hs i prev Hk. cbn [exec].
  assert (Hfuel : i <= String.length (spaces i ++ s)).
  { rewrite length_app. clear. induction i; cbn; lia. }
  revert Hfuel. generalize (String.length (spaces i ++ s)) as fuel.
  revert prev Hk. induction i as [|i IH]; intros prev Hk fuel Hfuel.
  - cbn [spaces append after_blanks] in *. destruct fuel as [|fuel]; [exact Hk|].
    destruct s as [|c s']; [exact Hk|]. cbn in Hs.
    cbn [exec]. destruct (is_space c); [discriminate|exact Hk].
  - destruct fuel as [|fuel]; [lia|].
    cbn [spaces append]. cbn [exec].
    change (is_space " ") with true. cbn iota.
    replace (Nat.ltb (String.length (spaces i ++ s)) (String.length (String " " (spaces i ++ s))))
      with true by (symmetry; apply Nat.ltb_lt; cbn; lia).
    rewrite (IH (Some " "%char)); [reflexivity| |lia].
    destruct i; exact Hk.
Qed.

Lemma digit_starts_solid c s : is_digit c = true -> starts_solid (String c s) = true.
Proof.
  intros H. cbn. destruct c as [[] [] [] [] [] [] [] []]; vm_compute in H |- *;
    (reflexivity || discriminate).
Qed.

(** The pattern matches a digit, blanks, x, blanks, a digit. *)
Lemma digit_x_digit_matches prev d i j e post :
  is_digit d = true -> is_digit e = true ->
  matches_here digit_x_digit prev
    (String d (spaces i ++ String "x" (spaces j ++ String e post))) = Some post.
Proof.
  intros Hd He. unfold matches_here, digit_x_digit. cbn [seqs].
  cbn [exec]. rewrite Hd.
  apply exec_star_spaces; [reflexivity|].
  cbn [exec strip_prefix]. rewrite Ascii.eqb_refl.
  apply exec_star_spaces; [apply digit_starts_solid; assumption|].
  cbn [exec]. rewrite He. reflexivity.
Qed.

Lemma digit_not_x c : is_digit c = true -> Ascii.eqb "x" c = false /\ is_space c = false.
Proof.
  destruct c as [[] [] [] [] [] [] [] []]; vm_compute; intros H;
    first [discriminate | split; reflexivity].
Qed.

(** It does not match at a digit that another digit follows. *)
Lemma digit_x_digit_fails prev d d' t :
  is_digit d' = true ->
  matches_here digit_x_digit prev (String d (String d' t)) = None.
Proof.
  intros Hd'. destruct (digit_not_x d' Hd') as [Hx Hsp].
  unfold matches_here, digit_x_digit. cbn [seqs]. cbn [exec].
  destruct (is_digit d); [|reflexivity].
  cbn [String.length]. cbn [exec]. rewrite Hsp. cbn [strip_prefix]. rewrite Hx. reflexivity.
Qed.

Lemma sub_from_skip r repl u : forall m v prev,
  String.length u = m ->
  sub_from r repl m prev (u ++ v) = sub_from r repl 0 (last_char u prev) v.
Proof.
  induction u as [|c u IH]; intros m v prev Hm.
  - cbn in Hm. subst. reflexivity.
  - cbn in Hm. subst. cbn [append sub_from last_char]. apply IH. reflexivity.
Qed.

Lemma digits_free_of_x ds : forall_chars is_digit ds = true -> free_of is_x ds = true.
Proof.
  unfold free_of. induction ds as [|c ds IH]; simpl; intros H; [reflexivity|].
  apply andb_true_iff in H. destruct H as [Hc Hs]. rewrite (IH Hs).
  destruct (digit_not_x c Hc) as [Hx _]. unfold is_x.
  rewrite Ascii.eqb_sym, Hx. reflexivity.
Qed.

(** The collapse of an infix x between two runs of digits. *)
Lemma collapse_infix_x a : forall prev i j e post,
  a <> EmptyString -> forall_chars is_digit a = true ->
  is_digit e = true -> forall_chars is_digit post = true ->
  sub_from digit_x_digit group1_star_group2 0 prev
    (a ++ spaces i ++ String "x" (spaces j ++ String e post))
  = a ++ String "*" (String e post).
Proof.
  induction a as [|d a IH]; intros prev i j e post Hne Ha He Hpost; [contradiction|].
  cbn in Ha. apply andb_true_iff in Ha. destruct Ha as [Hd Ha].
  destruct a as [|d' a'].
  - cbn [append]. cbn [sub_from].
    rewrite (digit_x_digit_matches prev d i j e post Hd He).
    set (U := spaces i ++ String "x" (spaces j)).
    assert (EU : spaces i ++ String "x" (spaces j ++ String e post)
                 = (U ++ String e EmptyString) ++ post).
    { unfold U. rewrite !append_assoc. reflexivity. }
    rewrite EU.
    assert (En : String.length (String d ((U ++ String e EmptyString) ++ post))
                 - String.length post = S (String.length (U ++ String e EmptyString))).
    { cbn [String.length]. rewrite length_app. lia. }
    rewrite En.
    change (String d ((U ++ String e EmptyString) ++ post))
      with ((String d (U ++ String e EmptyString)) ++ post).
    change (S (String.length (U ++ String e EmptyString)))
      with (String.length (String d (U ++ String e EmptyString))) at 1.
    rewrite substring_prefix.
    cbn [append]. rewrite sub_from_skip by reflexivity.
    rewrite (sub_requires is_x) by (reflexivity || apply digits_free_of_x; assumption).
    unfold group1_star_group2. cbn [last_char]. rewrite last_char_app. reflexivity.
  - cbn in Ha. pose proof Ha as Ha2. apply andb_true_iff in Ha. destruct Ha as [Hd' Ha].
    cbn [append]. cbn [sub_from].
    rewrite (digit_x_digit_fails prev d d' _ Hd').
    f_equal. apply (IH (Some d) i j e post); [discriminate|exact Ha2|assumption|assumption].
Qed.

Lemma lower_app u v : lower (u ++ v) = lower u ++ lower v.
Proof. induction u as [|c u IH]; cbn; [reflexivity|]. rewrite IH. reflexivity. Qed.

Lemma free_of_app p u v : free_of p (u ++ v) = free_of p u && free_of p v.
Proof. unfold free_of. apply forall_chars_app. Qed.

Lemma math_free_of_word s : forall_chars math_char s = true -> free_of word_char s = true.
Proof.
  unfold free_of. induction s as [|c s IH]; simpl; intros H; [reflexivity|].
  apply andb_true_iff in H. destruct H as [Hc Hs]. unfold word_char at 1.
  rewrite Hc. simpl. auto.
Qed.

Lemma render_product a b : render (product a b) = a ++ String "*" b.
Proof.
  unfold render, product, render_term. cbn. rewrite append_empty_r. reflexivity.
Qed.

Lemma int_literal_digits a :
  literal_ok (IntLit a) = true -> a <> EmptyString /\ forall_chars is_digit a = true.
Proof.
  unfold literal_ok. intros H. apply andb_true_iff in H. destruct H as [H _].
  apply andb_true_iff in H. destruct H as [Hne Hd]. split; [|assumption].
  destruct a; [discriminate|discriminate].
Qed.

Lemma infix_x_lower a i j b :
  forall_chars is_digit a = true -> forall_chars is_digit b = true ->
  lower (infix_x a i j b) = infix_x a i j b.
Proof.
  intros Ha Hb. unfold infix_x. rewrite !lower_app. cbn [lower]. rewrite !lower_app.
  rewrite (lower_math a (digits_math a Ha)), (lower_math b (digits_math b Hb)).
  rewrite !(lower_math _ (spaces_math _)). reflexivity.
Qed.

Lemma infix_x_free_of_word a i j b :
  forall_chars is_digit a = true -> forall_chars is_digit b = true ->
  free_of word_char (infix_x a i j b) = true.
Proof.
  intros Ha Hb. unfold infix_x. rewrite !free_of_app.
  rewrite (math_free_of_word a (digits_math a Ha)).
  rewrite (math_free_of_word _ (spaces_math i)).
  unfold free_of at 1. cbn [forall_chars]. fold (free_of word_char (spaces j ++ b)).
  rewrite free_of_app, (math_free_of_word _ (spaces_math j)).
  rewrite (math_free_of_word b (digits_math b Hb)). reflexivity.
Qed.

Lemma words_to_numbers_infix_x a i j b :
  forall_chars is_digit a = true -> forall_chars is_digit b = true ->
  words_to_numbers (infix_x a i j b) = infix_x a i j b.
Proof.
  intros Ha Hb. pose proof (infix_x_free_of_word a i j b Ha Hb) as H.
  unfold words_to_numbers. apply fold_left_fixed. unfold NUM_WORDS.
  repeat (constructor; [apply (sub_requires word_char); [reflexivity|exact H]|]).
  constructor.
Qed.

Lemma words_to_operators_infix_x a i j b :
  literal_ok (IntLit a) = true -> literal_ok (IntLit b) = true ->
  words_to_operators (infix_x a i j b) = a ++ String "*" b.
Proof.
  intros Hla Hlb.
  destruct (int_literal_digits a Hla) as [Hna Ha].
  destruct (int_literal_digits b Hlb) as [Hnb Hb].
  destruct b as [|e post]; [contradiction|].
  cbn in Hb. apply andb_true_iff in Hb. destruct Hb as [He Hpost].
  unfold words_to_operators, Re.sub, infix_x.
  rewrite (collapse_infix_x a None i j e post Hna Ha He Hpost).
  assert (Hm : free_of other_char (a ++ String "*" (String e post)) = true).
  { apply free_of_other. rewrite forall_chars_app. rewrite (digits_math a Ha).
    cbn [forall_chars]. unfold math_char at 2. rewrite He.
    rewrite (digits_math post Hpost). reflexivity. }
  apply fold_left_fixed. unfold OP_WORDS.
  repeat (constructor; [apply (replace_requires other_char); [reflexivity|exact Hm]|]).
  constructor.
Qed.

(** X13. The letter [x] between two integers, with any number of blanks
    on either side, is read as a multiplication: the normalized text is
    the two integers joined by [*], and [try_math] answers with their
    product, provided the interpreter has room for the two integers, the
    tree of their product and the digits of the result. *)
Theorem infix_x_multiplies :
  forall I fr cr a i j b,
    literal_ok (IntLit a) = true -> literal_ok (IntLit b) = true ->
    fits I (product a b) = true ->
    shows I (digits_value 0 a * digits_value 0 b) = true ->
    normalize_math (infix_x a i j b) = a ++ String "*" b /\
    Bounded.try_math I (Bounded.ast_parse I) fr cr (infix_x a i j b)
    = Some ("The answer is: " ++ str_of_int (digits_value 0 a * digits_value 0 b) ++ ".").
Proof.
  intros I fr cr a i j b Hla Hlb Hfit Hshow.
  destruct (int_literal_digits a Hla) as [Hna Ha].
  destruct (int_literal_digits b Hlb) as [Hnb Hb].
  assert (Hwf : well_formed (product a b) = true).
  { unfold well_formed, term_ok, product. cbn [first_term more_terms fst snd forallb].
    rewrite Hla, Hlb. reflexivity. }
  pose proof (render_math _ Hwf) as Hmath. rewrite render_product in Hmath.
  destruct (render_solid _ Hwf eq_refl) as [_ Hstrip]. rewrite render_product in Hstrip.
  assert (Hn : math_text (infix_x a i j b) = a ++ String "*" b).
  { unfold math_text. rewrite (words_to_numbers_infix_x a i j b Ha Hb).
    rewrite (words_to_operators_infix_x a i j b Hla Hlb).
    rewrite delete_other_chars, filter_chars_id by assumption. exact Hstrip. }
  split.
  - unfold normalize_math. rewrite (infix_x_lower a i j b Ha Hb). exact Hn.
  - unfold Bounded.try_math, Bounded.try_math_as. rewrite (infix_x_lower a i j b Ha Hb).
    unfold search. rewrite search_from_digit.
    + cbn [negb]. rewrite Hn. rewrite <- render_product.
      rewrite (safe_eval_render I _ Hwf Hfit).
      rewrite (eval_int_expression (product a b)) by reflexivity.
      cbn [Py.bind Bounded.format_result].
      change (int_value (product a b)) with (digits_value 0 a * digits_value 0 b)%Z.
      rewrite (str_int_shows I _ Hshow). reflexivity.
    + unfold infix_x. apply has_digit_app.
      apply (literal_has_digit (IntLit a)). assumption.
Qed.

Lemma infix_x_multiplies_witness :
  normalize_math (infix_x "12" 1 2 "34") = "12" ++ String "*" "34" /\
  Bounded.try_math sample_interpreter (Bounded.ast_parse sample_interpreter)
                   no_float_repr no_complex_repr (infix_x "12" 1 2 "34")
  = Some ("The answer is: " ++ str_of_int (digits_value 0 "12" * digits_value 0 "34") ++ ".").
Proof.
  apply (infix_x_multiplies sample_interpreter no_float_repr no_complex_repr "12" 1 2 "34");
    reflexivity.
Defined.

(** ** Spoken arithmetic *)

(** X14. For any two number words of [NUM_WORDS], [try_math] answers
    their sum, difference and product when the words are joined by
    [plus], [minus], [times], [into] or [multiplied by].  Joined by
    [divide by] or [divided by], it gives no answer when the second word
    is [zero], the integer quotient when the division is exact, and the
    [repr] of the float quotient otherwise. *)
Theorem spoken_arithmetic :
  forall fr cr w1 n1 w2 n2,
    In (w1, n1) NUM_WORDS -> In (w2, n2) NUM_WORDS ->
    try_math ast_parse fr cr (spoken w1 "plus" w2) = Some (answer (n1 + n2)) /\
    try_math ast_parse fr cr (spoken w1 "minus" w2) = Some (answer (n1 - n2)) /\
    try_math ast_parse fr cr (spoken w1 "times" w2) = Some (answer (n1 * n2)) /\
    try_math ast_parse fr cr (spoken w1 "into" w2) = Some (answer (n1 * n2)) /\
    try_math ast_parse fr cr (spoken w1 "multiplied by" w2) = Some (answer (n1 * n2)) /\
    try_math ast_parse fr cr (spoken w1 "divide by" w2) = quotient_answer fr n1 n2 /\
    try_math ast_parse fr cr (spoken w1 "divided by" w2) = quotient_answer fr n1 n2.
Proof.
  intros fr cr w1 n1 w2 n2 H1 H2.
  unfold NUM_WORDS in H1, H2. cbn [In] in H1, H2.
  repeat match goal with
         | H : _ \/ _ |- _ => destruct H as [H|H]
         | H : False |- _ => contradiction
         | H : (_, _) = (_, _) |- _ => inversion H; subst; clear H
         end;
    vm_compute; repeat split.
Qed.

Lemma spoken_arithmetic_witness :
  try_math ast_parse no_float_repr no_complex_repr (spoken "seven" "plus" "three")
  = Some (answer (7 + 3)) /\
  try_math ast_parse no_float_repr no_complex_repr (spoken "seven" "minus" "three")
  = Some (answer (7 - 3)) /\
  try_math ast_parse no_float_repr no_complex_repr (spoken "seven" "times" "three")
  = Some (answer (7 * 3)) /\
  try_math ast_parse no_float_repr no_complex_repr (spoken "seven" "into" "three")
  = Some (answer (7 * 3)) /\
  try_math ast_parse no_float_repr no_complex_repr (spoken "seven" "multiplied by" "three")
  = Some (answer (7 * 3)) /\
  try_math ast_parse no_float_repr no_complex_repr (spoken "seven" "divide by" "three")
  = quotient_answer no_float_repr 7 3 /\
  try_math ast_parse no_float_repr no_complex_repr (spoken "seven" "divided by" "three")
  = quotient_answer no_float_repr 7 3.
Proof.
  apply (spoken_arithmetic no_float_repr no_complex_repr "seven" 7%Z "three" 3%Z);
    unfold NUM_WORDS; cbn [In]; tauto.
Defined.

(** ** The standalone intent rules *)

Lemma strip_prefix_app w : forall t s', strip_prefix w t = Some s' -> t = w ++ s'.
Proof.
  induction w as [|a w IH]; simpl; intros t s' H.
  - inversion H. reflexivity.
  - destruct t as [|b t]; [discriminate|].
    destruct (Ascii.eqb_spec a b); [|discriminate]. subst. f_equal. apply IH. assumption.
Qed.

(** A successful match of one of the words leaves the text after that word. *)
Lemma exec_words_inv {A : Type} ws : forall prev t (k : option ascii -> string -> option A),
  exec (words ws) prev t k <> None ->
  exists w s', In w ws /\ t = w ++ s' /\ k (last_char w prev) s' <> None.
Proof.
  unfold words. induction ws as [|w ws IH]; intros prev t k H.
  - simpl in H. destruct t; congruence.
  - assert (Hw : exec (Lit w) prev t k <> None ->
                 exists s', t = w ++ s' /\ k (last_char w prev) s' <> None).
    { cbn [exec]. destruct (strip_prefix w t) as [s'|] eqn:E; [|congruence].
      intros Hk. exists s'. split; [apply strip_prefix_app; assumption|assumption]. }
    destruct ws as [|w' ws'].
    + cbn [map alts] in H. destruct (Hw H) as [s' [Ht Hk]].
      exists w, s'. repeat split; [left; reflexivity|assumption|assumption].
    + change (alts (map Lit (w :: w' :: ws'))) with (Alt (Lit w) (alts (map Lit (w' :: ws')))) in H.
      cbn [exec] in H. change (match strip_prefix w t with
                               | Some s' => k (last_char w prev) s'
                               | None => None end) with (exec (Lit w) prev t k) in H.
      destruct (exec (Lit w) prev t k) eqn:E.
      * destruct Hw as [s' [Ht Hk]]; [congruence|].
        exists w, s'. repeat split; [left; reflexivity|assumption|assumption].
      * destruct (IH prev t k H) as [w0 [s' [Hin [Ht Hk]]]].
        exists w0, s'. repeat split; [right; assumption|assumption|assumption].
Qed.

(** [(h1|h2|...)(n1|n2|...)?] matches a whole text only if the text is
    one of the heads, alone or followed by one of the names. *)
Lemma greeting_rule_inv (names : list string) heads t :
  fullmatch (Seq (words heads) (Opt (words names))) t = true ->
  exists h, In h heads /\ (t = h \/ exists n, In n names /\ t = h ++ n).
Proof.
  unfold fullmatch. fold at_end. intros H.
  destruct (exec (Seq (words heads) (Opt (words names))) None t at_end) eqn:E; [|discriminate].
  cbn [exec] in E.
  destruct (exec_words_inv heads None t
              (fun prev' s' => match exec (words names) prev' s' at_end with
                               | Some a => Some a
                               | None => at_end prev' s'
                               end)) as [h [s' [Hin [Ht Hk]]]]; [congruence|].
  exists h. split; [assumption|].
  destruct (exec (words names) (last_char h None) s' at_end) eqn:En.
  - right. destruct (exec_words_inv names (last_char h None) s' at_end) as [n [s'' [Hn [Hs Hk']]]];
      [congruence|].
    exists n. split; [assumption|]. destruct s''; [|simpl in Hk'; congruence].
    rewrite Ht, Hs. rewrite append_empty_r. reflexivity.
  - left. destruct s'; [|simpl in Hk; congruence]. rewrite Ht. apply append_empty_r.
Qed.

Lemma fullmatch_lit w t : fullmatch (Lit w) t = true -> t = w.
Proof.
  intros H. apply (exec_lit_at_end w None t). unfold fullmatch in H. fold at_end in H.
  destruct (exec (Lit w) None t at_end); congruence.
Qed.

Ltac split_clock H :=
  unfold time_formats, time_formats_2 in H;
  repeat match goal with
         | H' : Forall _ (_ :: _) |- _ => inversion H'; subst; clear H'
         end;
  cbv beta in *.

Ltac split_cases :=
  repeat match goal with
         | H : _ \/ _ |- _ => destruct H as [H|H]
         | H : False |- _ => contradiction
         end.

Ltac walk_rules :=
  repeat match goal with
         | |- (if ?c then _ else _) = _ -> _ =>
             destruct c eqn:?;
             [ intros H; try discriminate H;
               try (inversion H; intuition congruence) | ]
         end.

(** X15. Provided the clock does not itself print the greeting,
    [local_answer] of [ai_server.py] greets exactly when the normalized
    utterance is [hi], [hello], [hey] or [namaste], alone or followed by
    [aarya] or [ariya], or is [hello arya]: a greeting inside a longer
    utterance is not answered with the greeting. *)
Theorem greeting_only_if_standalone :
  forall clock text,
    Forall (fun fmt => clock fmt <> greeting) time_formats ->
    (local_answer clock text = Some greeting <->
     In (normalize_intent text) greeting_phrases).
Proof.
  intros clock text Hclock. split_clock Hclock. split.
  - unfold local_answer. set (t := normalize_intent text).
    destruct (fullmatch _ t) eqn:E1.
    { intros _. apply greeting_rule_inv in E1.
      destruct E1 as [h [Hh [Ht|[n [Hn Ht]]]]]; rewrite Ht;
        cbn [In] in *; split_cases; subst; vm_compute; tauto. }
    destruct (fullmatch (Lit "hello arya") t) eqn:E2.
    { intros _. apply fullmatch_lit in E2. rewrite E2. vm_compute; tauto. }
    walk_rules. discriminate.
  - intros H. unfold local_answer.
    unfold greeting_phrases in H. cbn [In] in H.
    split_cases; rewrite <- H; reflexivity.
Qed.

Lemma greeting_only_if_standalone_witness :
  local_answer frozen_clock "Hey, Aarya!" = Some greeting <->
  In (normalize_intent "Hey, Aarya!") greeting_phrases.
Proof.
  apply (greeting_only_if_standalone frozen_clock "Hey, Aarya!").
  unfold time_formats, frozen_clock. repeat constructor; discriminate.
Defined.

(** X16. In [ai_server_2.py], provided the clock prints neither
    sentence, [local_answer] says [You are welcome! ] exactly when the
    normalized utterance is [thanks], [thank you] or [thank u], and
    [Goodbye! Have a great day.] exactly when it is [bye], [goodbye] or
    [see you]; no earlier rule takes these utterances. *)
Theorem second_server_thanks_and_farewell :
  forall clock text,
    Forall (fun fmt => clock fmt <> welcome_2 /\ clock fmt <> goodbye_2) time_formats_2 ->
    (AiServer2.local_answer clock text = Some welcome_2 <->
     In (normalize_intent text) thanks_phrases) /\
    (AiServer2.local_answer clock text = Some goodbye_2 <->
     In (normalize_intent text) farewell_phrases).
Proof.
  intros clock text Hclock. split_clock Hclock.
  split; split.
  - unfold AiServer2.local_answer. set (t := normalize_intent text). walk_rules.
    + apply fullmatch_words. assumption.
    + discriminate.
  - intros H. unfold AiServer2.local_answer.
    destruct H as [H|[H|[H|[]]]]; rewrite <- H; reflexivity.
  - unfold AiServer2.local_answer. set (t := normalize_intent text). walk_rules.
    + apply fullmatch_words. assumption.
    + discriminate.
  - intros H. unfold AiServer2.local_answer.
    destruct H as [H|[H|[H|[]]]]; rewrite <- H; reflexivity.
Qed.

Lemma second_server_thanks_and_farewell_witness :
  (AiServer2.local_answer frozen_clock "Good-bye." = Some welcome_2 <->
   In (normalize_intent "Good-bye.") thanks_phrases) /\
  (AiServer2.local_answer frozen_clock "Good-bye." = Some goodbye_2 <->
   In (normalize_intent "Good-bye.") farewell_phrases).
Proof.
  apply (second_server_thanks_and_farewell frozen_clock "Good-bye.").
  unfold time_formats_2, frozen_clock. repeat constructor; discriminate.
Defined.

(** X17. If the clock never prints an empty text for the formats the
    servers use, no intent rule of either server gives an empty reply:
    a rule that matches is always taken by [ask]. *)
Theorem local_answer_never_blank :
  forall clock text reply,
    Forall (fun fmt => clock fmt <> EmptyString) time_formats ->
    local_answer clock text = Some reply \/
    AiServer2.local_answer clock text = Some reply ->
    reply <> EmptyString.
Proof.
  intros clock text reply Hclock H. split_clock Hclock.
  destruct H as [H|H]; revert H;
    [unfold local_answer | unfold AiServer2.local_answer];
    set (t := normalize_intent text);
    repeat match goal with
           | |- (if ?c then _ else _) = _ -> _ =>
               destruct c;
               [ intros H; inversion H; subst; first [assumption | discriminate] | ]
           end;
    discriminate.
Qed.

Lemma local_answer_never_blank_witness : "My name is Aarya." <> EmptyString.
Proof.
  apply (local_answer_never_blank frozen_clock "what is your name" "My name is Aarya.").
  - unfold time_formats, frozen_clock. repeat constructor; discriminate.
  - left. reflexivity.
Defined.

(** ** What the servers print *)

(** The two [print] calls that follow the user line in
    [ai_server_2.py]. *)
Lemma respond2_run I user_text reply :
  Bounded.printable I user_text = true ->
  (let '(out, res) := Bounded2.respond I reply ("USER : " ++ user_text ++ nl) in
   {| Bounded.written := out; Bounded.returned := res |})
  = printed I user_text reply.
Proof.
  intros Ht. unfold printed. rewrite Ht.
  unfold Bounded2.respond. unfold Bounded.and_then at 1.
  rewrite print2_run by reflexivity.
  destruct (Bounded.printable I reply).
  - unfold Bounded.and_then. rewrite print1_run by reflexivity.
    unfold Bounded.ret, Bounded.transcript. rewrite !append_assoc. reflexivity.
  - rewrite !append_assoc. reflexivity.
Qed.

(** [ask] of [ai_server_2.py], strategy by strategy. *)
Lemma ask2_within_unfold I parse fr cr clock backend body :
  Bounded2.ask I parse fr cr clock backend body =
  match request_text body with
  | Raise e => failed e
  | Ok user_text =>
      if Bounded.printable I user_text then
        if String.eqb user_text EmptyString
        then printed I user_text "Please say something."
        else if truthy_reply (Bounded2.try_math I parse fr cr user_text)
             then printed I user_text (the_reply (Bounded2.try_math I parse fr cr user_text))
             else if truthy_reply (AiServer2.local_answer clock user_text)
                  then printed I user_text
                         (the_reply (AiServer2.local_answer clock user_text))
                  else match AiServer2.ollama_reply backend user_text with
                       | Ok reply => printed I user_text reply
                       | Raise e =>
                           {| Bounded.written := "USER : " ++ user_text ++ nl;
                              Bounded.returned := Raise e |}
                       end
      else {| Bounded.written := "USER : "; Bounded.returned := Raise UnicodeEncodeError |}
  end.
Proof.
  unfold Bounded2.ask. change (Bounded.user_text_of body) with (request_text body).
  destruct (request_text body) as [t|e]; [|reflexivity].
  change (Bounded.perform (Bounded.and_then (Bounded.lift (Ok t)) ?k))
    with (Bounded.perform (k t)). cbv beta.
  unfold Bounded.perform. unfold Bounded.and_then at 1.
  rewrite print2_run by reflexivity.
  destruct (Bounded.printable I t) eqn:Ht; [|reflexivity].
  change (EmptyString ++ "USER :" ++ " " ++ t ++ nl) with ("USER : " ++ t ++ nl).
  destruct (String.eqb t EmptyString); [apply respond2_run; exact Ht|].
  destruct (truthy_reply (Bounded2.try_math I parse fr cr t)); [apply respond2_run; exact Ht|].
  destruct (truthy_reply (AiServer2.local_answer clock t)); [apply respond2_run; exact Ht|].
  unfold Bounded.and_then at 1. unfold Bounded.lift.
  destruct (AiServer2.ollama_reply backend t) as [r|e]; [apply respond2_run; exact Ht|].
  reflexivity.
Qed.

(** X18. Every reply that [ask] returns has been printed in full: the
    user line, the reply line and the line of dashes.  When [ask] of
    [ai_server.py] raises, nothing has been written, unless it is [print]
    that raised because the console cannot encode the text or the reply:
    then the output stops before that text.  [ai_server_2.py] prints the
    user line first, so when its [ask] raises after the text was read, the
    output stops within the user line, after it (the backend failed), or
    within the reply line. *)
Theorem replies_are_logged :
  forall I parse fr cr clock backend body,
    match Bounded.returned (Bounded.ask I parse fr cr clock backend body) with
    | Ok reply =>
        exists user_text,
          request_text body = Ok user_text /\
          Bounded.written (Bounded.ask I parse fr cr clock backend body)
          = Bounded.transcript user_text reply
    | Raise e =>
        Bounded.written (Bounded.ask I parse fr cr clock backend body) = EmptyString \/
        (e = UnicodeEncodeError /\
         exists user_text,
           request_text body = Ok user_text /\
           (Bounded.written (Bounded.ask I parse fr cr clock backend body) = "USER : " \/
            Bounded.written (Bounded.ask I parse fr cr clock backend body)
            = "USER : " ++ user_text ++ nl ++ "AARYA: "))
    end /\
    match Bounded.returned (Bounded2.ask I parse fr cr clock backend body) with
    | Ok reply =>
        exists user_text,
          request_text body = Ok user_text /\
          Bounded.written (Bounded2.ask I parse fr cr clock backend body)
          = Bounded.transcript user_text reply
    | Raise e =>
        match request_text body with
        | Raise _ =>
            Bounded.written (Bounded2.ask I parse fr cr clock backend body) = EmptyString
        | Ok user_text =>
            (e = UnicodeEncodeError /\
             Bounded.written (Bounded2.ask I parse fr cr clock backend body) = "USER : ") \/
            (AiServer2.ollama_reply backend user_text = Raise e /\
             Bounded.written (Bounded2.ask I parse fr cr clock backend body)
             = "USER : " ++ user_text ++ nl) \/
            (e = UnicodeEncodeError /\
             Bounded.written (Bounded2.ask I parse fr cr clock backend body)
             = "USER : " ++ user_text ++ nl ++ "AARYA: ")
        end
    end.
Proof.
  intros I parse fr cr clock backend body. split.
  - rewrite ask_within_unfold. destruct (request_text body) as [t|e]; [|left; reflexivity].
    assert (P : forall r,
      match Bounded.returned (printed I t r) with
      | Ok reply =>
          exists user_text,
            Ok t = Ok user_text /\
            Bounded.written (printed I t r) = Bounded.transcript user_text reply
      | Raise e =>
          Bounded.written (printed I t r) = EmptyString \/
          (e = UnicodeEncodeError /\
           exists user_text,
             Ok t = Ok user_text /\
             (Bounded.written (printed I t r) = "USER : " \/
              Bounded.written (printed I t r) = "USER : " ++ user_text ++ nl ++ "AARYA: "))
      end).
    { intros r. unfold printed. destruct (Bounded.printable I t).
      - destruct (Bounded.printable I r); cbn.
        + exists t. split; reflexivity.
        + right. split; [reflexivity|]. exists t. split; [reflexivity|]. right. reflexivity.
      - cbn. right. split; [reflexivity|]. exists t. split; [reflexivity|]. left. reflexivity. }
    destruct (String.eqb t EmptyString); [apply P|].
    destruct (truthy_reply (Bounded.try_math I parse fr cr t)); [apply P|].
    destruct (truthy_reply (local_answer clock t)); [apply P|].
    destruct (ollama_reply backend t); [apply P|left; reflexivity].
  - rewrite ask2_within_unfold. destruct (request_text body) as [t|e]; [|reflexivity].
    destruct (Bounded.printable I t) eqn:Ht; [|cbn; left; split; reflexivity].
    assert (P : forall r,
      match Bounded.returned (printed I t r) with
      | Ok reply =>
          exists user_text,
            Ok t = Ok user_text /\
            Bounded.written (printed I t r) = Bounded.transcript user_text reply
      | Raise e =>
          (e = UnicodeEncodeError /\ Bounded.written (printed I t r) = "USER : ") \/
          (AiServer2.ollama_reply backend t = Raise e /\
           Bounded.written (printed I t r) = "USER : " ++ t ++ nl) \/
          (e = UnicodeEncodeError /\
           Bounded.written (printed I t r) = "USER : " ++ t ++ nl ++ "AARYA: ")
      end).
    { intros r. unfold printed. rewrite Ht. destruct (Bounded.printable I r); cbn.
      - exists t. split; reflexivity.
      - right. right. split; reflexivity. }
    destruct (String.eqb t EmptyString); [apply P|].
    destruct (truthy_reply (Bounded2.try_math I parse fr cr t)); [apply P|].
    destruct (truthy_reply (AiServer2.local_answer clock t)); [apply P|].
    destruct (AiServer2.ollama_reply backend t) as [r|e] eqn:E; [apply P|].
    cbn. right. left. split; reflexivity.
Qed.
